(** * A shallow embedding of the PyTorch quick-start notebook

    The notebook [0-quickstart.ipynb] builds a four-layer classifier for
    FashionMNIST, trains it with SGD, evaluates it, stores its parameter
    dictionary in a file and restores it into a fresh network.

    The notebook's own code (the class [NeuralNetwork], the functions
    [train] and [test] and the top-level cells) is embedded as monadic
    programs over an explicit world: a heap of mutable Python objects
    (parameters, the module, the optimizer), the file system, the random
    stream used by parameter initialisation and the printed output.

    The tensor library is not part of the repository.  Its scalar
    arithmetic is kept abstract (a class [Scalar] without any law, so
    that every theorem holds for the floating-point operations as well),
    its loss function, its automatic differentiation and its serializer
    are section variables; its containers ([nn.Linear], [nn.ReLU],
    [nn.Flatten], [nn.Sequential], [DataLoader], [optim.SGD]) are
    modelled as the library documents them.  The cell that downloads the
    two data sets is not embedded: the data sets it returns are
    parameters of what follows, and so is the accelerator the device is
    read from. *)

From Stdlib Require Import QArith Lqa.
From Stdlib Require Import DecimalString.
From stdpp Require Import gmap strings list fin_maps.
Close Scope Q_scope.
Open Scope nat_scope.

(** ** Scalars *)

(** The element type of tensors with the operations the program uses.
    [gtb x y] is the comparison [x > y] used by [argmax], [c1e_3] the
    literal [1e-3]. *)
Class Scalar (R : Type) := {
  zero : R;
  add : R → R → R;
  sub : R → R → R;
  mul : R → R → R;
  div : R → R → R;
  gtb : R → R → bool;
  relu : R → R;
  of_nat : nat → R;
  c1e_3 : R;
}.

(** ** Lists cut into consecutive pieces *)

(** [chunk k n l] is the list of the [n] consecutive pieces of length
    [k] of [l]: the rows of a row-major [n × k] matrix. *)
Definition chunk {A} (k n : nat) (l : list A) : list (list A) :=
  map (λ i, take k (drop (i * k) l)) (seq 0 n).

(** Number of batches of a [DataLoader] with [drop_last=False]. *)
Definition ceil_div (n k : nat) : nat := (n + k - 1) / k.

(** The batches of a sequential sampler: consecutive pieces of
    [bs] elements, the last one holding what remains. *)
Definition batches {A} (bs : nat) (l : list A) : list (list A) :=
  chunk bs (ceil_div (length l) bs) l.

Definition numel (s : list nat) : nat := foldr Nat.mul 1 s.

(** A FashionMNIST sample under [ToTensor()]: the pixels of a
    [[1; 28; 28]] tensor and the label. *)
Abbreviation Sample R := (list R * nat)%type.

(** Object identities. *)
Abbreviation loc := nat (only parsing).

Section Tensors.

Context {R : Type} `{Scalar R}.

(** ** Tensors *)

Record Tensor := mkTensor { shape : list nat; data : list R }.

Definition wf_tensor (t : Tensor) : Prop := length (data t) = numel (shape t).

(** [nn.Flatten()] has [start_dim=1], [end_dim=-1]: the first dimension
    is kept, the others are merged.  A tensor with fewer than two
    dimensions has no dimension 1 and the call raises. *)
Definition Flatten (x : Tensor) : option Tensor :=
  match shape x with
  | n :: d :: s => Some (mkTensor [n; numel (d :: s)] (data x))
  | _ => None
  end.

(** The dot product accumulated from the left. *)
Definition dot (x w : list R) : R :=
  foldl (λ acc p, add acc (mul p.1 p.2)) zero (zip x w).

(** One row through [nn.Linear]: [x W^T + b], the weight stored
    row-major with shape [[out; in]]. *)
Definition linear_row (W b : Tensor) (x : list R) : list R :=
  match shape W with
  | [o; i] => zip_with (λ wr bj, add (dot x wr) bj) (chunk i o (data W)) (data b)
  | _ => []
  end.

(** [F.linear] on a tensor whose last dimension is the layer's input
    size; any other input raises. *)
Definition F_linear (W b x : Tensor) : option Tensor :=
  match shape W, rev (shape x) with
  | [o; i], k :: s =>
      if decide (k = i ∧ shape b = [o])
      then Some (mkTensor (rev (o :: s))
                   (concat (map (linear_row W b) (chunk i (numel s) (data x)))))
      else None
  | _, _ => None
  end.

Definition F_relu (x : Tensor) : Tensor :=
  mkTensor (shape x) (map relu (data x)).

(** ** The heap of Python objects *)

(** A parameter object holds its data and its [.grad] (absent until a
    backward pass stores one); a module holds its [training] flag (the
    program only ever switches the whole module tree at once, so one flag
    stands for all sub-modules); an [optim.SGD] object holds the learning
    rate of its single parameter group and references to its parameters
    (momentum, dampening and weight decay are left at their default 0). *)
Inductive Obj :=
| OParameter (d : Tensor) (g : option Tensor)
| OModule (training : bool)
| OOptimizer (lr : R) (params : list loc).

(** ** Layers and [nn.Sequential] *)

Inductive Layer :=
| Linear (in_features out_features : nat) (weight bias : loc)
| ReLU.

Definition param_data (h : gmap loc Obj) (l : loc) : option Tensor :=
  match h !! l with
  | Some (OParameter d _) => Some d
  | _ => None
  end.

Definition apply_layer (h : gmap loc Obj) (ly : Layer) (x : Tensor) : option Tensor :=
  match ly with
  | Linear _ _ lw lb =>
      W ← param_data h lw;
      b ← param_data h lb;
      F_linear W b x
  | ReLU => Some (F_relu x)
  end.

(** [nn.Sequential.forward]: the layers are applied in order. *)
Fixpoint Sequential (h : gmap loc Obj) (layers : list Layer) (x : Tensor) : option Tensor :=
  match layers with
  | [] => Some x
  | ly :: rest => x' ← apply_layer h ly x; Sequential h rest x'
  end.

(** ** The class [NeuralNetwork] *)

Record NeuralNetwork := mkNN {
  self : loc;
  linear_relu_stack : list Layer;
}.

(** [NeuralNetwork.forward] *)
Definition forward (h : gmap loc Obj) (m : NeuralNetwork) (x : Tensor) : option Tensor :=
  x ← Flatten x;
  logits ← Sequential h (linear_relu_stack m) x;
  Some logits.


Definition parameters (m : NeuralNetwork) : list loc :=
  flat_map (λ ly, match ly with Linear _ _ lw lb => [lw; lb] | ReLU => [] end)
    (linear_relu_stack m).

(** The names under which [state_dict] lists the parameters:
    [linear_relu_stack.<index>.weight] and [.bias]. *)
Definition layer_prefix (i : nat) : string :=
  "linear_relu_stack." +:+ NilEmpty.string_of_uint (Nat.to_uint i).

Definition named_parameters (m : NeuralNetwork) : list (string * loc) :=
  concat (imap (λ i ly,
            match ly with
            | Linear _ _ lw lb =>
                [(layer_prefix i +:+ ".weight", lw); (layer_prefix i +:+ ".bias", lb)]
            | ReLU => []
            end) (linear_relu_stack m)).

(** ** [argmax] and indexing *)

Fixpoint argmax_from (best : R) (bi i : nat) (l : list R) : nat :=
  match l with
  | [] => bi
  | x :: l' => if gtb x best then argmax_from x i (S i) l'
               else argmax_from best bi (S i) l'
  end.

(** Index of the first maximal element; an empty list has none. *)
Definition argmax (l : list R) : option nat :=
  match l with
  | [] => None
  | x :: l' => Some (argmax_from x 0 1 l')
  end.

(** [pred.argmax(1)] of a two-dimensional tensor: one index per row. *)
Definition argmax_dim1 (t : Tensor) : option (list nat) :=
  match shape t with
  | [n; c] => mapM argmax (chunk c n (data t))
  | _ => None
  end.

(** [t.argmax(0)] of a one-dimensional tensor. *)
Definition argmax_dim0 (t : Tensor) : option nat :=
  match shape t with
  | [_] => argmax (data t)
  | _ => None
  end.

(** [t[0]]: the first slice along dimension 0. *)
Definition index0 (t : Tensor) : option Tensor :=
  match shape t with
  | S _ :: s => Some (mkTensor s (take (numel s) (data t)))
  | _ => None
  end.

(** [(a == y).type(torch.float).sum().item()]: the number of positions
    where the two index vectors agree (a float holding a small integer,
    kept as the integer). *)
Definition count_eq (a y : list nat) : nat :=
  length (filter (λ p, p.1 = p.2) (zip a y)).

(** ** Datasets and data loaders *)


Definition image (s : list R * nat) : Tensor := mkTensor [1; 28; 28] s.1.

Record DataLoader := mkLoader { dataset : list (Sample R); batch_size : nat }.

(** [len(dataloader)] *)
Definition loader_len (dl : DataLoader) : nat :=
  ceil_div (length (dataset dl)) (batch_size dl).

(** The default collate function stacks the images of a batch and
    gathers the labels. *)
Definition collate (b : list (Sample R)) : Tensor * list nat :=
  (mkTensor [length b; 1; 28; 28] (concat (map fst b)), map snd b).

(** Iterating a loader built without [shuffle] and with
    [drop_last=False]. *)
Definition loader_iter (dl : DataLoader) : list (Tensor * list nat) :=
  map collate (batches (batch_size dl) (dataset dl)).

(** ** The world and the monad of notebook code *)

(** What [print] receives; number formatting is left to [print]. *)
Inductive Output :=
| OutShapes (X y : list nat)
| OutModel (layers : list Layer)
| OutEpoch (n : nat)
| OutLoss (loss : R) (current size : nat)
| OutTestError (accuracy_percent avg_loss : R)
| OutText (s : string)
| OutPredicted (predicted actual : string).

(** Ghost log of the calls the control-flow and persistence properties
    speak about: every iteration of [train]'s loop (with its index), every
    [optimizer.step()] (with the learning rate it read), every call of
    [test], every [torch.save] and [torch.load] (with the path). *)
Inductive Event :=
| EvBatch (i : nat)
| EvStep (lr : R)
| EvTest
| EvSave (path : string)
| EvLoad (path : string).

End Tensors.

Arguments Tensor R : clear implicits.
Arguments Obj R : clear implicits.
Arguments DataLoader R : clear implicits.
Arguments Output R : clear implicits.
Arguments Event R : clear implicits.

(** ** The library's own functions *)

(** [Blob] is what a file holds.  [rand] is the stream of values the
    initialisers draw from ([rng] will be the position in it).
    [CrossEntropyLoss] is the loss on well-shaped arguments.
    [autograd f h l i] is the partial derivative of [f] at the heap [h]
    in the [i]-th element of the parameter [l], as backpropagation
    computes it.  [pickle] and [unpickle] are the serializer behind
    [torch.save] and [torch.load]. *)
Class Torch (R : Type) `{Scalar R} := {
  Blob : Type;
  rand : nat → R;
  CrossEntropyLoss : Tensor R → list nat → R;
  autograd : (gmap loc (Obj R) → option R) → gmap loc (Obj R) → loc → nat → R;
  pickle : gmap string (Tensor R) → Blob;
  unpickle : Blob → option (gmap string (Tensor R));
}.

Section Program.

Context {R : Type} `{Torch R}.

Record World := mkWorld {
  heap : gmap loc (Obj R);
  files : gmap string Blob;
  rng : nat;
  stdout : list (Output R);
  trace : list (Event R);
}.

(** State passing with exceptions: [None] is a raised exception (the
    notebook catches none). *)
Definition M (A : Type) : Type := World → option (A * World).

Definition ret {A} (a : A) : M A := λ w, Some (a, w).
Definition bind {A B} (c : M A) (k : A → M B) : M B :=
  λ w, match c w with Some (a, w') => k a w' | None => None end.
Definition raise {A} : M A := λ _, None.
Definition lift {A} (o : option A) : M A :=
  λ w, match o with Some a => Some (a, w) | None => None end.

Notation "'let*' x := c 'in' k" := (bind c (λ x, k))
  (at level 10, x pattern, c at level 100, k at level 200).

Definition get_heap : M (gmap loc (Obj R)) := λ w, Some (heap w, w).
Definition put_heap (h : gmap loc (Obj R)) : M unit :=
  λ w, Some (tt, mkWorld h (files w) (rng w) (stdout w) (trace w)).
Definition print (o : (Output R)) : M unit :=
  λ w, Some (tt, mkWorld (heap w) (files w) (rng w) (stdout w ++ [o]) (trace w)).
Definition log (e : (Event R)) : M unit :=
  λ w, Some (tt, mkWorld (heap w) (files w) (rng w) (stdout w) (trace w ++ [e])).

(** A new object gets an identity no live object has. *)
Definition alloc (o : (Obj R)) : M loc :=
  λ w, let l := fresh (dom (heap w)) in
       Some (l, mkWorld (<[l := o]> (heap w)) (files w) (rng w) (stdout w) (trace w)).

(** [for i, a in enumerate(l)], counting from [i]. *)
Fixpoint for_each {A} (body : nat → A → M unit) (i : nat) (l : list A) : M unit :=
  match l with
  | [] => ret tt
  | a :: l' => let* _ := body i a in for_each body (S i) l'
  end.

(** A loop that carries local variables [acc]. *)
Fixpoint fold_loop {A S} (body : S → A → M S) (acc : S) (l : list A) : M S :=
  match l with
  | [] => ret acc
  | a :: l' => let* acc' := body acc a in fold_loop body acc' l'
  end.

(** ** Library calls with an effect *)

(** [nn.Linear(i, o)]: a weight of shape [[o; i]] and a bias of shape
    [[o]], both freshly drawn, without gradient. *)
Definition nn_Linear (i o : nat) : M Layer :=
  λ w, let W := mkTensor [o; i] (map rand (seq (rng w) (o * i))) in
       let b := mkTensor [o] (map rand (seq (rng w + o * i) o)) in
       (let* lw := alloc (OParameter W None) in
        let* lb := alloc (OParameter b None) in
        ret (Linear i o lw lb))
         (mkWorld (heap w) (files w) (rng w + o * i + o) (stdout w) (trace w)).

(** [nn.CrossEntropyLoss()] called on logits of shape [[n; c]] and [n]
    class indices below [c]; anything else raises. *)
Definition nn_CrossEntropyLoss (pred : (Tensor R)) (y : list nat) : option R :=
  match shape pred with
  | [n; c] => if decide (n = length y ∧ Forall (λ k, k < c) y)
              then Some (CrossEntropyLoss pred y) else None
  | _ => None
  end.

(** [model.train()] and [model.eval()] *)
Definition set_training (m : NeuralNetwork) (b : bool) : M unit :=
  let* h := get_heap in
  match h !! self m with
  | Some (OModule _) => put_heap (<[self m := OModule b]> h)
  | _ => raise
  end.

(** Apply [f] to the data and gradient of each listed parameter. *)
Fixpoint for_params (f : loc → (Tensor R) → option (Tensor R) → (Tensor R) * option (Tensor R))
    (ls : list loc) (h : gmap loc (Obj R)) : option (gmap loc (Obj R)) :=
  match ls with
  | [] => Some h
  | l :: ls' =>
      match h !! l with
      | Some (OParameter d g) =>
          for_params f ls' (<[l := OParameter (f l d g).1 (f l d g).2]> h)
      | _ => None
      end
  end.

(** The gradient of [f] in the parameter [l] whose data is [d]. *)
Definition gradient (f : gmap loc (Obj R) → option R) (h : gmap loc (Obj R))
    (l : loc) (d : (Tensor R)) : (Tensor R) :=
  mkTensor (shape d) (map (autograd f h l) (seq 0 (length (data d)))).

Definition tensor_add (a b : (Tensor R)) : (Tensor R) :=
  mkTensor (shape a) (zip_with add (data a) (data b)).

(** [loss.backward()]: the gradient of the loss is accumulated into the
    [.grad] of every parameter the loss was computed from. *)
Definition backward (f : gmap loc (Obj R) → option R) (ps : list loc) : M unit :=
  let* h := get_heap in
  let* h' := lift (for_params (λ l d g,
                 (d, Some (match g with
                           | None => gradient f h l d
                           | Some g0 => tensor_add g0 (gradient f h l d)
                           end))) ps h) in
  put_heap h'.

(** [torch.optim.SGD(params, lr)] *)
Definition SGD (params : list loc) (lr : R) : M loc :=
  alloc (OOptimizer lr params).

(** The update of plain SGD on one parameter. *)
Definition sgd_update (lr : R) (d g : (Tensor R)) : (Tensor R) :=
  mkTensor (shape d) (zip_with (λ p gp, sub p (mul lr gp)) (data d) (data g)).

(** [optimizer.step()]: parameters without gradient are skipped. *)
Definition optimizer_step (opt : loc) : M unit :=
  let* h := get_heap in
  match h !! opt with
  | Some (OOptimizer lr ps) =>
      let* _ := log (EvStep lr) in
      let* h' := lift (for_params (λ _ d g,
                     match g with
                     | Some g0 => (sgd_update lr d g0, g)
                     | None => (d, g)
                     end) ps h) in
      put_heap h'
  | _ => raise
  end.

(** [optimizer.zero_grad()]: with the default [set_to_none=True] the
    gradients are dropped. *)
Definition optimizer_zero_grad (opt : loc) : M unit :=
  let* h := get_heap in
  match h !! opt with
  | Some (OOptimizer _ ps) =>
      let* h' := lift (for_params (λ _ d _, (d, None)) ps h) in
      put_heap h'
  | _ => raise
  end.

(** [model.state_dict()] *)
Definition state_dict (m : NeuralNetwork) : M (gmap string (Tensor R)) :=
  let* h := get_heap in
  let* kvs := lift (mapM (λ kl : string * loc,
                      d ← param_data h kl.2; Some (kl.1, d)) (named_parameters m)) in
  ret (list_to_map kvs).

(** [torch.save(obj, path)] and [torch.load(path, weights_only=True)] *)
Definition torch_save (sd : gmap string (Tensor R)) (path : string) : M unit :=
  λ w, Some (tt, mkWorld (heap w) (<[path := pickle sd]> (files w)) (rng w)
                   (stdout w) (trace w ++ [EvSave path])).

Definition torch_load (path : string) : M (gmap string (Tensor R)) :=
  let* _ := log (EvLoad path) in
  λ w, match files w !! path ≫= unpickle with
       | Some sd => Some (sd, w)
       | None => None
       end.

(** [model.load_state_dict(sd)] with the default [strict=True]: the keys
    of [sd] must be exactly the parameter names, each tensor must have the
    shape of the parameter it replaces. *)
Definition load_param (sd : gmap string (Tensor R)) (kl : string * loc) : M unit :=
  let* h := get_heap in
  match sd !! kl.1, h !! kl.2 with
  | Some t, Some (OParameter d g) =>
      if decide (shape t = shape d)
      then put_heap (<[kl.2 := OParameter t g]> h)
      else raise
  | _, _ => raise
  end.

Definition load_state_dict (m : NeuralNetwork) (sd : gmap string (Tensor R)) : M unit :=
  if decide (dom sd = list_to_set (named_parameters m).*1) then
    for_each (λ _, load_param sd) 0 (named_parameters m)
  else raise.

(** ** The notebook *)

(** [batch_size = 64] and the two loaders. *)
Definition batch_size_cell : nat := 64.

Definition make_loader (ds : list (Sample R)) : (DataLoader R) := mkLoader ds batch_size_cell.

(** The loop that prints the shapes of the first test batch and breaks. *)
Definition shapes_cell (test_dataloader : (DataLoader R)) : M unit :=
  match loader_iter test_dataloader with
  | (X, y) :: _ => print (OutShapes (shape X) [length y])
  | [] => ret tt
  end.

(** [NeuralNetwork.__init__]; a new module is in training mode. *)
Definition NeuralNetwork_init : M NeuralNetwork :=
  let* l0 := nn_Linear (28 * 28) 1024 in
  let* l2 := nn_Linear 1024 1024 in
  let* l4 := nn_Linear 1024 512 in
  let* l6 := nn_Linear 512 10 in
  let* s := alloc (OModule true) in
  ret (mkNN s [l0; ReLU; l2; ReLU; l4; ReLU; l6]).

(** [device]: the type of the current accelerator when one is available
    ([accelerator] is then [Some] of it), else ["cpu"]. *)
Definition device (accelerator : option string) : string :=
  match accelerator with Some t => t | None => "cpu" end.

(** The cell that picks the device and prints it, defines the class,
    builds the model and prints it.  [.to(device)] moves the parameters
    and leaves their values as they are. *)
Definition model_cell (accelerator : option string) : M NeuralNetwork :=
  let* _ := print (OutText ("Using " +:+ device accelerator +:+ " device")) in
  let* model := NeuralNetwork_init in
  let* _ := print (OutModel (linear_relu_stack model)) in
  ret model.

(** [optimizer = torch.optim.SGD(model.parameters(), lr=1e-3)] *)
Definition optimizer_cell (model : NeuralNetwork) : M loc :=
  SGD (parameters model) c1e_3.

(** The loss of the model on a batch as a function of the heap: what
    [loss.backward()] differentiates. *)
Definition batch_loss (model : NeuralNetwork)
    (loss_fn : (Tensor R) → list nat → option R) (X : (Tensor R)) (y : list nat)
    : gmap loc (Obj R) → option R :=
  λ h, pred ← forward h model X; loss_fn pred y.

(** [len(X)] *)
Definition len (X : (Tensor R)) : nat := hd 0 (shape X).

(** The body of the loop of [train], for the batch number [batch]. *)
Definition train_batch (model : NeuralNetwork)
    (loss_fn : (Tensor R) → list nat → option R) (optimizer : loc) (size : nat)
    (batch : nat) (Xy : (Tensor R) * list nat) : M unit :=
  let (X, y) := Xy in
  let* _ := log (EvBatch batch) in
  (* Compute prediction error *)
  let* h := get_heap in
  let* pred := lift (forward h model X) in
  let* loss := lift (loss_fn pred y) in
  (* Backpropagation *)
  let* _ := backward (batch_loss model loss_fn X y) (parameters model) in
  let* _ := optimizer_step optimizer in
  let* _ := optimizer_zero_grad optimizer in
  if decide (batch mod 100 = 0)
  then print (OutLoss loss ((batch + 1) * len X) size)
  else ret tt.

Definition train (dataloader : DataLoader R) (model : NeuralNetwork)
    (loss_fn : (Tensor R) → list nat → option R) (optimizer : loc) : M unit :=
  let size := length (dataset dataloader) in
  let* _ := set_training model true in
  for_each (train_batch model loss_fn optimizer size) 0 (loader_iter dataloader).

(** [x /= n] for a float or the integer 0 and an integer [n]. *)
Definition py_div (x : R) (n : nat) : M R :=
  if decide (n = 0) then raise else ret (div x (of_nat n)).

(** The body of the loop of [test]; [acc] holds [test_loss] and
    [correct]. *)
Definition test_batch (model : NeuralNetwork)
    (loss_fn : (Tensor R) → list nat → option R)
    (acc : R * nat) (Xy : (Tensor R) * list nat) : M (R * nat) :=
  let (test_loss, correct) := acc in
  let (X, y) := Xy in
  let* h := get_heap in
  let* pred := lift (forward h model X) in
  let* l := lift (loss_fn pred y) in
  let* am := lift (argmax_dim1 pred) in
  ret (add test_loss l, correct + count_eq am y).

Definition test (dataloader : DataLoader R) (model : NeuralNetwork)
    (loss_fn : (Tensor R) → list nat → option R) : M unit :=
  let size := length (dataset dataloader) in
  let num_batches := loader_len dataloader in
  let* _ := log EvTest in
  let* _ := set_training model false in
  let* acc := fold_loop (test_batch model loss_fn) (zero, 0)
                (loader_iter dataloader) in
  let (test_loss, correct) := acc in
  let* test_loss := py_div test_loss num_batches in
  let* correct := py_div (of_nat correct) size in
  print (OutTestError (mul (of_nat 100) correct) test_loss).

Definition epochs : nat := 20.

(** The body of the epoch loop, for the epoch number [t]. *)
Definition epoch (train_dataloader test_dataloader : DataLoader R)
    (model : NeuralNetwork) (loss_fn : Tensor R → list nat → option R)
    (optimizer : loc) (t : nat) : M unit :=
  let* _ := print (OutEpoch (t + 1)) in
  let* _ := train train_dataloader model loss_fn optimizer in
  test test_dataloader model loss_fn.

Definition epochs_cell (train_dataloader test_dataloader : DataLoader R)
    (model : NeuralNetwork) (loss_fn : Tensor R → list nat → option R)
    (optimizer : loc) : M unit :=
  let* _ := for_each (λ t _,
      epoch train_dataloader test_dataloader model loss_fn optimizer t)
    0 (seq 0 epochs) in
  print (OutText "Done!").

(** The file name is the seven characters of the Python literal: the
    backslash before [m] starts no escape sequence. *)
Definition model_path : string := ".\model".

Definition save_cell (model : NeuralNetwork) : M unit :=
  let* sd := state_dict model in
  let* _ := torch_save sd model_path in
  print (OutText "Saved PyTorch Model State to .\model").

Definition load_cell : M NeuralNetwork :=
  let* model := NeuralNetwork_init in
  let* sd := torch_load model_path in
  let* _ := load_state_dict model sd in
  ret model.

Definition classes : list string :=
  [ "T-shirt/top"; "Trouser"; "Pullover"; "Dress"; "Coat";
    "Sandal"; "Shirt"; "Sneaker"; "Bag"; "Ankle boot" ].

Definition predict_cell (test_data : list (Sample R)) (model : NeuralNetwork) : M unit :=
  let* _ := set_training model false in
  let* s := lift (test_data !! 0) in
  let x := image s in
  let y := s.2 in
  let* h := get_heap in
  let* pred := lift (forward h model x) in
  let* p0 := lift (index0 pred) in
  let* i := lift (argmax_dim0 p0) in
  let* predicted := lift (classes !! i) in
  let* actual := lift (classes !! y) in
  print (OutPredicted predicted actual).

(** The code cells that follow the cell that obtains the two data sets,
    in order, from the data loaders to the prediction.  The data sets are
    what that cell returned; its download (which writes under [data/] and
    can fail) comes before and is no part of this. *)
Definition cells_after_data (accelerator : option string)
    (training_data test_data : list (Sample R)) : M unit :=
  let train_dataloader := make_loader training_data in
  let test_dataloader := make_loader test_data in
  let* _ := shapes_cell test_dataloader in
  let* model := model_cell accelerator in
  let loss_fn := nn_CrossEntropyLoss in
  let* optimizer := optimizer_cell model in
  let* _ := epochs_cell train_dataloader test_dataloader model loss_fn optimizer in
  let* _ := save_cell model in
  let* model := load_cell in
  predict_cell test_data model.

(** ** Vocabulary of the properties *)

(** What one layer does to one row, and the logits of one flattened
    image: the row-wise reading of [forward]. *)
Definition layer_row (h : gmap loc (Obj R)) (ly : Layer) (x : list R) : list R :=
  match ly with
  | Linear _ _ lw lb =>
      match param_data h lw, param_data h lb with
      | Some W, Some b => linear_row W b x
      | _, _ => []
      end
  | ReLU => map relu x
  end.

Definition logits (h : gmap loc (Obj R)) (m : NeuralNetwork) (x : list R) : list R :=
  foldl (λ r ly, layer_row h ly r) x (linear_relu_stack m).

(** [l] is a parameter of shape [s]. *)
Definition is_param (h : gmap loc (Obj R)) (l : loc) (s : list nat) : Prop :=
  ∃ d g, h !! l = Some (OParameter d g) ∧ shape d = s ∧ wf_tensor d.

Definition wf_layer (h : gmap loc (Obj R)) (ly : Layer) : Prop :=
  match ly with
  | Linear i o lw lb => is_param h lw [o; i] ∧ is_param h lb [o]
  | ReLU => True
  end.

Definition layer_sig (ly : Layer) : option (nat * nat) :=
  match ly with
  | Linear i o _ _ => Some (i, o)
  | ReLU => None
  end.

(** The row length a stack of layers produces from rows of length
    [din], when the sizes of consecutive layers fit. *)
Fixpoint out_dim (din : nat) (sigs : list (option (nat * nat))) : option nat :=
  match sigs with
  | [] => Some din
  | Some (i, o) :: rest => if decide (i = din) then out_dim o rest else None
  | None :: rest => out_dim din rest
  end.

(** The object [m] is a network as [NeuralNetwork.__init__] builds it:
    the seven layers with their sizes, eight distinct parameters of the
    matching shapes, and a module object. *)
Definition arch (h : gmap loc (Obj R)) (m : NeuralNetwork) : Prop :=
  layer_sig <$> linear_relu_stack m =
    [Some (784, 1024); None; Some (1024, 1024); None;
     Some (1024, 512); None; Some (512, 10)]
  ∧ Forall (wf_layer h) (linear_relu_stack m)
  ∧ NoDup (parameters m)
  ∧ ∃ b, h !! self m = Some (OModule b).

Definition grads_cleared (h : gmap loc (Obj R)) (ps : list loc) : Prop :=
  ∀ l, l ∈ ps → ∃ d, h !! l = Some (OParameter d None).

(** The state between two iterations of [train]: [opt] is the optimizer
    the notebook built for [m], and no gradient is pending. *)
Definition train_inv (h : gmap loc (Obj R)) (m : NeuralNetwork) (opt : loc) : Prop :=
  arch h m
  ∧ h !! opt = Some (OOptimizer c1e_3 (parameters m))
  ∧ grads_cleared h (parameters m).

(** A FashionMNIST sample: 784 pixels and a label among the ten classes. *)
Definition wf_sample (s : Sample R) : Prop := length s.1 = 784 ∧ s.2 < 10.

(** One step of gradient descent on the loss [f] with rate [lr], as a
    function on heaps: every parameter [p] among [ps] becomes
    [p - lr * gradient], its [.grad] is dropped; nothing else changes. *)
Definition sgd_heap (lr : R) (f : gmap loc (Obj R) → option R) (ps : list loc)
    (h : gmap loc (Obj R)) : gmap loc (Obj R) :=
  map_imap (λ l o,
      Some (match o with
            | OParameter d g =>
                if decide (l ∈ ps)
                then OParameter (sgd_update lr d (gradient f h l d)) None
                else o
            | _ => o
            end)) h.

(** The number of samples the model classifies correctly. *)
Definition correct_count (h : gmap loc (Obj R)) (m : NeuralNetwork)
    (ds : list (Sample R)) : nat :=
  length (filter (λ s : Sample R, argmax (logits h m s.1) = Some s.2) ds).

(** What one epoch does to the heap: [train] switches to training
    mode and takes one step per batch, [test] switches to evaluation
    mode. *)
Definition epoch_heap (m : NeuralNetwork) (dl : DataLoader R)
    (h : gmap loc (Obj R)) : gmap loc (Obj R) :=
  <[self m := OModule false]>
    (foldl (λ h (Xy : Tensor R * list nat),
         sgd_heap c1e_3 (batch_loss m nn_CrossEntropyLoss Xy.1 Xy.2)
           (parameters m) h)
       (<[self m := OModule true]> h) (loader_iter dl)).

(** The loss [test] adds up for the batch [b]. *)
Definition batch_loss_value (h : gmap loc (Obj R)) (m : NeuralNetwork)
    (b : list (Sample R)) : R :=
  CrossEntropyLoss
    (mkTensor [length b; 10] (concat (map (λ s : Sample R, logits h m s.1) b)))
    (map snd b).

(** The lookups of the heap [for_params f ls h]. *)
Definition upd (f : loc → Tensor R → option (Tensor R) → Tensor R * option (Tensor R))
    (ls : list loc) (h : gmap loc (Obj R)) (l : loc) : option (Obj R) :=
  match h !! l with
  | Some (OParameter d g) =>
      if decide (l ∈ ls) then Some (OParameter (f l d g).1 (f l d g).2)
      else Some (OParameter d g)
  | o => o
  end.

(** The seven layers of a network, by their parameters, the names
    [state_dict] gives the parameters, and their shapes. *)
Definition stack_of (a0 b0 a2 b2 a4 b4 a6 b6 : loc) : list Layer :=
  [Linear 784 1024 a0 b0; ReLU; Linear 1024 1024 a2 b2; ReLU;
   Linear 1024 512 a4 b4; ReLU; Linear 512 10 a6 b6].

Definition names : list string :=
  ["linear_relu_stack.0.weight"; "linear_relu_stack.0.bias";
   "linear_relu_stack.2.weight"; "linear_relu_stack.2.bias";
   "linear_relu_stack.4.weight"; "linear_relu_stack.4.bias";
   "linear_relu_stack.6.weight"; "linear_relu_stack.6.bias"].

Definition param_shapes : list (list nat) :=
  [[1024; 784]; [1024]; [1024; 1024]; [1024];
   [512; 1024]; [512]; [10; 512]; [10]].

(** The trace of one call of [train] on [n] batches. *)
Definition train_trace (n : nat) : list (Event R) :=
  flat_map (λ i, [EvBatch i; EvStep c1e_3]) (seq 0 n).

(** The trace of one epoch: [train] on [n] batches, then [test]. *)
Definition epoch_trace (n : nat) : list (Event R) :=
  train_trace n ++ [EvTest].

(** The calls of [optimizer.step()] in a trace. *)
Definition is_step (e : Event R) : bool :=
  match e with EvStep _ => true | _ => false end.

Definition count_steps (t : list (Event R)) : nat :=
  length (filter (λ e, is_step e = true) t).

End Program.

Arguments World R {_ _}.
Arguments M R {_ _} A.

(** ** Reading the printed lines *)

Section OutputDefs.
Context {R : Type}.

(** The progress [current/size] of a line printed by [train]. *)
Definition progress_of (o : Output R) : option (nat * nat) :=
  match o with OutLoss _ c s => Some (c, s) | _ => None end.

(** The number of an epoch header. *)
Definition epoch_no (o : Output R) : option nat :=
  match o with OutEpoch n => Some n | _ => None end.

Definition is_test_line (o : Output R) : bool :=
  match o with OutTestError _ _ => true | _ => false end.

(** What [train] prints for the batch number [j] of [n] samples. *)
Definition progress_at (size j n : nat) : option (nat * nat) :=
  if decide (j mod 100 = 0) then Some ((j + 1) * n, size) else None.

(** A progress line of [train]. *)
Definition is_loss_line (o : Output R) : Prop := ∃ loss c s, o = OutLoss loss c s.

End OutputDefs.

(** ** Exact rational arithmetic as scalars *)

#[global] Instance Q_scalar : Scalar Q := {|
  zero := 0%Q;
  add := Qplus;
  sub := Qminus;
  mul := Qmult;
  div := Qdiv;
  gtb := λ x y, negb (Qle_bool x y);
  relu := λ x, if Qle_bool 0 x then x else 0%Q;
  of_nat := λ n, inject_Z (Z.of_nat n);
  c1e_3 := (1 # 1000)%Q;
|}.

Definition Qsum (l : list Q) : Q := foldr Qplus 0%Q l.

(** [CrossEntropyLoss] with its default [reduction='mean']: the mean of
    the losses [sample_loss logits label] of the samples of the batch. *)
Definition mean_loss (sample_loss : list Q → nat → Q) (pred : Tensor Q)
    (y : list nat) : Q :=
  match shape pred with
  | [n; c] => (Qsum (zip_with sample_loss (chunk c n (data pred)) y)
               / inject_Z (Z.of_nat (length y)))%Q
  | _ => 0%Q
  end.

(** A library over the rationals: files hold the dictionary itself; the
    initial values and derivatives are immaterial and taken to be 0. *)
Definition Q_torch (sample_loss : list Q → nat → Q) : Torch Q := {|
  Blob := gmap string (Tensor Q);
  rand := λ _, 0%Q;
  CrossEntropyLoss := mean_loss sample_loss;
  autograd := λ _ _ _ _, 0%Q;
  pickle := id;
  unpickle := Some;
|}.

(** Mean of a list of rationals. *)
Definition Qmean (l : list Q) : Q := (Qsum l / inject_Z (Z.of_nat (length l)))%Q.

(** The loss of one sample under the model. *)
Definition loss_of (sample_loss : list Q → nat → Q) (h : gmap loc (Obj Q))
    (m : NeuralNetwork) (s : Sample Q) : Q :=
  sample_loss (logits h m s.1) s.2.

(** ** A concrete notebook state

    The library over the rationals with a constant loss, the empty
    world, the state after the cells that build the model and the
    optimizer, and an all-black image labelled 0. *)
Definition demo_torch : Torch Q := Q_torch (λ _ _, 0%Q).

Definition demo_world0 : @World Q _ demo_torch :=
  @mkWorld Q _ demo_torch ∅ ∅ 0 [] [].

Definition demo_setup : NeuralNetwork * loc * @World Q _ demo_torch :=
  match @model_cell Q _ demo_torch None demo_world0 with
  | Some (m, w1) =>
      match @optimizer_cell Q _ demo_torch m w1 with
      | Some (opt, w2) => (m, opt, w2)
      | None => (m, 0, w1)
      end
  | None => (mkNN 0 [], 0, demo_world0)
  end.

Definition demo_model : NeuralNetwork := demo_setup.1.1.
Definition demo_optimizer : loc := demo_setup.1.2.
Definition demo_world : @World Q _ demo_torch := demo_setup.2.

Definition demo_sample : Sample Q := (replicate 784 0%Q, 0).

Definition demo_loader : DataLoader Q := @make_loader Q [demo_sample].

Definition demo_training_data : list (Sample Q) :=
  replicate (Z.to_nat 60000) demo_sample.

(** ** A loss that reads the label only

    For the averages of [test] on concrete data: the loss of a sample is
    1, 3 or 2 as its label is 0, 1 or another one, whatever the logits. *)
Definition label_loss (_ : list Q) (y : nat) : Q :=
  match y with 0 => 1%Q | 1 => 3%Q | _ => 2%Q end.

Definition label_torch : Torch Q := Q_torch label_loss.

Definition label_world0 : @World Q _ label_torch :=
  @mkWorld Q _ label_torch ∅ ∅ 0 [] [].

(** The state after the cell that builds the model. *)
Definition label_setup : NeuralNetwork * @World Q _ label_torch :=
  match @model_cell Q _ label_torch None label_world0 with
  | Some r => r
  | None => (mkNN 0 [], label_world0)
  end.

Definition label_model : NeuralNetwork := label_setup.1.
Definition label_world : @World Q _ label_torch := label_setup.2.

(** An all-black image with the label [y]. *)
Definition blank (y : nat) : Sample Q := (replicate 784 0%Q, y).

(** 10000 samples: 78 batches of label 0, 78 batches of label 1 and a
    last batch of 16 samples of label 2. *)
Definition balanced_test_data : list (Sample Q) :=
  replicate (78 * 64) (blank 0) ++ replicate (78 * 64) (blank 1)
  ++ replicate 16 (blank 2).

(** 10000 samples: 156 batches of label 0 and a last batch of 16 samples
    of label 2. *)
Definition skewed_test_data : list (Sample Q) :=
  replicate (156 * 64) (blank 0) ++ replicate 16 (blank 2).


(** * Proofs *)

Ltac mred :=
  cbv beta iota delta [bind ret lift log get_heap put_heap print raise];
  cbn [heap files rng stdout trace].

Ltac split_Forall2 :=
  repeat match goal with
         | F : Forall2 _ (_ :: _) (_ :: _) |- _ => apply Forall2_cons in F as [? F]
         | F : Forall2 _ [] [] |- _ => clear F
         end.

Section ListFacts.
Context {A : Type}.
Implicit Types (l : list A) (ls : list (list A)).

Lemma length_chunk k n l : length (chunk k n l) = n.
Proof. unfold chunk. by rewrite length_map, length_seq. Qed.

Lemma chunk_S k n l :
  chunk k (S n) l = chunk k n l ++ [take k (drop (n * k) l)].
Proof. unfold chunk. by rewrite seq_S, map_app. Qed.

Lemma chunk_cons k n l :
  chunk k (S n) l = take k l :: chunk k n (drop k l).
Proof.
  unfold chunk. cbn [seq map]. rewrite drop_0. f_equal.
  rewrite <- fmap_S_seq, <- list_fmap_compose.
  apply list_fmap_ext; intros j i Hj; cbn.
  by rewrite drop_drop.
Qed.

Lemma concat_chunk k n l : concat (chunk k n l) = take (n * k) l.
Proof.
  induction n as [|n IH].
  - done.
  - rewrite chunk_S, concat_app, IH. cbn [concat]. rewrite app_nil_r.
    rewrite take_take_drop. f_equal. lia.
Qed.

Lemma chunk_concat k ls :
  Forall (λ r, length r = k) ls → chunk k (length ls) (concat ls) = ls.
Proof.
  induction 1 as [|r ls Hr _ IH].
  - done.
  - cbn [length concat]. rewrite chunk_cons.
    rewrite take_app_length' by done. rewrite drop_app_length' by done.
    by rewrite IH.
Qed.

Lemma Forall_chunk_length k n l :
  n * k ≤ length l → Forall (λ r, length r = k) (chunk k n l).
Proof.
  intros Hn. unfold chunk. apply Forall_fmap, Forall_forall.
  intros i Hi%elem_of_seq. cbn.
  rewrite length_take, length_drop. nia.
Qed.

Lemma length_concat_const k ls :
  Forall (λ r, length r = k) ls → length (concat ls) = length ls * k.
Proof.
  induction 1 as [|r ls Hr _ IH]; [done|].
  cbn [concat length]. rewrite length_app, IH, Hr. lia.
Qed.

Lemma length_batches bs l : length (batches bs l) = ceil_div (length l) bs.
Proof. apply length_chunk. Qed.

Lemma ceil_div_bound n k : 0 < k → n ≤ ceil_div n k * k ∧ ceil_div n k * k < n + k.
Proof.
  intros Hk. unfold ceil_div.
  pose proof (Nat.div_mod_eq (n + k - 1) k) as E.
  pose proof (Nat.mod_upper_bound (n + k - 1) k) as B.
  nia.
Qed.

Lemma concat_batches bs l : 0 < bs → concat (batches bs l) = l.
Proof.
  intros Hbs. unfold batches. rewrite concat_chunk.
  apply take_ge. by apply ceil_div_bound.
Qed.

End ListFacts.

Section Forward.
Context {R : Type} `{Scalar R}.
Implicit Types (h : gmap loc (Obj R)) (W b x : Tensor R) (rows : list (list R)).

Lemma numel_cons a s : numel (a :: s) = a * numel s.
Proof. reflexivity. Qed.

Lemma numel_singleton a : numel [a] = a.
Proof. rewrite numel_cons. cbn. lia. Qed.

Lemma linear_row_length W b o i (r : list R) :
  shape W = [o; i] → shape b = [o] → wf_tensor b →
  length (linear_row W b r) = o.
Proof.
  intros HW Hb Hwb. unfold linear_row. rewrite HW.
  rewrite length_zip_with, length_chunk.
  unfold wf_tensor in Hwb. rewrite Hb, numel_singleton in Hwb. lia.
Qed.

Lemma F_linear_rows W b o i rows :
  shape W = [o; i] → shape b = [o] →
  Forall (λ r, length r = i) rows →
  F_linear W b (mkTensor [length rows; i] (concat rows))
  = Some (mkTensor [length rows; o] (concat (map (linear_row W b) rows))).
Proof.
  intros HW Hb Hrows. unfold F_linear. rewrite HW. cbn [shape rev app data].
  rewrite decide_True by done.
  by rewrite numel_singleton, chunk_concat.
Qed.

Lemma is_param_data h l s :
  is_param h l s → ∃ d, param_data h l = Some d ∧ shape d = s ∧ wf_tensor d.
Proof.
  intros (d & g & Hl & Hs & Hw). exists d. unfold param_data. by rewrite Hl.
Qed.

Lemma Sequential_rows h layers : ∀ din dout rows,
  Forall (wf_layer h) layers →
  out_dim din (layer_sig <$> layers) = Some dout →
  Forall (λ r, length r = din) rows →
  Sequential h layers (mkTensor [length rows; din] (concat rows))
  = Some (mkTensor [length rows; dout]
            (concat (map (λ r, foldl (λ r ly, layer_row h ly r) r layers) rows)))
  ∧ Forall (λ r, length r = dout)
      (map (λ r, foldl (λ r ly, layer_row h ly r) r layers) rows).
Proof.
  induction layers as [|ly layers IH]; intros din dout rows Hwf Hdim Hrows.
  - cbn in Hdim. injection Hdim as <-. cbn [Sequential foldl].
    by rewrite map_id.
  - apply Forall_cons in Hwf as [Hly Hwf].
    destruct ly as [i o lw lb|]; cbn [fmap list_fmap layer_sig out_dim] in Hdim.
    + destruct (decide (i = din)) as [->|]; [|done].
      destruct Hly as [HW Hb].
      apply is_param_data in HW as (W & HW & HsW & _).
      apply is_param_data in Hb as (b & Hb & Hsb & Hwb).
      cbn [Sequential apply_layer]. rewrite HW, Hb. cbn [mbind option_bind].
      rewrite (F_linear_rows W b o din) by done. cbn [mbind option_bind].
      assert (Hrows' : Forall (λ r, length r = o) (map (linear_row W b) rows)).
      { apply Forall_fmap, Forall_forall. intros r _. cbn.
        by apply (linear_row_length W b o din). }
      destruct (IH o dout (map (linear_row W b) rows) Hwf Hdim Hrows') as [E F].
      rewrite length_map in E. rewrite E, map_map in *.
      cbn [foldl layer_row]. rewrite HW, Hb. done.
    + cbn [Sequential apply_layer mbind option_bind].
      assert (Hrows' : Forall (λ r, length r = din) (map (map relu) rows)).
      { apply Forall_fmap. eapply Forall_impl; [done|].
        intros r Hr. cbn. by rewrite length_map. }
      destruct (IH din dout (map (map relu) rows) Hwf Hdim Hrows') as [E F].
      unfold F_relu. cbn [shape data]. rewrite concat_map.
      rewrite length_map in E. rewrite E, map_map in *. done.
Qed.

Lemma arch_out_dim h m :
  arch h m → out_dim 784 (layer_sig <$> linear_relu_stack m) = Some 10.
Proof. intros (-> & _). reflexivity. Qed.

Lemma forward_rows h m x n d s :
  arch h m → shape x = n :: d :: s → numel (d :: s) = 784 → wf_tensor x →
  forward h m x
  = Some (mkTensor [n; 10] (concat (map (logits h m) (chunk 784 n (data x)))))
  ∧ Forall (λ r, length r = 10) (map (logits h m) (chunk 784 n (data x))).
Proof.
  intros Ha Hs Hn Hw.
  assert (Hlen : length (data x) = n * 784).
  { unfold wf_tensor in Hw. by rewrite Hw, Hs, numel_cons, Hn. }
  pose proof (arch_out_dim h m Ha) as Hdim.
  destruct Ha as (_ & Hly & _).
  assert (Hrows : Forall (λ r, length r = 784) (chunk 784 n (data x))).
  { apply Forall_chunk_length. lia. }
  destruct (Sequential_rows h _ _ _ _ Hly Hdim Hrows) as [E F].
  rewrite length_chunk, concat_chunk, take_ge in E by lia.
  split; [|done].
  unfold forward, Flatten. rewrite Hs, Hn. cbn [mbind option_bind data].
  by rewrite E.
Qed.

End Forward.

Section Init.
Context {R : Type} `{Torch R}.
Implicit Types (h : gmap loc (Obj R)) (w : World R) (m : NeuralNetwork).

Lemma is_param_mono h h' l s : h ⊆ h' → is_param h l s → is_param h' l s.
Proof.
  intros Hsub (d & g & Hl & Hd). exists d, g. split; [|done].
  by eapply lookup_weaken.
Qed.

Lemma fresh_lookup h : h !! fresh (dom h) = None.
Proof. apply not_elem_of_dom, is_fresh. Qed.

(** What [nn.Linear(i, o)] allocates. *)
Lemma nn_Linear_spec i o w :
  ∃ lw lb W b w',
    nn_Linear i o w = Some (Linear i o lw lb, w')
    ∧ heap w ⊆ heap w'
    ∧ dom (heap w') = {[lw; lb]} ∪ dom (heap w)
    ∧ (lw ∉ dom (heap w)) ∧ (lb ∉ dom (heap w)) ∧ lw ≠ lb
    ∧ heap w' !! lw = Some (OParameter W None)
    ∧ heap w' !! lb = Some (OParameter b None)
    ∧ shape W = [o; i] ∧ wf_tensor W ∧ shape b = [o] ∧ wf_tensor b
    ∧ files w' = files w ∧ stdout w' = stdout w ∧ trace w' = trace w.
Proof.
  set (W := mkTensor [o; i] (map rand (seq (rng w) (o * i)))).
  set (b := mkTensor [o] (map rand (seq (rng w + o * i) o))).
  set (lw := fresh (dom (heap w))).
  set (h1 := <[lw := OParameter W None]> (heap w)).
  set (lb := fresh (dom h1)).
  assert (Hlw : heap w !! lw = None) by apply fresh_lookup.
  assert (Hlb : h1 !! lb = None) by apply fresh_lookup.
  assert (Hne : lw ≠ lb).
  { intros E. rewrite <- E in Hlb. unfold h1 in Hlb.
    by rewrite lookup_insert_eq in Hlb. }
  assert (Hlb0 : heap w !! lb = None).
  { unfold h1 in Hlb. by rewrite lookup_insert_ne in Hlb. }
  exists lw, lb, W, b,
    (mkWorld (<[lb := OParameter b None]> h1) (files w) (rng w + o * i + o)
       (stdout w) (trace w)).
  split; [reflexivity|]. cbn [heap files stdout trace].
  split. { etrans; [apply (insert_subseteq _ lw); exact Hlw|].
           by apply insert_subseteq. }
  split. { unfold h1. rewrite !dom_insert_L. set_solver. }
  split. { by apply not_elem_of_dom. }
  split. { by apply not_elem_of_dom. }
  split; [done|].
  split. { unfold h1. rewrite lookup_insert_ne by done. apply lookup_insert_eq. }
  split. { apply lookup_insert_eq. }
  split; [done|].
  split. { unfold wf_tensor, W. cbn [data shape].
           rewrite length_map, length_seq, !numel_cons. cbn [numel foldr]. lia. }
  split; [done|].
  split. { unfold wf_tensor, b. cbn [data shape].
           rewrite length_map, length_seq, numel_singleton. done. }
  done.
Qed.


Lemma alloc_spec (o : Obj R) w :
  ∃ l w', alloc o w = Some (l, w')
    ∧ heap w !! l = None
    ∧ heap w' = <[l := o]> (heap w)
    ∧ files w' = files w ∧ stdout w' = stdout w ∧ trace w' = trace w.
Proof.
  eexists _, _. split; [reflexivity|]. cbn [heap files stdout trace].
  split; [apply fresh_lookup|done].
Qed.

Lemma fresh_chain (D0 D1 D2 D3 D4 : gset loc) (a0 b0 a2 b2 a4 b4 a6 b6 s : loc) :
  D1 = {[a0; b0]} ∪ D0 → D2 = {[a2; b2]} ∪ D1 →
  D3 = {[a4; b4]} ∪ D2 → D4 = {[a6; b6]} ∪ D3 →
  a0 ∉ D0 → b0 ∉ D0 → a0 ≠ b0 →
  a2 ∉ D1 → b2 ∉ D1 → a2 ≠ b2 →
  a4 ∉ D2 → b4 ∉ D2 → a4 ≠ b4 →
  a6 ∉ D3 → b6 ∉ D3 → a6 ≠ b6 →
  s ∉ D4 →
  NoDup [a0; b0; a2; b2; a4; b4; a6; b6]
  ∧ (∀ l, l ∈ [a0; b0; a2; b2; a4; b4; a6; b6] → l ∉ D0)
  ∧ s ∉ D0.
Proof.
  intros -> -> -> ->. intros. split; [|split].
  - repeat (apply NoDup_cons_2; [set_solver|]). apply NoDup_nil_2.
  - set_solver.
  - set_solver.
Qed.

Lemma is_param_intro h l (d : Tensor R) g s :
  h !! l = Some (OParameter d g) → shape d = s → wf_tensor d → is_param h l s.
Proof. intros ???. by exists d, g. Qed.

(** What [NeuralNetwork()] builds, and that it leaves every object
    that existed before untouched. *)
Lemma NeuralNetwork_init_spec w :
  ∃ m w',
    NeuralNetwork_init w = Some (m, w')
    ∧ arch (heap w') m
    ∧ grads_cleared (heap w') (parameters m)
    ∧ heap w ⊆ heap w'
    ∧ (∀ l, l ∈ parameters m → heap w !! l = None)
    ∧ heap w !! self m = None
    ∧ files w' = files w ∧ stdout w' = stdout w ∧ trace w' = trace w.
Proof.
  destruct (nn_Linear_spec (28 * 28) 1024 w)
    as (w0 & b0 & W0 & B0 & w1 & E1 & S1 & D1 & Fw0 & Fb0 & N0 & Lw0 & Lb0
        & sW0 & wW0 & sB0 & wB0 & F1 & O1 & T1).
  destruct (nn_Linear_spec 1024 1024 w1)
    as (w2 & b2 & W2 & B2 & w2' & E2 & S2 & D2 & Fw2 & Fb2 & N2 & Lw2 & Lb2
        & sW2 & wW2 & sB2 & wB2 & F2 & O2 & T2).
  destruct (nn_Linear_spec 1024 512 w2')
    as (w4 & b4 & W4 & B4 & w3' & E3 & S3 & D3 & Fw4 & Fb4 & N4 & Lw4 & Lb4
        & sW4 & wW4 & sB4 & wB4 & F3 & O3 & T3).
  destruct (nn_Linear_spec 512 10 w3')
    as (w6 & b6 & W6 & B6 & w4' & E4 & S4 & D4 & Fw6 & Fb6 & N6 & Lw6 & Lb6
        & sW6 & wW6 & sB6 & wB6 & F4 & O4 & T4).
  destruct (alloc_spec (OModule true) w4')
    as (s & w5 & E5 & Fs & H5 & F5 & O5 & T5).
  assert (S45 : heap w4' ⊆ heap w5).
  { rewrite H5. apply insert_subseteq. exact Fs. }
  assert (S35 : heap w3' ⊆ heap w5) by (etrans; [exact S4|exact S45]).
  assert (S25 : heap w2' ⊆ heap w5) by (etrans; [exact S3|exact S35]).
  assert (S15 : heap w1 ⊆ heap w5) by (etrans; [exact S2|exact S25]).
  assert (S05 : heap w ⊆ heap w5) by (etrans; [exact S1|exact S15]).
  pose proof (lookup_weaken _ _ _ _ Lw0 S15) as Pw0.
  pose proof (lookup_weaken _ _ _ _ Lb0 S15) as Pb0.
  pose proof (lookup_weaken _ _ _ _ Lw2 S25) as Pw2.
  pose proof (lookup_weaken _ _ _ _ Lb2 S25) as Pb2.
  pose proof (lookup_weaken _ _ _ _ Lw4 S35) as Pw4.
  pose proof (lookup_weaken _ _ _ _ Lb4 S35) as Pb4.
  pose proof (lookup_weaken _ _ _ _ Lw6 S45) as Pw6.
  pose proof (lookup_weaken _ _ _ _ Lb6 S45) as Pb6.
  apply not_elem_of_dom in Fs.
  destruct (fresh_chain _ _ _ _ _ _ _ _ _ _ _ _ _ _ D1 D2 D3 D4
              Fw0 Fb0 N0 Fw2 Fb2 N2 Fw4 Fb4 N4 Fw6 Fb6 N6 Fs)
    as (Hnd & Hfresh & Hs).
  exists (mkNN s [Linear (28 * 28) 1024 w0 b0; ReLU; Linear 1024 1024 w2 b2; ReLU;
                  Linear 1024 512 w4 b4; ReLU; Linear 512 10 w6 b6]), w5.
  split.
  { unfold NeuralNetwork_init, bind. rewrite E1, E2, E3, E4, E5. reflexivity. }
  split.
  { split; [reflexivity|]. split; [|split].
    - repeat apply Forall_cons_2; try apply Forall_nil_2; try exact I.
      + split; [exact (is_param_intro _ _ _ _ _ Pw0 sW0 wW0)
               |exact (is_param_intro _ _ _ _ _ Pb0 sB0 wB0)].
      + split; [exact (is_param_intro _ _ _ _ _ Pw2 sW2 wW2)
               |exact (is_param_intro _ _ _ _ _ Pb2 sB2 wB2)].
      + split; [exact (is_param_intro _ _ _ _ _ Pw4 sW4 wW4)
               |exact (is_param_intro _ _ _ _ _ Pb4 sB4 wB4)].
      + split; [exact (is_param_intro _ _ _ _ _ Pw6 sW6 wW6)
               |exact (is_param_intro _ _ _ _ _ Pb6 sB6 wB6)].
    - exact Hnd.
    - exists true. rewrite H5. apply lookup_insert_eq. }
  split.
  { intros l Hl. change (parameters _) with [w0; b0; w2; b2; w4; b4; w6; b6] in Hl.
    clear -Hl Pw0 Pb0 Pw2 Pb2 Pw4 Pb4 Pw6 Pb6.
    repeat (apply elem_of_cons in Hl as [->|Hl]; [eexists; eassumption|]).
    by apply elem_of_nil in Hl. }
  split; [exact S05|].
  split.
  { intros l Hl. apply not_elem_of_dom. by apply Hfresh. }
  split.
  { by apply not_elem_of_dom. }
  split; [congruence|]. split; congruence.
Qed.

End Init.

Section Train.
Context {R : Type} `{Torch R}.
Implicit Types (h : gmap loc (Obj R)) (w : World R) (m : NeuralNetwork).

Lemma for_params_spec f ls : ∀ h,
  NoDup ls →
  (∀ l, l ∈ ls → ∃ d g, h !! l = Some (OParameter d g)) →
  ∃ h', for_params f ls h = Some h' ∧ ∀ l, h' !! l = upd f ls h l.
Proof.
  induction ls as [|l0 ls IH]; intros h Hnd Hps.
  - exists h. split; [done|]. intros l. unfold upd.
    destruct (h !! l) as [[]|]; try done;
      by rewrite decide_False by set_solver.
  - apply NoDup_cons in Hnd as [Hl0 Hnd].
    destruct (Hps l0 ltac:(set_solver)) as (d0 & g0 & E0).
    cbn [for_params]. rewrite E0.
    destruct (IH (<[l0 := OParameter (f l0 d0 g0).1 (f l0 d0 g0).2]> h) Hnd)
      as (h' & Eh' & Hh').
    { intros l Hl. rewrite lookup_insert_ne by set_solver.
      apply Hps. set_solver. }
    exists h'. split; [done|]. intros l. rewrite Hh'. unfold upd.
    destruct (decide (l = l0)) as [->|Hne].
    + rewrite lookup_insert_eq, E0.
      rewrite decide_False by done. rewrite decide_True by set_solver. done.
    + rewrite lookup_insert_ne by done.
      destruct (h !! l) as [[]|]; try done.
      destruct (decide (l ∈ ls)).
      * by rewrite decide_True by set_solver.
      * by rewrite decide_False by set_solver.
Qed.



Lemma collate_forward h m (b : list (Sample R)) :
  arch h m → Forall wf_sample b →
  forward h m (collate b).1
  = Some (mkTensor [length b; 10] (concat (map (λ s, logits h m s.1) b)))
  ∧ Forall (λ r, length r = 10) (map (λ s : Sample R, logits h m s.1) b).
Proof.
  intros Ha Hb.
  assert (Hpx : Forall (λ r, length r = 784) (map fst b)).
  { apply Forall_fmap. eapply Forall_impl; [done|]. by intros s [? _]. }
  destruct (forward_rows h m (collate b).1 (length b) 1 [28; 28]) as [E F];
    [done|done|reflexivity| |].
  { unfold wf_tensor. cbn [collate fst data shape].
    rewrite (length_concat_const 784) by done.
    rewrite length_map, numel_cons. f_equal. }
  assert (Hc : chunk 784 (length b) (concat (map fst b)) = map fst b).
  { rewrite <- (length_map fst b) at 1. by apply chunk_concat. }
  change (data (collate b).1) with (concat (map fst b)) in E, F.
  rewrite Hc, map_map in E, F. done.
Qed.

Lemma CrossEntropyLoss_ok (b : list (Sample R)) (d : list R) :
  Forall wf_sample b →
  nn_CrossEntropyLoss (mkTensor [length b; 10] d) (map snd b)
  = Some (CrossEntropyLoss (mkTensor [length b; 10] d) (map snd b)).
Proof.
  intros Hb. unfold nn_CrossEntropyLoss. cbn [shape].
  rewrite decide_True; [done|]. split; [by rewrite length_map|].
  apply Forall_fmap. eapply Forall_impl; [done|]. by intros s [_ ?].
Qed.

Lemma sgd_heap_lookup lr f ps h l :
  sgd_heap lr f ps h !! l
  = match h !! l with
    | Some (OParameter d g) =>
        if decide (l ∈ ps)
        then Some (OParameter (sgd_update lr d (gradient f h l d)) None)
        else Some (OParameter d g)
    | o => o
    end.
Proof.
  unfold sgd_heap. rewrite map_lookup_imap.
  destruct (h !! l) as [[d g| |]|]; cbn; try done. by case_decide.
Qed.

Lemma sgd_update_wf lr f h l (d : Tensor R) :
  wf_tensor d → wf_tensor (sgd_update lr d (gradient f h l d)).
Proof.
  unfold wf_tensor, sgd_update, gradient. cbn [data shape]. intros <-.
  rewrite length_zip_with, length_map, length_seq. lia.
Qed.

Lemma is_param_sgd_heap lr f ps h l s :
  is_param h l s → is_param (sgd_heap lr f ps h) l s.
Proof.
  intros (d & g & Hl & Hs & Hw). unfold is_param.
  rewrite sgd_heap_lookup, Hl. case_decide; [|by eauto].
  eexists _, _. split; [done|]. split; [done|]. by apply sgd_update_wf.
Qed.

Lemma train_inv_sgd_heap f h m opt :
  train_inv h m opt → train_inv (sgd_heap c1e_3 f (parameters m) h) m opt.
Proof.
  intros ((Hsig & Hly & Hnd & b & Hself) & Hopt & Hg).
  split; [split; [done|split; [|split; [done|]]]|split].
  - eapply Forall_impl; [done|]. intros [i o lw lb|]; [|done].
    intros [? ?]. split; by apply is_param_sgd_heap.
  - exists b. by rewrite sgd_heap_lookup, Hself.
  - by rewrite sgd_heap_lookup, Hopt.
  - intros l Hl. destruct (Hg l Hl) as (d & Hd).
    rewrite sgd_heap_lookup, Hd, decide_True by done. eauto.
Qed.

(** One iteration of the loop of [train]. *)
Lemma train_batch_spec m opt size i (b : list (Sample R)) w :
  train_inv (heap w) m opt → Forall wf_sample b →
  ∃ w', train_batch m nn_CrossEntropyLoss opt size i (collate b) w = Some (tt, w')
    ∧ heap w' = sgd_heap c1e_3
                  (batch_loss m nn_CrossEntropyLoss (collate b).1 (collate b).2)
                  (parameters m) (heap w)
    ∧ trace w' = trace w ++ [EvBatch i; EvStep c1e_3]
    ∧ files w' = files w ∧ rng w' = rng w.
Proof.
  intros Hinv Hb. pose proof Hinv as ((Hsig & Hly & Hnd & Hself) & Hopt & Hg).
  destruct (collate_forward (heap w) m b) as [Efw _]; [by destruct Hinv|done|].
  set (f := batch_loss m nn_CrossEntropyLoss (collate b).1 (collate b).2).
  unfold train_batch. unfold collate at 1. mred.
  change (mkTensor [length b; 1; 28; 28] (concat (map fst b))) with (collate b).1.
  rewrite Efw. mred. rewrite CrossEntropyLoss_ok by done. mred.
  unfold backward. mred.
  change (batch_loss m nn_CrossEntropyLoss (collate b).1 (map snd b)) with f.
  match goal with |- context [for_params ?F ?ps ?h0] =>
    destruct (for_params_spec F ps h0) as (h1 & E1 & L1); [done| |] end.
  { intros l Hl. destruct (Hg l Hl) as (d & Hd). eauto. }
  rewrite E1. mred. unfold optimizer_step. mred.
  assert (Hopt1 : h1 !! opt = Some (OOptimizer c1e_3 (parameters m))).
  { rewrite L1. unfold upd. by rewrite Hopt. }
  rewrite Hopt1. mred.
  match goal with |- context [for_params ?F ?ps ?h0] =>
    destruct (for_params_spec F ps h0) as (h2 & E2 & L2); [done| |] end.
  { intros l Hl. destruct (Hg l Hl) as (d & Hd). rewrite L1. unfold upd.
    rewrite Hd, decide_True by done. eauto. }
  rewrite E2. mred. unfold optimizer_zero_grad. mred.
  assert (Hopt2 : h2 !! opt = Some (OOptimizer c1e_3 (parameters m))).
  { rewrite L2. unfold upd. by rewrite Hopt1. }
  rewrite Hopt2. mred.
  match goal with |- context [for_params ?F ?ps ?h0] =>
    destruct (for_params_spec F ps h0) as (h3 & E3 & L3); [done| |] end.
  { intros l Hl. destruct (Hg l Hl) as (d & Hd). rewrite L2. unfold upd.
    rewrite L1. unfold upd. rewrite Hd, !decide_True by done. eauto. }
  rewrite E3. mred.
  assert (Hh3 : h3 = sgd_heap c1e_3 f (parameters m) (heap w)).
  { apply map_eq. intros l. rewrite L3, sgd_heap_lookup. unfold upd.
    rewrite L2. unfold upd. rewrite L1. unfold upd.
    destruct (heap w !! l) as [[d g| |]|] eqn:El; try done.
    destruct (decide (l ∈ parameters m)) as [Hin|Hout]; [|done].
    destruct (Hg l Hin) as (d' & Hd'). rewrite El in Hd'.
    injection Hd' as -> ->. done. }
  case_decide; mred; eexists; (split; [reflexivity|]);
    cbn [heap files rng stdout trace]; rewrite <- app_assoc; done.
Qed.

End Train.

Section Loops.
Context {R : Type} `{Torch R}.
Implicit Types (h : gmap loc (Obj R)) (w : World R) (m : NeuralNetwork).

Lemma Forall_batches {A} (P : A → Prop) bs (l : list A) :
  Forall P l → Forall (Forall P) (batches bs l).
Proof.
  intros Hl. unfold batches, chunk. apply Forall_fmap, Forall_forall.
  intros i _. cbn. by apply Forall_take, Forall_drop.
Qed.

Lemma set_training_spec m flag w :
  (∃ b, heap w !! self m = Some (OModule b)) →
  set_training m flag w
  = Some (tt, mkWorld (<[self m := OModule flag]> (heap w)) (files w) (rng w)
                (stdout w) (trace w)).
Proof. intros [b Hb]. unfold set_training. mred. by rewrite Hb. Qed.

Lemma lookup_set_training h s (b b' : bool) l :
  h !! s = Some (OModule b) →
  <[s := OModule b']> h !! l
  = match h !! l with Some (OModule _) => (if decide (l = s) then Some (OModule b') else h !! l) | o => o end.
Proof.
  intros Hs. destruct (decide (l = s)) as [->|Hne].
  - by rewrite lookup_insert_eq, Hs.
  - rewrite lookup_insert_ne by done. by destruct (h !! l) as [[]|].
Qed.

Lemma param_data_set_training h s (b b' : bool) l :
  h !! s = Some (OModule b) →
  param_data (<[s := OModule b']> h) l = param_data h l.
Proof.
  intros Hs. unfold param_data. rewrite (lookup_set_training h s b b' l Hs).
  destruct (h !! l) as [[]|]; try done. by case_decide.
Qed.

Lemma is_param_set_training h s (b b' : bool) l sh :
  h !! s = Some (OModule b) →
  is_param h l sh → is_param (<[s := OModule b']> h) l sh.
Proof.
  intros Hs (d & g & Hl & Hd). exists d, g. split; [|done].
  rewrite lookup_insert_ne; [done|]. intros ->. congruence.
Qed.

Lemma arch_set_training h m flag :
  arch h m → arch (<[self m := OModule flag]> h) m.
Proof.
  intros (Hsig & Hly & Hnd & b & Hself).
  split; [done|]. split; [|split; [done|]].
  - eapply Forall_impl; [done|]. intros [i o lw lb|]; [|done].
    intros [? ?]. split; by eapply is_param_set_training.
  - exists flag. apply lookup_insert_eq.
Qed.

Lemma train_inv_set_training h m opt flag :
  train_inv h m opt → train_inv (<[self m := OModule flag]> h) m opt.
Proof.
  intros (Ha & Hopt & Hg). pose proof Ha as (_ & _ & _ & b & Hself).
  split; [by apply arch_set_training|]. split.
  - rewrite lookup_insert_ne; [done|]. intros E. congruence.
  - intros l Hl. destruct (Hg l Hl) as (d & Hd). exists d.
    rewrite lookup_insert_ne; [done|]. intros E. congruence.
Qed.

Lemma logits_set_training h m (b b' : bool) s x :
  h !! s = Some (OModule b) →
  logits (<[s := OModule b']> h) m x = logits h m x.
Proof.
  intros Hs. unfold logits. revert x.
  induction (linear_relu_stack m) as [|ly lys IH]; intros x; [done|].
  cbn [foldl]. rewrite IH. f_equal.
  destruct ly; [|done]. cbn [layer_row].
  by rewrite !(param_data_set_training h s b b').
Qed.

(** The trace of the iterations [i], [i+1], ... *)
Lemma train_loop_spec m opt size (bs : list (list (Sample R))) : ∀ i w,
  train_inv (heap w) m opt → Forall (Forall wf_sample) bs →
  ∃ w', for_each (train_batch m nn_CrossEntropyLoss opt size) i (map collate bs) w
        = Some (tt, w')
    ∧ heap w' = foldl (λ h (Xy : Tensor R * list nat),
                    sgd_heap c1e_3 (batch_loss m nn_CrossEntropyLoss Xy.1 Xy.2)
                      (parameters m) h) (heap w) (map collate bs)
    ∧ trace w' = trace w ++ flat_map (λ j, [EvBatch j; EvStep c1e_3])
                              (seq i (length bs))
    ∧ files w' = files w ∧ rng w' = rng w
    ∧ train_inv (heap w') m opt.
Proof.
  induction bs as [|b bs IH]; intros i w Hinv Hbs.
  - exists w. cbn. by rewrite app_nil_r.
  - apply Forall_cons in Hbs as [Hb Hbs].
    destruct (train_batch_spec m opt size i b w Hinv Hb)
      as (w1 & E1 & Hh1 & Ht1 & Hf1 & Hr1).
    assert (Hinv1 : train_inv (heap w1) m opt).
    { rewrite Hh1. by apply train_inv_sgd_heap. }
    destruct (IH (S i) w1 Hinv1 Hbs) as (w' & E' & Hh' & Ht' & Hf' & Hr' & Hinv').
    exists w'. cbn [map for_each]. unfold bind at 1. rewrite E1, E'.
    split; [done|]. cbn [foldl length seq flat_map].
    split; [by rewrite Hh', Hh1|]. split; [by rewrite Ht', Ht1, <- app_assoc|].
    split; [congruence|]. split; [congruence|done].
Qed.

(** A whole call of [train]. *)
Lemma train_spec (dl : DataLoader R) m opt w :
  train_inv (heap w) m opt → Forall wf_sample (dataset dl) →
  ∃ w', train dl m nn_CrossEntropyLoss opt w = Some (tt, w')
    ∧ heap w' = foldl (λ h (Xy : Tensor R * list nat),
                    sgd_heap c1e_3 (batch_loss m nn_CrossEntropyLoss Xy.1 Xy.2)
                      (parameters m) h)
                  (<[self m := OModule true]> (heap w)) (loader_iter dl)
    ∧ trace w' = trace w ++ train_trace (loader_len dl)
    ∧ files w' = files w ∧ rng w' = rng w
    ∧ train_inv (heap w') m opt.
Proof.
  intros Hinv Hds. pose proof Hinv as ((_ & _ & _ & Hself) & _).
  unfold train. unfold bind at 1. rewrite set_training_spec by done.
  set (w1 := mkWorld _ _ _ _ _).
  destruct (train_loop_spec m opt (length (dataset dl))
              (batches (batch_size dl) (dataset dl)) 0 w1)
    as (w' & E' & Hh' & Ht' & Hf' & Hr' & Hinv').
  { by apply train_inv_set_training. }
  { by apply Forall_batches. }
  exists w'. split; [exact E'|].
  rewrite length_batches in Ht'. done.
Qed.

End Loops.

Section Test.
Context {R : Type} `{Torch R}.
Implicit Types (h : gmap loc (Obj R)) (w : World R) (m : NeuralNetwork).

Lemma argmax_is_Some (r : list R) : 0 < length r → is_Some (argmax r).
Proof. destruct r; cbn; [lia|eauto]. Qed.

Lemma argmax_from_bound (r : list R) : ∀ best bi i,
  bi < i → argmax_from best bi i r < i + length r.
Proof.
  induction r as [|x r IH]; intros best bi i Hi; cbn [argmax_from length].
  - lia.
  - destruct (gtb x best).
    + specialize (IH x i (S i)). lia.
    + specialize (IH best bi (S i)). lia.
Qed.

Lemma argmax_bound (r : list R) k : argmax r = Some k → k < length r.
Proof.
  destruct r as [|x r]; [done|]. cbn [argmax length]. intros [= <-].
  pose proof (argmax_from_bound r x 0 1). lia.
Qed.

(** The per-row [argmax] of a batch and the number of hits. *)
Lemma argmax_rows_count (g : Sample R → list R) (b : list (Sample R)) :
  Forall (λ s, 0 < length (g s)) b →
  ∃ am, mapM argmax (map g b) = Some am
    ∧ count_eq am (map snd b)
      = length (filter (λ s : Sample R, argmax (g s) = Some s.2) b).
Proof.
  induction 1 as [|s b Hs _ (am & Eam & Hc)].
  - by exists [].
  - destruct (argmax_is_Some (g s) Hs) as [a Ea].
    exists (a :: am). cbn [map mapM]. rewrite Ea, Eam. split; [done|].
    unfold count_eq in *. cbn [zip zip_with map].
    rewrite !filter_cons. cbn [fst snd]. rewrite Ea.
    destruct (decide (a = s.2)) as [->|Hne].
    + rewrite decide_True by done. cbn [length]. by rewrite Hc.
    + rewrite decide_False by congruence. done.
Qed.

Lemma correct_count_app h m (b1 b2 : list (Sample R)) :
  correct_count h m (b1 ++ b2) = correct_count h m b1 + correct_count h m b2.
Proof. unfold correct_count. by rewrite filter_app, length_app. Qed.

(** One iteration of the loop of [test]. *)
Lemma test_batch_spec m (b : list (Sample R)) tl c w :
  arch (heap w) m → Forall wf_sample b →
  test_batch m nn_CrossEntropyLoss (tl, c) (collate b) w
  = Some ((add tl (batch_loss_value (heap w) m b),
           c + correct_count (heap w) m b), w).
Proof.
  intros Ha Hb.
  destruct (collate_forward (heap w) m b Ha Hb) as [Efw Hlen].
  unfold test_batch. unfold collate at 1. mred.
  change (mkTensor [length b; 1; 28; 28] (concat (map fst b))) with (collate b).1.
  rewrite Efw. mred. rewrite CrossEntropyLoss_ok by done. mred.
  unfold argmax_dim1. cbn [shape data].
  rewrite <- (length_map (λ s : Sample R, logits (heap w) m s.1) b) at 1.
  rewrite chunk_concat by done.
  destruct (argmax_rows_count (λ s, logits (heap w) m s.1) b) as (am & Eam & Hc).
  { apply Forall_fmap in Hlen. eapply Forall_impl; [done|]. cbn. lia. }
  rewrite Eam. mred. unfold correct_count, batch_loss_value. by rewrite Hc.
Qed.

Lemma test_loop_spec m (bs : list (list (Sample R))) : ∀ tl c w,
  arch (heap w) m → Forall (Forall wf_sample) bs →
  fold_loop (test_batch m nn_CrossEntropyLoss) (tl, c) (map collate bs) w
  = Some ((foldl add tl (map (batch_loss_value (heap w) m) bs),
           c + correct_count (heap w) m (concat bs)), w).
Proof.
  induction bs as [|b bs IH]; intros tl c w Ha Hbs.
  - cbn. unfold ret, correct_count. cbn. by rewrite Nat.add_0_r.
  - apply Forall_cons in Hbs as [Hb Hbs].
    cbn [map fold_loop]. unfold bind at 1. rewrite test_batch_spec by done.
    rewrite IH by done. cbn [map foldl concat].
    by rewrite correct_count_app, Nat.add_assoc.
Qed.

Lemma ceil_div_pos n k : 0 < n → 0 < k → 0 < ceil_div n k.
Proof. intros Hn Hk. pose proof (ceil_div_bound n k Hk). nia. Qed.

Lemma correct_count_set_training h m (b b' : bool) s (ds : list (Sample R)) :
  h !! s = Some (OModule b) →
  correct_count (<[s := OModule b']> h) m ds = correct_count h m ds.
Proof.
  intros Hs. unfold correct_count. f_equal. apply list_filter_iff.
  intros x. by rewrite (logits_set_training h m b b').
Qed.

Lemma batch_loss_value_set_training h m (b b' : bool) s (ds : list (Sample R)) :
  h !! s = Some (OModule b) →
  batch_loss_value (<[s := OModule b']> h) m ds = batch_loss_value h m ds.
Proof.
  intros Hs. unfold batch_loss_value. do 3 f_equal.
  apply map_ext. intros x. by rewrite (logits_set_training h m b b').
Qed.

(** A whole call of [test]: the model only changes its mode, and one
    line is printed. *)
Lemma test_spec (dl : DataLoader R) m w :
  arch (heap w) m → Forall wf_sample (dataset dl) →
  dataset dl ≠ [] → 0 < batch_size dl →
  test dl m nn_CrossEntropyLoss w
  = Some (tt, mkWorld (<[self m := OModule false]> (heap w)) (files w) (rng w)
      (stdout w ++
         [OutTestError
            (mul (of_nat 100)
               (div (of_nat (correct_count (heap w) m (dataset dl)))
                  (of_nat (length (dataset dl)))))
            (div (foldl add zero
                    (map (batch_loss_value (heap w) m)
                       (batches (batch_size dl) (dataset dl))))
               (of_nat (loader_len dl)))])
      (trace w ++ [EvTest])).
Proof.
  intros Ha Hds Hne Hbs. pose proof Ha as (_ & _ & _ & b0 & Hself).
  assert (Hlen : 0 < length (dataset dl)).
  { destruct (dataset dl); [done|cbn; lia]. }
  unfold test. mred. rewrite set_training_spec by (cbn; eauto). mred.
  unfold loader_iter. rewrite test_loop_spec; cbn [heap].
  2: { by apply arch_set_training. }
  2: { by apply Forall_batches. }
  rewrite concat_batches by done. cbn [Nat.add].
  unfold py_div. rewrite decide_False.
  2: { unfold loader_len.
       pose proof (ceil_div_pos (length (dataset dl)) (batch_size dl)). lia. }
  mred. rewrite decide_False by lia. mred.
  rewrite (correct_count_set_training _ _ b0) by done.
  rewrite (map_ext (batch_loss_value (<[self m := OModule false]> (heap w)) m)
             (batch_loss_value (heap w) m)); [done|].
  intros b. by apply (batch_loss_value_set_training _ _ b0).
Qed.

End Test.

Section Epochs.
Context {R : Type} `{Torch R}.
Implicit Types (h : gmap loc (Obj R)) (w : World R) (m : NeuralNetwork).

(** One pass of the epoch loop: [print], [train], [test]. *)
Lemma epoch_spec (tr te : DataLoader R) m opt t w :
  train_inv (heap w) m opt →
  Forall wf_sample (dataset tr) → Forall wf_sample (dataset te) →
  dataset te ≠ [] → 0 < batch_size te →
  ∃ w', epoch tr te m nn_CrossEntropyLoss opt t w = Some (tt, w')
    ∧ heap w' = epoch_heap m tr (heap w)
    ∧ trace w' = trace w ++ epoch_trace (loader_len tr)
    ∧ files w' = files w ∧ rng w' = rng w
    ∧ train_inv (heap w') m opt.
Proof.
  intros Hinv Htr Hte Hne Hbs.
  set (w0 := mkWorld (heap w) (files w) (rng w) (stdout w ++ [OutEpoch (t + 1)])
               (trace w)).
  destruct (train_spec tr m opt w0 Hinv Htr)
    as (w1 & E1 & Hh1 & Ht1 & Hf1 & Hr1 & Hinv1).
  pose proof Hinv1 as (Ha1 & _).
  eexists. split.
  { unfold epoch. unfold bind at 1. unfold print at 1. fold w0. cbv beta iota.
    unfold bind at 1. rewrite E1. by apply test_spec. }
  cbn [heap files rng stdout trace].
  split; [by rewrite Hh1|]. split.
  { rewrite Ht1. unfold epoch_trace. by rewrite <- app_assoc. }
  split; [done|]. split; [done|].
  by apply train_inv_set_training.
Qed.

Lemma epochs_loop_spec (tr te : DataLoader R) m opt n : ∀ t w,
  train_inv (heap w) m opt →
  Forall wf_sample (dataset tr) → Forall wf_sample (dataset te) →
  dataset te ≠ [] → 0 < batch_size te →
  ∃ w', for_each (λ t (_ : nat), epoch tr te m nn_CrossEntropyLoss opt t)
          t (seq t n) w = Some (tt, w')
    ∧ heap w' = Nat.iter n (epoch_heap m tr) (heap w)
    ∧ trace w' = trace w ++ concat (replicate n (epoch_trace (loader_len tr)))
    ∧ files w' = files w ∧ rng w' = rng w
    ∧ train_inv (heap w') m opt.
Proof.
  induction n as [|n IH]; intros t w Hinv Htr Hte Hne Hbs.
  - exists w. cbn. by rewrite app_nil_r.
  - destruct (epoch_spec tr te m opt t w Hinv Htr Hte Hne Hbs)
      as (w1 & E1 & Hh1 & Ht1 & Hf1 & Hr1 & Hinv1).
    destruct (IH (S t) w1 Hinv1 Htr Hte Hne Hbs)
      as (w' & E' & Hh' & Ht' & Hf' & Hr' & Hinv').
    exists w'. cbn [seq for_each]. unfold bind at 1. rewrite E1.
    split; [exact E'|].
    split; [by rewrite Hh', Hh1, Nat.iter_succ_r|].
    split; [by rewrite Ht', Ht1, <- app_assoc|].
    split; [congruence|]. split; [congruence|done].
Qed.

(** The cell with the epoch loop. *)
Lemma epochs_cell_spec (tr te : DataLoader R) m opt w :
  train_inv (heap w) m opt →
  Forall wf_sample (dataset tr) → Forall wf_sample (dataset te) →
  dataset te ≠ [] → 0 < batch_size te →
  ∃ w', epochs_cell tr te m nn_CrossEntropyLoss opt w = Some (tt, w')
    ∧ heap w' = Nat.iter 20 (epoch_heap m tr) (heap w)
    ∧ trace w' = trace w ++ concat (replicate 20 (epoch_trace (loader_len tr)))
    ∧ files w' = files w ∧ rng w' = rng w
    ∧ train_inv (heap w') m opt.
Proof.
  intros Hinv Htr Hte Hne Hbs.
  destruct (epochs_loop_spec tr te m opt 20 0 w Hinv Htr Hte Hne Hbs)
    as (w' & E' & Hh' & Ht' & Hf' & Hr' & Hinv').
  eexists. split.
  { unfold epochs_cell, epochs. unfold bind at 1. rewrite E'. reflexivity. }
  cbn [heap files rng stdout trace]. done.
Qed.

End Epochs.

Section Persist.
Context {R : Type} `{Torch R}.
Implicit Types (h : gmap loc (Obj R)) (w : World R) (m : NeuralNetwork).

Lemma arch_stack h m :
  arch h m →
  ∃ a0 b0 a2 b2 a4 b4 a6 b6,
    linear_relu_stack m = stack_of a0 b0 a2 b2 a4 b4 a6 b6.
Proof.
  intros (Hsig & _). destruct (linear_relu_stack m) as [|l0 [|l1 [|l2 [|l3 [|l4 [|l5 [|l6 [|l7 ?]]]]]]]];
    try discriminate Hsig.
  destruct l0 as [i0 o0 a0 b0|]; [|discriminate Hsig].
  destruct l1 as [|]; [discriminate Hsig|].
  destruct l2 as [i2 o2 a2 b2|]; [|discriminate Hsig].
  destruct l3 as [|]; [discriminate Hsig|].
  destruct l4 as [i4 o4 a4 b4|]; [|discriminate Hsig].
  destruct l5 as [|]; [discriminate Hsig|].
  destruct l6 as [i6 o6 a6 b6|]; [|discriminate Hsig].
  cbn [fmap list_fmap layer_sig] in Hsig.
  injection Hsig as -> -> -> -> -> -> -> ->.
  by exists a0, b0, a2, b2, a4, b4, a6, b6.
Qed.

Lemma named_parameters_stack s a0 b0 a2 b2 a4 b4 a6 b6 :
  named_parameters (mkNN s (stack_of a0 b0 a2 b2 a4 b4 a6 b6))
  = zip names [a0; b0; a2; b2; a4; b4; a6; b6].
Proof. reflexivity. Qed.


Lemma NoDup_names : NoDup names.
Proof. apply (bool_decide_unpack _). vm_compute. exact I. Qed.

Lemma Forall2_impl_l {A B} (P Q : A → B → Prop) (S : A → Prop) l k :
  Forall S l → Forall2 P l k → (∀ x y, S x → P x y → Q x y) → Forall2 Q l k.
Proof.
  intros HS HP HPQ. induction HP as [|x y l k Hxy HP IH]; [constructor|].
  apply Forall_cons in HS as [Hx HS]. constructor; [by apply HPQ|by apply IH].
Qed.

Lemma Forall2_and {A B} (P Q : A → B → Prop) l k :
  Forall2 P l k → Forall2 Q l k → Forall2 (λ x y, P x y ∧ Q x y) l k.
Proof.
  intros HP. induction HP as [|x y l k Hxy HP IH]; intros HQ; [constructor|].
  apply Forall2_cons in HQ as [Hq HQ]. constructor; [done|by apply IH].
Qed.

(** The dictionary built from a list of distinct names. *)
Lemma list_to_map_zip_Forall2 (ns : list string) (ds : list (Tensor R)) :
  NoDup ns → length ns = length ds →
  Forall2 (λ n d, (list_to_map (zip ns ds) : gmap string (Tensor R)) !! n = Some d)
    ns ds.
Proof.
  intros Hnd. revert ds. induction Hnd as [|n ns Hn Hnd IH]; intros [|d ds] Hlen;
    try discriminate Hlen; [constructor|].
  cbn [zip zip_with list_to_map foldr]. constructor.
  - apply lookup_insert_eq.
  - eapply Forall2_impl_l with (S := λ n', n' ≠ n).
    + apply Forall_forall. intros n' Hn' ->. done.
    + apply IH. by injection Hlen.
    + intros n' d' Hne Hlk. by rewrite lookup_insert_ne.
Qed.

(** [state_dict] lists the data of the named parameters. *)
Lemma state_dict_mapM h (nps : list (string * loc)) :
  Forall (λ kl, is_Some (param_data h kl.2)) nps →
  ∃ ds, mapM (λ kl : string * loc, d ← param_data h kl.2; Some (kl.1, d)) nps
        = Some (zip nps.*1 ds)
    ∧ Forall2 (λ kl d, param_data h kl.2 = Some d) nps ds.
Proof.
  induction 1 as [|[k l] nps [d Hd] _ (ds & E & F)].
  - exists []. split; [done|constructor].
  - exists (d :: ds). cbn [mapM fmap list_fmap fst snd] in *.
    rewrite Hd, E. split; [done|]. by constructor.
Qed.

Lemma state_dict_spec m w :
  NoDup (named_parameters m).*1 →
  Forall (λ kl, is_Some (param_data (heap w) kl.2)) (named_parameters m) →
  ∃ sd ds, state_dict m w = Some (sd, w)
    ∧ sd = list_to_map (zip (named_parameters m).*1 ds)
    ∧ dom sd = list_to_set (named_parameters m).*1
    ∧ Forall2 (λ kl d, sd !! kl.1 = Some d ∧ param_data (heap w) kl.2 = Some d)
        (named_parameters m) ds.
Proof.
  intros Hnd Hps. destruct (state_dict_mapM (heap w) _ Hps) as (ds & E & F).
  assert (Hlen : length (named_parameters m).*1 = length ds).
  { rewrite length_fmap. by eapply Forall2_length. }
  exists (list_to_map (zip (named_parameters m).*1 ds)), ds.
  split. { unfold state_dict. mred. rewrite E. reflexivity. }
  split; [done|]. split.
  { rewrite dom_list_to_map_L, fst_zip by lia. done. }
  pose proof (list_to_map_zip_Forall2 _ ds Hnd Hlen) as F'.
  apply Forall2_fmap_l in F'.
  by apply Forall2_and.
Qed.

(** The loop of [load_state_dict]. *)
Lemma load_loop_spec (sd : gmap string (Tensor R)) (nps : list (string * loc)) :
  ∀ (ds : list (Tensor R)) i w,
  NoDup nps.*2 →
  Forall2 (λ kl d, sd !! kl.1 = Some d
             ∧ ∃ d' g, heap w !! kl.2 = Some (OParameter d' g) ∧ shape d = shape d')
    nps ds →
  ∃ w', for_each (λ _, load_param sd) i nps w = Some (tt, w')
    ∧ Forall2 (λ kl d, ∃ g, heap w' !! kl.2 = Some (OParameter d g)) nps ds
    ∧ (∀ l, l ∉ nps.*2 → heap w' !! l = heap w !! l)
    ∧ files w' = files w ∧ rng w' = rng w
    ∧ stdout w' = stdout w ∧ trace w' = trace w.
Proof.
  induction nps as [|[k l] nps IH]; intros ds i w Hnd HF.
  - apply Forall2_nil_inv_l in HF as ->. exists w. split; [done|].
    split; [constructor|done].
  - apply Forall2_cons_inv_l in HF as (d & ds' & (Hk & d' & g & Hl & Hsh) & HF & ->).
    cbn [fmap list_fmap snd] in Hnd. apply NoDup_cons in Hnd as [Hl' Hnd].
    set (w1 := mkWorld (<[l := OParameter d g]> (heap w)) (files w) (rng w)
                 (stdout w) (trace w)).
    assert (E1 : load_param sd (k, l) w = Some (tt, w1)).
    { cbn [fst snd] in Hk, Hl. unfold load_param. mred. cbn [fst snd].
      rewrite Hk, Hl. by rewrite decide_True. }
    destruct (IH ds' (S i) w1 Hnd) as (w' & E' & F' & Hfr & Hfi & Hrn & Hso & Htr).
    { eapply Forall2_impl_l with (S := λ kl : string * loc, kl.2 ≠ l).
      - apply Forall_forall. intros [k' l0] Hin E. cbn [snd] in E. subst l0.
        apply Hl'. apply list_elem_of_fmap. by exists (k', l).
      - exact HF.
      - intros [k' l0] d0 Hne (Hk' & d0' & g0 & Hl0 & Hs0). split; [done|].
        exists d0', g0. cbn [snd] in *. unfold w1. cbn [heap].
        by rewrite lookup_insert_ne. }
    exists w'. cbn [for_each]. unfold bind at 1. rewrite E1.
    split; [exact E'|]. split.
    { constructor; [|done]. exists g. cbn [snd].
      rewrite Hfr by done. unfold w1. cbn [heap]. apply lookup_insert_eq. }
    split.
    { intros l0 Hl0. cbn [fmap list_fmap snd] in Hl0.
      apply not_elem_of_cons in Hl0 as [Hne Hl0].
      rewrite Hfr by done. unfold w1. cbn [heap]. by rewrite lookup_insert_ne. }
    done.
Qed.


Lemma arch_concrete h m :
  arch h m →
  ∃ a0 b0 a2 b2 a4 b4 a6 b6,
    linear_relu_stack m = stack_of a0 b0 a2 b2 a4 b4 a6 b6
    ∧ parameters m = [a0; b0; a2; b2; a4; b4; a6; b6]
    ∧ named_parameters m = zip names [a0; b0; a2; b2; a4; b4; a6; b6]
    ∧ Forall2 (is_param h) (parameters m) param_shapes.
Proof.
  intros Ha. destruct (arch_stack h m Ha)
    as (a0 & b0 & a2 & b2 & a4 & b4 & a6 & b6 & Hst).
  exists a0, b0, a2, b2, a4, b4, a6, b6.
  destruct Ha as (_ & Hly & _). unfold parameters, named_parameters.
  rewrite Hst in *. split; [done|]. split; [reflexivity|]. split; [reflexivity|].
  unfold stack_of in Hly.
  apply Forall_cons in Hly as [[P0 Q0] Hly]. apply Forall_cons in Hly as [_ Hly].
  apply Forall_cons in Hly as [[P2 Q2] Hly]. apply Forall_cons in Hly as [_ Hly].
  apply Forall_cons in Hly as [[P4 Q4] Hly]. apply Forall_cons in Hly as [_ Hly].
  apply Forall_cons in Hly as [[P6 Q6] _].
  cbn [flat_map app stack_of]. unfold param_shapes.
  repeat (apply Forall2_cons_2; [assumption|]). apply Forall2_nil_2.
Qed.

End Persist.


Section RoundTrip.
Context {R : Type} `{Torch R}.
Implicit Types (h : gmap loc (Obj R)) (w : World R) (m : NeuralNetwork).

(** The parameters of a network, with their data. *)
Lemma arch_data h m :
  arch h m →
  ∃ ds, Forall2 (λ l d, param_data h l = Some d) (parameters m) ds
    ∧ Forall2 (λ d s, shape d = s ∧ wf_tensor d) ds param_shapes.
Proof.
  intros Ha. destruct (arch_concrete h m Ha)
    as (a0 & b0 & a2 & b2 & a4 & b4 & a6 & b6 & _ & Hps & _ & F).
  rewrite Hps in *. unfold param_shapes in *. split_Forall2.
  repeat match goal with P : is_param _ _ _ |- _ =>
    apply is_param_data in P as (? & ? & ? & ?) end.
  eexists [_; _; _; _; _; _; _; _]. split.
  - repeat (apply Forall2_cons_2; [eassumption|]). apply Forall2_nil_2.
  - repeat (apply Forall2_cons_2; [split; eassumption|]). apply Forall2_nil_2.
Qed.

Lemma state_dict_arch m w ds :
  arch (heap w) m →
  Forall2 (λ l d, param_data (heap w) l = Some d) (parameters m) ds →
  state_dict m w = Some (list_to_map (zip names ds), w).
Proof.
  intros Ha F. destruct (arch_concrete _ m Ha)
    as (a0 & b0 & a2 & b2 & a4 & b4 & a6 & b6 & _ & Hps & Hnp & _).
  rewrite Hps in F.
  repeat (apply Forall2_cons_inv_l in F as (? & ? & ? & F & ->)).
  apply Forall2_nil_inv_l in F as ->.
  unfold state_dict. mred. rewrite Hnp. unfold names.
  cbn [zip zip_with mapM fst snd].
  repeat match goal with E : param_data _ _ = Some _ |- _ => rewrite E; clear E end.
  reflexivity.
Qed.

(** The saving cell: one [torch.save] of the parameter dictionary. *)
Lemma save_cell_spec m w ds :
  arch (heap w) m →
  Forall2 (λ l d, param_data (heap w) l = Some d) (parameters m) ds →
  save_cell m w
  = Some (tt, mkWorld (heap w)
                (<[model_path := pickle (list_to_map (zip names ds))]> (files w))
                (rng w)
                (stdout w ++ [OutText "Saved PyTorch Model State to .\model"])
                (trace w ++ [EvSave model_path])).
Proof.
  intros Ha F. unfold save_cell. unfold bind at 1.
  rewrite (state_dict_arch m w ds) by done. reflexivity.
Qed.

(** [load_state_dict] of a dictionary with the eight names and the
    right shapes. *)
Lemma load_state_dict_spec m' w (ds : list (Tensor R)) :
  arch (heap w) m' →
  Forall2 (λ d s, shape d = s ∧ wf_tensor d) ds param_shapes →
  ∃ w', load_state_dict m' (list_to_map (zip names ds)) w = Some (tt, w')
    ∧ arch (heap w') m'
    ∧ Forall2 (λ l d, param_data (heap w') l = Some d) (parameters m') ds
    ∧ (∀ l, l ∉ parameters m' → heap w' !! l = heap w !! l)
    ∧ files w' = files w ∧ rng w' = rng w
    ∧ stdout w' = stdout w ∧ trace w' = trace w.
Proof.
  intros Ha Hds.
  apply Forall2_length in Hds as Hlen. cbn in Hlen.
  pose proof (list_to_map_zip_Forall2 names ds NoDup_names) as Hsd.
  specialize (Hsd ltac:(by rewrite Hlen)).
  set (sd := list_to_map (zip names ds)) in *.
  destruct (arch_concrete _ m' Ha)
    as (a0 & b0 & a2 & b2 & a4 & b4 & a6 & b6 & Hst & Hps & Hnp & F).
  assert (Hn : (named_parameters m').*1 = names) by (by rewrite Hnp).
  pose proof Ha as (Hsig & Hly & Hnd & Hself).
  destruct (load_loop_spec sd (named_parameters m') ds 0 w)
    as (w' & E' & F' & Hfr & Hfi & Hrn & Hso & Htr).
  { rewrite Hnp. rewrite Hps in Hnd. exact Hnd. }
  { rewrite Hnp. rewrite Hps in F. unfold param_shapes, names in *.
    repeat (apply Forall2_cons_inv_r in Hds as (? & ? & [? ?] & Hds & ->)).
    apply Forall2_nil_inv_r in Hds as ->.
    split_Forall2. cbn [zip zip_with].
    repeat (apply Forall2_cons_2;
      [split; [cbn [fst]; assumption|];
       cbn [snd];
       match goal with
       | P : is_param _ ?a _ |- ∃ _ _, _ !! ?a = _ ∧ _ =>
           destruct P as (d' & g' & P1 & P2 & P3); exists d', g';
           split; [exact P1|congruence]
       end|]).
    apply Forall2_nil_2. }
  assert (Hpd : Forall2 (λ l d, param_data (heap w') l = Some d) (parameters m') ds).
  { rewrite Hnp in F'. rewrite Hps. clear -F'. unfold names in F'.
    repeat (apply Forall2_cons_inv_l in F' as (? & ? & [? ?] & F' & ->)).
    apply Forall2_nil_inv_l in F' as ->. cbn [snd] in *.
    repeat (apply Forall2_cons_2;
      [unfold param_data;
       match goal with E : _ !! ?a = Some _ |- context [_ !! ?a] => by rewrite E end|]).
    apply Forall2_nil_2. }
  assert (Hfr' : ∀ l, l ∉ parameters m' → heap w' !! l = heap w !! l).
  { intros l Hl. apply Hfr. rewrite Hnp. rewrite Hps in Hl. exact Hl. }
  exists w'. split.
  { unfold load_state_dict. rewrite decide_True; [exact E'|].
    unfold sd. rewrite dom_list_to_map_L, fst_zip, Hn by (rewrite Hlen; done).
    done. }
  split.
  { split; [done|]. split; [|split; [done|]].
    - rewrite Hst. rewrite Hps in Hpd, F. unfold param_shapes in *.
      repeat (apply Forall2_cons_inv_l in Hpd as (? & ? & ? & Hpd & ->)).
      apply Forall2_nil_inv_l in Hpd as ->.
      split_Forall2.
      repeat match goal with
             | E : shape _ = _ ∧ wf_tensor _ |- _ => destruct E
             end.
      assert (Hip : ∀ l d s, param_data (heap w') l = Some d → shape d = s →
                wf_tensor d → is_param (heap w') l s).
      { clear. intros l d s E ? ?. unfold param_data in E.
        destruct (heap w' !! l) as [[d0 g0| |]|] eqn:El; try discriminate E.
        injection E as ->. by exists d, g0. }
      unfold stack_of.
      repeat apply Forall_cons_2; try apply Forall_nil_2; try exact I;
        split; eapply Hip; eassumption.
    - destruct Hself as [b Hb]. exists b. rewrite Hfr'; [done|].
      intros Hin. rewrite Hps in Hin, F. unfold param_shapes in F.
      split_Forall2.
      repeat (apply elem_of_cons in Hin as [Hin|Hin];
        [match goal with P : is_param _ _ _ |- _ =>
           rewrite <- Hin in P; destruct P as (? & ? & P & _); congruence
         end|]).
      by apply elem_of_nil in Hin. }
  done.
Qed.

End RoundTrip.

Section Restore.
Context {R : Type} `{Torch R}.
Implicit Types (h : gmap loc (Obj R)) (w : World R) (m : NeuralNetwork).

(** The loading cell, when the file holds a dictionary with the eight
    names and the right shapes. *)
Lemma load_cell_spec w (ds : list (Tensor R)) :
  files w !! model_path ≫= unpickle = Some (list_to_map (zip names ds)) →
  Forall2 (λ d s, shape d = s ∧ wf_tensor d) ds param_shapes →
  ∃ m' w', load_cell w = Some (m', w')
    ∧ arch (heap w') m'
    ∧ Forall2 (λ l d, param_data (heap w') l = Some d) (parameters m') ds
    ∧ heap w ⊆ heap w'
    ∧ (∀ l, l ∈ parameters m' → heap w !! l = None)
    ∧ files w' = files w
    ∧ stdout w' = stdout w
    ∧ trace w' = trace w ++ [EvLoad model_path].
Proof.
  intros Hfile Hds.
  destruct (NeuralNetwork_init_spec w)
    as (m' & w1 & E1 & Ha1 & _ & Hsub & Hfresh & _ & Hf1 & Ho1 & Ht1).
  set (w2 := mkWorld (heap w1) (files w1) (rng w1) (stdout w1)
               (trace w1 ++ [EvLoad model_path])).
  destruct (load_state_dict_spec m' w2 ds Ha1 Hds)
    as (w' & E' & Ha' & Hpd & Hfr & Hfi & Hrn & Hso & Htr).
  exists m', w'. split.
  { unfold load_cell, torch_load. mred. rewrite E1. mred.
    rewrite <- Hf1 in Hfile. rewrite Hfile. mred.
    unfold w2 in E'. rewrite E'. reflexivity. }
  split; [done|]. split; [done|]. split.
  { apply map_subseteq_spec. intros l o Hl. rewrite Hfr.
    - unfold w2. cbn [heap]. by eapply lookup_weaken.
    - intros Hin. rewrite (Hfresh l Hin) in Hl. discriminate Hl. }
  split; [done|]. split; [by rewrite Hfi|]. split; [by rewrite Hso|].
  rewrite Htr. unfold w2. cbn [trace]. by rewrite Ht1.
Qed.

(** Two networks whose parameters hold the same data compute the same
    function. *)
Lemma forward_same_data h h' m m' (ds : list (Tensor R)) x :
  arch h m → arch h' m' →
  Forall2 (λ l d, param_data h l = Some d) (parameters m) ds →
  Forall2 (λ l d, param_data h' l = Some d) (parameters m') ds →
  forward h' m' x = forward h m x.
Proof.
  intros Ha Ha' F F'.
  destruct (arch_concrete _ _ Ha)
    as (a0 & b0 & a2 & b2 & a4 & b4 & a6 & b6 & Hst & Hps & _ & _).
  destruct (arch_concrete _ _ Ha')
    as (a0' & b0' & a2' & b2' & a4' & b4' & a6' & b6' & Hst' & Hps' & _ & _).
  rewrite Hps in F. rewrite Hps' in F'.
  repeat (apply Forall2_cons_inv_l in F as (? & ? & ? & F & ->)).
  apply Forall2_nil_inv_l in F as ->.
  repeat (apply Forall2_cons in F' as [? F']).
  unfold forward. rewrite Hst, Hst'. destruct (Flatten x) as [xf|]; [|done].
  cbn [mbind option_bind]. unfold stack_of.
  repeat match goal with
         | |- context [Sequential _ (Linear _ _ ?a ?b :: _) ?t] =>
             cbn [Sequential apply_layer];
             repeat match goal with
                    | E : param_data _ _ = Some _ |- _ => rewrite E; clear E
                    end;
             cbn [mbind option_bind];
             match goal with
             | |- context [F_linear ?W ?B ?t0] =>
                 destruct (F_linear W B t0); [|done]
             end; cbn [mbind option_bind]
         | |- context [Sequential _ (ReLU :: _) ?t] =>
             cbn [Sequential apply_layer mbind option_bind]
         end.
  done.
Qed.

End Restore.

Section Predict.
Context {R : Type} `{Torch R}.
Implicit Types (h : gmap loc (Obj R)) (w : World R) (m : NeuralNetwork).

(** The logits of one image. *)
Lemma forward_image h m (s : Sample R) :
  arch h m → length s.1 = 784 →
  forward h m (image s) = Some (mkTensor [1; 10] (logits h m s.1))
  ∧ length (logits h m s.1) = 10.
Proof.
  intros Ha Hs.
  destruct (forward_rows h m (image s) 1 28 [28]) as [E F];
    [done|done|reflexivity|by unfold wf_tensor|].
  unfold chunk in E, F. cbn [seq map Nat.mul drop] in E, F.
  change (data (image s)) with s.1 in E, F.
  rewrite drop_0, take_ge in E, F by lia. cbn [map concat] in E, F.
  rewrite app_nil_r in E. apply Forall_cons in F as [F _]. done.
Qed.

Lemma classes_lookup i : i < 10 → is_Some (classes !! i).
Proof. intros Hi. apply lookup_lt_is_Some. cbn. lia. Qed.

(** The prediction cell. *)
Lemma predict_cell_spec (test_data : list (Sample R)) m w s :
  arch (heap w) m → test_data !! 0 = Some s → wf_sample s →
  ∃ i p a,
    argmax (logits (heap w) m s.1) = Some i ∧ i < 10
    ∧ classes !! i = Some p ∧ classes !! s.2 = Some a
    ∧ predict_cell test_data m w
      = Some (tt, mkWorld (<[self m := OModule false]> (heap w)) (files w) (rng w)
                    (stdout w ++ [OutPredicted p a]) (trace w)).
Proof.
  intros Ha Hs [Hpx Hy]. pose proof Ha as (_ & _ & _ & b0 & Hself).
  destruct (forward_image (<[self m := OModule false]> (heap w)) m s) as [Efw Hlen];
    [by apply arch_set_training|done|].
  rewrite (logits_set_training _ _ b0) in Efw, Hlen by done.
  destruct (argmax_is_Some (logits (heap w) m s.1)) as [i Hi]; [lia|].
  pose proof (argmax_bound _ _ Hi) as Hb. rewrite Hlen in Hb.
  destruct (classes_lookup i Hb) as [p Hp].
  destruct (classes_lookup s.2 Hy) as [a Ha'].
  exists i, p, a. do 4 (split; [done|]).
  unfold predict_cell. mred. rewrite set_training_spec by eauto. mred.
  rewrite Hs. mred. rewrite Efw. mred.
  unfold index0. cbn [shape data numel foldr]. mred.
  unfold argmax_dim0. cbn [shape data].
  rewrite take_ge by lia. rewrite Hi. mred. rewrite Hp, Ha'. reflexivity.
Qed.

End Predict.


Section BatchShape.
Context {A : Type}.

Lemma ceil_div_partial q bs r : 0 < r → r < bs → ceil_div (q * bs + r) bs = S q.
Proof.
  intros Hr Hb. unfold ceil_div.
  symmetry. apply (Nat.div_unique _ _ _ (r - 1)); lia.
Qed.

(** A sequential loader over [q * bs + r] samples yields [q] full
    batches and a last one of [r] samples. *)
Lemma batches_partial (l : list A) q bs r :
  length l = q * bs + r → 0 < r → r < bs →
  batches bs l = chunk bs q (take (q * bs) l) ++ [drop (q * bs) l]
  ∧ Forall (λ b, length b = bs) (chunk bs q (take (q * bs) l))
  ∧ length (drop (q * bs) l) = r
  ∧ concat (chunk bs q (take (q * bs) l)) = take (q * bs) l.
Proof.
  intros Hl Hr Hb. unfold batches. rewrite Hl, ceil_div_partial by done.
  rewrite chunk_S. split; [|split; [|split]].
  - f_equal.
    + unfold chunk. apply map_ext_in. intros i Hi%in_seq.
      rewrite <- (take_drop (q * bs) l) at 1.
      rewrite drop_app_le by (rewrite length_take; nia).
      rewrite take_app_le; [done|]. rewrite length_drop, length_take. nia.
    + f_equal. apply take_ge. rewrite length_drop. lia.
  - apply Forall_chunk_length. rewrite length_take. lia.
  - rewrite length_drop. lia.
  - rewrite concat_chunk. apply take_ge. rewrite length_take. lia.
Qed.

Lemma batch_sizes_partial (l : list A) q bs r :
  length l = q * bs + r → 0 < r → r < bs →
  length <$> batches bs l = replicate q bs ++ [r].
Proof.
  intros Hl Hr Hb.
  destruct (batches_partial l q bs r Hl Hr Hb) as (-> & HF & Hd & _).
  rewrite fmap_app. cbn [fmap list_fmap]. rewrite Hd. f_equal.
  assert (Hrows : ∀ rows : list (list A),
            Forall (λ b, length b = bs) rows →
            length <$> rows = replicate (length rows) bs).
  { induction 1 as [|b rows Hb' _ IH]; [done|]. cbn. by rewrite Hb', IH. }
  by rewrite (Hrows _ HF), length_chunk.
Qed.

End BatchShape.

Lemma Qsum_cons x l : Qsum (x :: l) = (x + Qsum l)%Q.
Proof. reflexivity. Qed.

Lemma Qsum_app l1 l2 : (Qsum (l1 ++ l2) == Qsum l1 + Qsum l2)%Q.
Proof.
  induction l1 as [|x l1 IH].
  - change (Qsum []) with 0%Q. cbn [app]. ring.
  - cbn [app]. rewrite !Qsum_cons, IH. ring.
Qed.

Lemma foldl_Qplus a l : (foldl Qplus a l == a + Qsum l)%Q.
Proof.
  revert a. induction l as [|x l IH]; intros a.
  - change (Qsum []) with 0%Q. cbn [foldl]. ring.
  - cbn [foldl]. rewrite IH, Qsum_cons. ring.
Qed.

(** The sum of the means of rows, all divided by the same number. *)
Lemma Qsum_row_means {A} (f : A → Q) (k : Q) (rows : list (list A)) :
  (Qsum (map (λ b, Qsum (map f b) / k) rows) == Qsum (map f (concat rows)) / k)%Q.
Proof.
  induction rows as [|b rows IH].
  - cbn [map concat]. change (Qsum []) with 0%Q. unfold Qdiv. ring.
  - cbn [map concat]. rewrite Qsum_cons, map_app, Qsum_app, IH. unfold Qdiv. ring.
Qed.

Section MeanLoss.
Variable sample_loss : list Q → nat → Q.
#[local] Instance mean_torch : Torch Q := Q_torch sample_loss.
Implicit Types (h : gmap loc (Obj Q)) (w : World Q) (m : NeuralNetwork).


Lemma zip_with_rows h m (b : list (Sample Q)) :
  zip_with sample_loss (map (λ s : Sample Q, logits h m s.1) b) (map snd b)
  = map (loss_of sample_loss h m) b.
Proof. induction b as [|s b IH]; [done|]. cbn. by rewrite IH. Qed.

(** With [reduction='mean'] the loss of a batch is the mean of the
    losses of its samples. *)
Lemma batch_loss_value_mean h m (b : list (Sample Q)) :
  arch h m → Forall wf_sample b →
  batch_loss_value h m b = Qmean (map (loss_of sample_loss h m) b).
Proof.
  intros Ha Hb. unfold batch_loss_value, Qmean.
  change (@CrossEntropyLoss Q _ mean_torch) with (mean_loss sample_loss).
  unfold mean_loss. cbn [shape data].
  destruct (collate_forward h m b Ha Hb) as [_ Hlen].
  rewrite <- (length_map (λ s : Sample Q, logits h m s.1) b) at 1.
  rewrite chunk_concat by done.
  by rewrite zip_with_rows, !length_map.
Qed.


(** The unweighted mean of the batch means over 156 full batches of 64
    and a last batch of 16, against the mean over the 10000 samples. *)
Lemma unweighted_vs_true (A B : Q) :
  (((A / (64 # 1) + B / (16 # 1)) / (157 # 1) == (A + B) / (10000 # 1))
   ↔ (B / (16 # 1) == A / (9984 # 1)))%Q.
Proof.
  unfold Qdiv.
  change (/ (64 # 1))%Q with (1 # 64)%Q. change (/ (16 # 1))%Q with (1 # 16)%Q.
  change (/ (157 # 1))%Q with (1 # 157)%Q. change (/ (10000 # 1))%Q with (1 # 10000)%Q.
  change (/ (9984 # 1))%Q with (1 # 9984)%Q.
  split; intros E; lra.
Qed.

(** What [test] prints as average loss on a test set of 10000 samples,
    and how it compares with the mean loss per sample. *)
Lemma test_avg_10000 h m (ds : list (Sample Q)) :
  arch h m → Forall wf_sample ds → length ds = 156 * 64 + 16 →
  let avg := (foldl Qplus 0 (map (batch_loss_value h m) (batches 64 ds))
              / inject_Z (Z.of_nat (ceil_div (length ds) 64)))%Q in
  (avg == Qmean (map (loss_of sample_loss h m) ds)
   ↔ Qmean (map (loss_of sample_loss h m) (drop (156 * 64) ds))
     == Qmean (map (loss_of sample_loss h m) (take (156 * 64) ds)))%Q.
Proof.
  intros Ha Hds Hlen avg.
  destruct (batches_partial ds 156 64 16 Hlen) as (Eb & Hfull & Hlast & Hcat); [lia..|].
  set (full := chunk 64 156 (take (156 * 64) ds)) in *.
  set (A := Qsum (map (loss_of sample_loss h m) (take (156 * 64) ds))).
  set (B := Qsum (map (loss_of sample_loss h m) (drop (156 * 64) ds))).
  assert (Hwf_full : Forall (Forall wf_sample) full).
  { rewrite <- (take_drop (156 * 64) ds) in Hds. apply Forall_app in Hds as [Hds _].
    unfold full, chunk. apply Forall_fmap, Forall_forall. intros i _. cbn.
    by apply Forall_take, Forall_drop. }
  assert (Hsum : (foldl Qplus 0 (map (batch_loss_value h m) (batches 64 ds))
                  == A / (64 # 1) + B / (16 # 1))%Q).
  { rewrite Eb, map_app, foldl_Qplus, Qsum_app. cbn [map].
    rewrite (batch_loss_value_mean h m (drop (156 * 64) ds) Ha) by (by apply Forall_drop).
    unfold Qmean at 1. rewrite length_map, Hlast.
    rewrite Qsum_cons. change (Qsum []) with 0%Q.
    change (inject_Z (Z.of_nat 16)) with (16 # 1)%Q. fold B.
    assert (Efull : map (batch_loss_value h m) full
                    = map (λ b, Qsum (map (loss_of sample_loss h m) b) / (64 # 1))%Q full).
    { apply map_ext_in. intros b Hb%list_elem_of_In.
      rewrite batch_loss_value_mean; [|done|].
      - unfold Qmean. rewrite length_map.
        rewrite (proj1 (Forall_forall _ _) Hfull b Hb). done.
      - by apply (proj1 (Forall_forall _ _) Hwf_full b). }
    rewrite Efull, Qsum_row_means, Hcat. fold A. ring. }
  assert (Etot : (Qsum (map (loss_of sample_loss h m) ds) == A + B)%Q).
  { rewrite <- (take_drop (156 * 64) ds) at 1. by rewrite map_app, Qsum_app. }
  assert (E157 : inject_Z (Z.of_nat (ceil_div (length ds) 64)) = (157 # 1)%Q).
  { rewrite Hlen. vm_compute. reflexivity. }
  assert (E10000 : inject_Z (Z.of_nat (length ds)) = (10000 # 1)%Q).
  { rewrite Hlen. vm_compute. reflexivity. }
  assert (E9984 : inject_Z (Z.of_nat (156 * 64)) = (9984 # 1)%Q).
  { vm_compute. reflexivity. }
  unfold avg, Qmean. rewrite !length_map, E157, E10000, Hsum, Etot.
  rewrite length_take, length_drop, Hlen.
  rewrite Nat.min_l by lia. rewrite E9984.
  change (inject_Z (Z.of_nat 16)) with (16 # 1)%Q. fold A B.
  apply unweighted_vs_true.
Qed.

(** The average [test] prints is the unweighted mean of the mean losses
    of the batches. *)
Lemma test_avg_mean_of_means h m (ds : list (Sample Q)) bs :
  arch h m → Forall wf_sample ds →
  (foldl Qplus 0 (map (batch_loss_value h m) (batches bs ds))
   / inject_Z (Z.of_nat (ceil_div (length ds) bs))
   == Qmean (map (λ b, Qmean (map (loss_of sample_loss h m) b)) (batches bs ds)))%Q.
Proof.
  intros Ha Hds. unfold Qmean at 1. rewrite length_map, length_batches.
  rewrite foldl_Qplus, Qplus_0_l.
  rewrite (map_ext_in (batch_loss_value h m)
             (λ b, Qmean (map (loss_of sample_loss h m) b))); [reflexivity|].
  intros b Hb%list_elem_of_In. apply batch_loss_value_mean; [done|].
  by apply (proj1 (Forall_forall _ _) (Forall_batches wf_sample bs ds Hds)).
Qed.

End MeanLoss.

Section Setup.
Context {R : Type} `{Torch R}.
Implicit Types (h : gmap loc (Obj R)) (w : World R) (m : NeuralNetwork).

(** The cells that build the model and the optimizer establish the
    state the training loop starts from. *)
Lemma model_cell_spec acc w :
  ∃ m w', model_cell acc w = Some (m, w')
    ∧ arch (heap w') m ∧ grads_cleared (heap w') (parameters m)
    ∧ heap w ⊆ heap w' ∧ files w' = files w ∧ trace w' = trace w.
Proof.
  set (w0 := mkWorld (heap w) (files w) (rng w)
               (stdout w ++ [OutText ("Using " +:+ device acc +:+ " device")])
               (trace w)).
  destruct (NeuralNetwork_init_spec w0)
    as (m & w1 & E1 & Ha & Hg & Hsub & _ & _ & Hf & Ho & Ht).
  exists m. eexists. split.
  { unfold model_cell. mred. fold w0. rewrite E1. mred. reflexivity. }
  clear E1. cbn [heap files trace]. repeat (split; [assumption|]). assumption.
Qed.

Lemma optimizer_cell_spec m w :
  arch (heap w) m → grads_cleared (heap w) (parameters m) →
  ∃ opt w', optimizer_cell m w = Some (opt, w')
    ∧ train_inv (heap w') m opt
    ∧ heap w ⊆ heap w' ∧ files w' = files w ∧ trace w' = trace w.
Proof.
  intros Ha Hg.
  destruct (alloc_spec (OOptimizer c1e_3 (parameters m)) w)
    as (opt & w' & E & Hfresh & Hh & Hf & _ & Ht).
  exists opt, w'. split; [exact E|]. clear E.
  assert (Hsub : heap w ⊆ heap w') by (rewrite Hh; by apply insert_subseteq).
  split; [|by repeat split].
  destruct Ha as (Hsig & Hly & Hnd & b & Hself).
  split; [split; [done|split; [|split; [done|]]]|split].
  - eapply Forall_impl; [done|]. intros [i o lw lb|]; [|done].
    intros [? ?]. split; by eapply is_param_mono.
  - exists b. by eapply lookup_weaken.
  - rewrite Hh. apply lookup_insert_eq.
  - intros l Hl. destruct (Hg l Hl) as (d & Hd). exists d. by eapply lookup_weaken.
Qed.

End Setup.


(** * The claims *)

Section Claims.
Context {R : Type} `{Torch R}.
Implicit Types (h : gmap loc (Obj R)) (w : World R) (m : NeuralNetwork).

Lemma Forall2_param_data_fmap h (ps : list loc) (ds : list (Tensor R)) :
  Forall2 (λ l d, param_data h l = Some d) ps ds →
  param_data h <$> ps = Some <$> ds.
Proof. induction 1 as [|l d ps ds E _ IH]; [done|]. cbn. by rewrite E, IH. Qed.

(** C1. Saving the trained model's parameter dictionary to [.\model]
    and loading it into a freshly constructed [NeuralNetwork] gives a
    model whose eight parameters hold exactly the tensors of the trained
    model, hence the same output on every input (given that the
    library's serializer reads back what it wrote). *)
Theorem C1_save_load_round_trip m w :
  (∀ sd, unpickle (pickle sd) = Some sd) →
  arch (heap w) m →
  ∃ w1 m' w2 ds,
    save_cell m w = Some (tt, w1)
    ∧ load_cell w1 = Some (m', w2)
    ∧ length ds = 8
    ∧ param_data (heap w) <$> parameters m = Some <$> ds
    ∧ param_data (heap w2) <$> parameters m' = Some <$> ds
    ∧ (∀ l, l ∈ parameters m' → l ∉ parameters m)
    ∧ ∀ x, forward (heap w2) m' x = forward (heap w) m x.
Proof.
  intros Hrt Ha.
  destruct (arch_data _ _ Ha) as (ds & Hds & Hsh).
  pose proof (save_cell_spec m w ds Ha Hds) as E1.
  set (w1 := mkWorld _ _ _ _ _) in E1.
  assert (Hfile : files w1 !! model_path ≫= unpickle
                  = Some (list_to_map (zip names ds))).
  { unfold w1. cbn [files]. rewrite lookup_insert_eq. cbn. apply Hrt. }
  destruct (load_cell_spec w1 ds Hfile Hsh)
    as (m' & w2 & E2 & Ha' & Hds' & Hsub & Hfresh & _).
  exists w1, m', w2, ds. split; [exact E1|]. split; [exact E2|]. clear E1 E2.
  split. { apply Forall2_length in Hsh. exact Hsh. }
  split; [by apply Forall2_param_data_fmap|].
  split; [by apply Forall2_param_data_fmap|].
  split.
  { intros l Hl Hin. specialize (Hfresh l Hl). unfold w1 in Hfresh. cbn [heap] in Hfresh.
    apply list_elem_of_lookup in Hin as [i Hi].
    destruct (Forall2_lookup_l _ _ _ i l Hds Hi) as (d & _ & Hd).
    unfold param_data in Hd. rewrite Hfresh in Hd. discriminate Hd. }
  intros x. by apply (forward_same_data _ _ _ _ ds).
Qed.


(** C2. The model has exactly four fully-connected layers, 784 to 1024,
    1024 to 1024, 1024 to 512 and 512 to 10, with a ReLU after each of
    the first three.  On every input whose trailing dimensions hold 784
    values, [forward] flattens it to rows of 784 values and returns, row
    by row, the ten logits obtained by applying the four affine maps with
    the three ReLUs in between. *)
Theorem C2_forward_four_layers h m :
  arch h m →
  layer_sig <$> linear_relu_stack m
  = [Some (784, 1024); None; Some (1024, 1024); None;
     Some (1024, 512); None; Some (512, 10)]
  ∧ ∃ W1 b1 W2 b2 W3 b3 W4 b4,
      param_data h <$> parameters m = Some <$> [W1; b1; W2; b2; W3; b3; W4; b4]
      ∧ shape <$> [W1; b1; W2; b2; W3; b3; W4; b4] = param_shapes
      ∧ ∀ x n d s,
          shape x = n :: d :: s → numel (d :: s) = 784 → wf_tensor x →
          Flatten x = Some (mkTensor [n; 784] (data x))
          ∧ forward h m x
            = Some (mkTensor [n; 10]
                (concat (map (λ r,
                     linear_row W4 b4 (map relu
                       (linear_row W3 b3 (map relu
                          (linear_row W2 b2 (map relu
                             (linear_row W1 b1 r)))))))
                   (chunk 784 n (data x)))))
          ∧ Forall (λ r, length r = 10)
              (map (λ r,
                   linear_row W4 b4 (map relu
                     (linear_row W3 b3 (map relu
                        (linear_row W2 b2 (map relu
                           (linear_row W1 b1 r)))))))
                 (chunk 784 n (data x))).
Proof.
  intros Ha. split; [by destruct Ha|].
  destruct (arch_data _ _ Ha) as (ds & Hds & Hsh).
  destruct (arch_concrete _ _ Ha)
    as (a0 & b0 & a2 & b2 & a4 & b4 & a6 & b6 & Hst & Hps & _ & _).
  pose proof (Forall2_param_data_fmap _ _ _ Hds) as Hpd.
  rewrite Hps in Hds.
  apply Forall2_cons_inv_l in Hds as (W1 & ? & E1 & Hds & ->).
  apply Forall2_cons_inv_l in Hds as (B1 & ? & E2 & Hds & ->).
  apply Forall2_cons_inv_l in Hds as (W2 & ? & E3 & Hds & ->).
  apply Forall2_cons_inv_l in Hds as (B2 & ? & E4 & Hds & ->).
  apply Forall2_cons_inv_l in Hds as (W3 & ? & E5 & Hds & ->).
  apply Forall2_cons_inv_l in Hds as (B3 & ? & E6 & Hds & ->).
  apply Forall2_cons_inv_l in Hds as (W4 & ? & E7 & Hds & ->).
  apply Forall2_cons_inv_l in Hds as (B4 & ? & E8 & Hds & ->).
  apply Forall2_nil_inv_l in Hds as ->.
  exists W1, B1, W2, B2, W3, B3, W4, B4. split; [exact Hpd|]. split.
  { unfold param_shapes in *. split_Forall2. cbn [fmap list_fmap].
    repeat match goal with E : shape _ = _ ∧ _ |- _ => destruct E as [-> _] end.
    reflexivity. }
  intros x n d s Hs Hn Hw.
  destruct (forward_rows h m x n d s Ha Hs Hn Hw) as [E F].
  assert (Hlog : ∀ r, logits h m r
                 = linear_row W4 B4 (map relu (linear_row W3 B3 (map relu
                     (linear_row W2 B2 (map relu (linear_row W1 B1 r))))))).
  { intros r. unfold logits. rewrite Hst. unfold stack_of.
    cbn [foldl layer_row]. rewrite E1, E2, E3, E4, E5, E6, E7, E8.
    reflexivity. }
  rewrite (map_ext _ _ Hlog) in E, F.
  split; [|split; [exact E|exact F]].
  unfold Flatten. by rewrite Hs, Hn.
Qed.

(** C3. [train] takes one plain SGD step per batch: the heap after the
    call is obtained from the heap in training mode by applying, batch
    after batch, the update that replaces every model parameter [p] by
    [p - 1e-3 * g], where [g] is the gradient of the cross-entropy loss of
    the model on that batch at the current parameters, and that leaves
    every gradient cleared for the next batch. *)
Theorem C3_train_is_sgd (dl : DataLoader R) m opt w :
  train_inv (heap w) m opt → Forall wf_sample (dataset dl) →
  ∃ w', train dl m nn_CrossEntropyLoss opt w = Some (tt, w')
    ∧ heap w' = foldl (λ h (Xy : Tensor R * list nat),
                    sgd_heap c1e_3 (batch_loss m nn_CrossEntropyLoss Xy.1 Xy.2)
                      (parameters m) h)
                  (<[self m := OModule true]> (heap w)) (loader_iter dl)
    ∧ (∀ f h l d g,
         l ∈ parameters m → h !! l = Some (OParameter d g) →
         sgd_heap c1e_3 f (parameters m) h !! l
         = Some (OParameter
                   (mkTensor (shape d)
                      (zip_with (λ p gp, sub p (mul c1e_3 gp)) (data d)
                         (map (autograd f h l) (seq 0 (length (data d))))))
                   None))
    ∧ (∀ f h l, l ∉ parameters m →
         sgd_heap c1e_3 f (parameters m) h !! l = h !! l)
    ∧ grads_cleared (heap w') (parameters m).
Proof.
  intros Hinv Hds.
  destruct (train_spec dl m opt w Hinv Hds)
    as (w' & E & Hh & _ & _ & _ & (_ & _ & Hg)).
  exists w'. split; [exact E|]. clear E. split; [exact Hh|].
  split; [|split; [|exact Hg]].
  - intros f h l d g Hl El. rewrite sgd_heap_lookup, El.
    by rewrite decide_True.
  - intros f h l Hl. rewrite sgd_heap_lookup.
    destruct (h !! l) as [[]|]; try reflexivity. by rewrite decide_False.
Qed.

Lemma count_steps_app (t1 t2 : list (Event R)) :
  count_steps (t1 ++ t2) = count_steps t1 + count_steps t2.
Proof. unfold count_steps. by rewrite filter_app, length_app. Qed.

Lemma count_steps_train_trace n : count_steps (train_trace (R := R) n) = n.
Proof.
  unfold train_trace. generalize 0 as i. induction n as [|n IH]; intros i; [done|].
  cbn [seq flat_map]. rewrite count_steps_app, IH. reflexivity.
Qed.

Lemma count_steps_epochs k n :
  count_steps (concat (replicate k (epoch_trace (R := R) n))) = k * n.
Proof.
  induction k as [|k IH]; [done|]. cbn [replicate concat].
  rewrite count_steps_app, IH. unfold epoch_trace.
  rewrite count_steps_app, count_steps_train_trace.
  change (count_steps [EvTest]) with 0. lia.
Qed.

Lemma train_trace_lr n (lr : R) :
  EvStep lr ∈ train_trace (R := R) n → lr = c1e_3.
Proof.
  unfold train_trace. generalize 0 as i. induction n as [|n IH]; intros i Hin.
  - by apply elem_of_nil in Hin.
  - cbn [seq flat_map] in Hin. apply elem_of_app in Hin as [Hin|Hin].
    + apply elem_of_cons in Hin as [Hin|Hin]; [discriminate Hin|].
      apply elem_of_cons in Hin as [Hin|Hin]; [by injection Hin|].
      by apply elem_of_nil in Hin.
    + by apply (IH (S i)).
Qed.

Lemma epochs_trace_lr k n (lr : R) :
  EvStep lr ∈ concat (replicate k (epoch_trace (R := R) n)) → lr = c1e_3.
Proof.
  induction k as [|k IH]; intros Hin.
  - by apply elem_of_nil in Hin.
  - cbn [replicate concat] in Hin. apply elem_of_app in Hin as [Hin|Hin]; [|by apply IH].
    unfold epoch_trace in Hin. apply elem_of_app in Hin as [Hin|Hin].
    + by apply (train_trace_lr n).
    + apply elem_of_cons in Hin as [Hin|Hin]; [discriminate Hin|].
      by apply elem_of_nil in Hin.
Qed.

(** C4. The epoch cell runs to completion: it performs exactly 20
    epochs; each epoch visits the batches [0, 1, ..., n-1] of the train
    loader once, in order, with one optimizer step per batch, and then
    calls [test] once; so it ends after [20 * n] training steps. *)
Theorem C4_epochs_control_flow (tr te : DataLoader R) m opt w :
  train_inv (heap w) m opt →
  Forall wf_sample (dataset tr) → Forall wf_sample (dataset te) →
  dataset te ≠ [] → 0 < batch_size te →
  ∃ w' t,
    epochs_cell tr te m nn_CrossEntropyLoss opt w = Some (tt, w')
    ∧ trace w' = trace w ++ t
    ∧ t = concat (replicate 20
            (flat_map (λ i, [EvBatch i; EvStep c1e_3]) (seq 0 (loader_len tr))
             ++ [EvTest]))
    ∧ count_steps t = 20 * loader_len tr.
Proof.
  intros Hinv Htr Hte Hne Hbs.
  destruct (epochs_cell_spec tr te m opt w Hinv Htr Hte Hne Hbs)
    as (w' & E & _ & Ht & _).
  exists w', (concat (replicate 20 (epoch_trace (loader_len tr)))).
  split; [exact E|]. clear E. split; [exact Ht|]. split; [reflexivity|].
  apply count_steps_epochs.
Qed.

(** C5. [test] prints as accuracy (in percent) the number of samples
    whose [argmax] over the ten logits equals the label, divided by the
    size of the data set, and as average loss the sum of the losses of the
    batches divided by the number of batches. *)
Theorem C5_test_metrics (dl : DataLoader R) m w :
  arch (heap w) m → Forall wf_sample (dataset dl) →
  dataset dl ≠ [] → 0 < batch_size dl →
  ∃ w',
    test dl m nn_CrossEntropyLoss w = Some (tt, w')
    ∧ stdout w'
      = stdout w ++
        [OutTestError
           (mul (of_nat 100)
              (div (of_nat (length (filter
                      (λ s : Sample R, argmax (logits (heap w) m s.1) = Some s.2)
                      (dataset dl))))
                 (of_nat (length (dataset dl)))))
           (div (foldl add zero
                   (map (batch_loss_value (heap w) m)
                      (batches (batch_size dl) (dataset dl))))
              (of_nat (loader_len dl)))]
    ∧ (∀ s, s ∈ dataset dl →
         forward (heap w) m (image s) = Some (mkTensor [1; 10] (logits (heap w) m s.1)))
    ∧ (∀ b, b ∈ batches (batch_size dl) (dataset dl) →
         batch_loss m nn_CrossEntropyLoss (collate b).1 (collate b).2 (heap w)
         = Some (batch_loss_value (heap w) m b)).
Proof.
  intros Ha Hds Hne Hbs.
  eexists. split; [by apply test_spec|]. cbn [stdout].
  split; [reflexivity|]. split.
  - intros s Hs. apply forward_image; [done|].
    by destruct (proj1 (Forall_forall _ _) Hds s Hs).
  - intros b Hb.
    assert (Hwb : Forall wf_sample b).
    { by apply (proj1 (Forall_forall _ _)
                   (Forall_batches wf_sample (batch_size dl) _ Hds) b). }
    destruct (collate_forward (heap w) m b Ha Hwb) as [Efw _].
    unfold batch_loss. rewrite Efw. cbn [mbind option_bind collate snd].
    by rewrite CrossEntropyLoss_ok.
Qed.

(** C6. During the whole run of the epoch cell every optimizer step
    reads the learning rate [1e-3]; there are [20 * n] of them, one per
    batch and epoch; afterwards the optimizer object is unchanged, and the
    heap is the result of 20 epochs of the plain SGD update. *)
Theorem C6_learning_rate_constant (tr te : DataLoader R) m opt w :
  train_inv (heap w) m opt →
  Forall wf_sample (dataset tr) → Forall wf_sample (dataset te) →
  dataset te ≠ [] → 0 < batch_size te →
  ∃ w' t,
    epochs_cell tr te m nn_CrossEntropyLoss opt w = Some (tt, w')
    ∧ trace w' = trace w ++ t
    ∧ (∀ lr, EvStep lr ∈ t → lr = c1e_3)
    ∧ count_steps t = 20 * loader_len tr
    ∧ heap w !! opt = Some (OOptimizer c1e_3 (parameters m))
    ∧ heap w' !! opt = Some (OOptimizer c1e_3 (parameters m))
    ∧ heap w' = Nat.iter 20 (epoch_heap m tr) (heap w).
Proof.
  intros Hinv Htr Hte Hne Hbs.
  destruct (epochs_cell_spec tr te m opt w Hinv Htr Hte Hne Hbs)
    as (w' & E & Hh & Ht & _ & _ & (_ & Hopt' & _)).
  exists w', (concat (replicate 20 (epoch_trace (loader_len tr)))).
  split; [exact E|]. clear E. split; [exact Ht|]. split.
  { intros lr. apply epochs_trace_lr. }
  split; [apply count_steps_epochs|].
  split; [by destruct Hinv as (_ & ? & _)|]. split; [exact Hopt'|exact Hh].
Qed.

(** C7. The saving cell makes one call of [torch.save]: it writes the
    dictionary that maps the eight parameter names to the data of the
    model's parameters to the file [.\model]; no other file changes, and
    no object in memory changes. *)
Theorem C7_save_single_write m w :
  arch (heap w) m →
  ∃ w' ds,
    save_cell m w = Some (tt, w')
    ∧ param_data (heap w) <$> parameters m = Some <$> ds
    ∧ files w' = <[".\model" := pickle (list_to_map (zip names ds))]> (files w)
    ∧ dom (list_to_map (zip names ds) : gmap string (Tensor R)) = list_to_set names
    ∧ (∀ p, p ≠ ".\model" → files w' !! p = files w !! p)
    ∧ trace w' = trace w ++ [EvSave ".\model"]
    ∧ heap w' = heap w.
Proof.
  intros Ha. destruct (arch_data _ _ Ha) as (ds & Hds & Hsh).
  eexists _, ds. split; [by apply save_cell_spec|].
  cbn [heap files trace].
  split; [by apply Forall2_param_data_fmap|]. split; [reflexivity|].
  split.
  { rewrite dom_list_to_map_L, fst_zip; [done|].
    apply Forall2_length in Hsh. rewrite Hsh. cbn. lia. }
  split; [|done].
  intros p Hp. rewrite lookup_insert_ne; [done|]. intros E. by apply Hp.
Qed.

(** C8. Neither [test] nor the prediction cell changes a parameter (data
    or gradient) or the optimizer: every object other than the module
    itself, whose mode they set to evaluation, is the same before and
    after, and so is every file. *)
Theorem C8_evaluation_frame (dl : DataLoader R) (test_data : list (Sample R)) m w s :
  arch (heap w) m → Forall wf_sample (dataset dl) →
  dataset dl ≠ [] → 0 < batch_size dl →
  test_data !! 0 = Some s → wf_sample s →
  (∃ w', test dl m nn_CrossEntropyLoss w = Some (tt, w')
     ∧ (∀ l, l ≠ self m → heap w' !! l = heap w !! l)
     ∧ heap w' !! self m = Some (OModule false)
     ∧ files w' = files w)
  ∧ (∃ w', predict_cell test_data m w = Some (tt, w')
       ∧ (∀ l, l ≠ self m → heap w' !! l = heap w !! l)
       ∧ heap w' !! self m = Some (OModule false)
       ∧ files w' = files w).
Proof.
  intros Ha Hds Hne Hbs Hs Hws. split.
  - eexists. split; [by apply test_spec|]. cbn [heap files].
    split; [|split; [apply lookup_insert_eq|done]].
    intros l Hl. by rewrite lookup_insert_ne.
  - destruct (predict_cell_spec test_data m w s Ha Hs Hws)
      as (i & p & a & _ & _ & _ & _ & E).
    eexists. split; [exact E|]. cbn [heap files].
    split; [|split; [apply lookup_insert_eq|done]].
    intros l Hl. by rewrite lookup_insert_ne.
Qed.

(** C10. In the prediction cell the index [pred[0].argmax(0)] is below
    10 and both look-ups in the ten-element list [classes] succeed, for
    the predicted index and for every label below 10. *)
Theorem C10_class_lookup_in_bounds (test_data : list (Sample R)) m w s :
  arch (heap w) m → test_data !! 0 = Some s → wf_sample s →
  length classes = 10
  ∧ (∀ y, y < 10 → is_Some (classes !! y))
  ∧ ∃ i predicted actual w',
      forward (heap w) m (image s) = Some (mkTensor [1; 10] (logits (heap w) m s.1))
      ∧ argmax (logits (heap w) m s.1) = Some i ∧ i < 10
      ∧ classes !! i = Some predicted ∧ classes !! s.2 = Some actual
      ∧ predict_cell test_data m w = Some (tt, w')
      ∧ stdout w' = stdout w ++ [OutPredicted predicted actual].
Proof.
  intros Ha Hs Hws. split; [reflexivity|]. split; [apply classes_lookup|].
  destruct (predict_cell_spec test_data m w s Ha Hs Hws)
    as (i & p & a & Hi & Hb & Hp & Hy & E).
  exists i, p, a. eexists. split.
  { apply forward_image; [done|]. by destruct Hws. }
  do 4 (split; [done|]). split; [exact E|]. reflexivity.
Qed.

End Claims.

Lemma loader_batch_sizes {R} `{Scalar R} (ds : list (Sample R)) q r :
  length ds = q * 64 + r → 0 < r → r < 64 →
  (λ Xy : Tensor R * list nat, len Xy.1) <$> loader_iter (make_loader ds)
  = replicate q 64 ++ [r]
  ∧ (λ Xy : Tensor R * list nat, length Xy.2) <$> loader_iter (make_loader ds)
    = replicate q 64 ++ [r]
  ∧ loader_len (make_loader ds) = S q.
Proof.
  intros Hl Hr Hb. unfold loader_iter, make_loader, loader_len, batch_size_cell.
  cbn [dataset batch_size].
  rewrite <- !list_fmap_compose.
  rewrite <- (batch_sizes_partial ds q 64 r Hl Hr Hb).
  split; [|split].
  - apply list_fmap_ext. intros i b _. reflexivity.
  - apply list_fmap_ext. intros i b _. cbn. apply length_map.
  - rewrite Hl. by apply ceil_div_partial.
Qed.

(** C9. With 60000 training and 10000 test samples and batches of 64,
    the train loader yields 937 batches of 64 and a last one of 32, the
    test loader 156 batches of 64 and a last one of 16: the batches of the
    test set are the 156 consecutive pieces of 64 of its first 9984
    samples, and what remains.  With the loss of a batch being the mean of
    the losses of its samples and arithmetic being exact (rational
    numbers), the average loss [test] prints is the unweighted mean of the
    157 batch means, and it differs from the mean loss per sample exactly
    when the mean loss of the last batch differs from the mean loss of the
    9984 samples of the other batches taken together. *)
Theorem C9_partial_last_batch (sample_loss : list Q → nat → Q)
    (training_data test_data : list (Sample Q)) m
    (w : @World Q _ (Q_torch sample_loss)) :
  Z.of_nat (length training_data) = 60000%Z →
  Z.of_nat (length test_data) = 10000%Z →
  Forall wf_sample test_data → arch (heap w) m →
  ((λ Xy : Tensor Q * list nat, len Xy.1) <$> loader_iter (make_loader training_data)
   = replicate 937 64 ++ [32]
   ∧ loader_len (make_loader training_data) = 938)
  ∧ ((λ Xy : Tensor Q * list nat, len Xy.1) <$> loader_iter (make_loader test_data)
     = replicate 156 64 ++ [16]
     ∧ loader_len (make_loader test_data) = 157)
  ∧ batches 64 test_data
    = chunk 64 156 (take (156 * 64) test_data) ++ [drop (156 * 64) test_data]
  ∧ ∃ w' acc avg,
      @test Q _ (Q_torch sample_loss) (make_loader test_data) m
        (@nn_CrossEntropyLoss Q _ (Q_torch sample_loss)) w = Some (tt, w')
      ∧ stdout w' = stdout w ++ [OutTestError acc avg]
      ∧ (avg == Qmean (map (λ b, Qmean (map (loss_of sample_loss (heap w) m) b))
                         (batches 64 test_data)))%Q
      ∧ (¬ (avg == Qmean (map (loss_of sample_loss (heap w) m) test_data))%Q
         ↔ ¬ (Qmean (map (loss_of sample_loss (heap w) m) (drop (156 * 64) test_data))
              == Qmean (map (loss_of sample_loss (heap w) m)
                          (take (156 * 64) test_data)))%Q).
Proof.
  intros Htr Hte Hwf Ha.
  assert (Htr' : length training_data = 937 * 64 + 32) by lia.
  assert (Hte' : length test_data = 156 * 64 + 16) by lia.
  clear Htr Hte. rename Htr' into Htr, Hte' into Hte.
  destruct (loader_batch_sizes training_data 937 32 Htr) as (T1 & _ & T2); [lia..|].
  destruct (loader_batch_sizes test_data 156 16 Hte) as (S1 & _ & S2); [lia..|].
  split; [by split|]. split; [by split|].
  split; [by apply (batches_partial test_data 156 64 16 Hte); lia|].
  assert (Hne : dataset (make_loader test_data) ≠ []).
  { cbn [make_loader dataset]. intros ->. cbn in Hte. lia. }
  eexists _, _, _. split.
  { apply (@test_spec Q _ (Q_torch sample_loss)); [done|done|done|].
    unfold make_loader, batch_size_cell. cbn. lia. }
  cbn [stdout]. split; [reflexivity|].
  pose proof (test_avg_10000 sample_loss (heap w) m test_data Ha Hwf Hte) as Havg.
  cbv zeta in Havg. unfold loader_len, make_loader, batch_size_cell.
  cbn [dataset batch_size].
  split; [exact (test_avg_mean_of_means sample_loss (heap w) m test_data 64 Ha Hwf)|].
  split; intros Hn Hc; apply Hn; by apply Havg.
Qed.

(** * Further properties of the notebook *)

Section EdgeCases.
Context {R : Type} `{Torch R}.
Implicit Types (h : gmap loc (Obj R)) (w : World R) (m : NeuralNetwork).

Lemma ceil_div_0 k : ceil_div 0 k = 0.
Proof.
  unfold ceil_div. destruct k as [|k]; [reflexivity|].
  apply Nat.div_small. lia.
Qed.

Lemma batches_nil {A} bs : batches bs ([] : list A) = [].
Proof. unfold batches. cbn [length]. by rewrite ceil_div_0. Qed.

Lemma batches_cons_head {A} bs (l : list A) :
  0 < bs → l ≠ [] →
  ∃ rest, batches bs l = take bs l :: rest.
Proof.
  intros Hbs Hl. unfold batches.
  assert (Hn : 0 < length l) by (destruct l; [done|cbn; lia]).
  pose proof (ceil_div_pos (length l) bs Hn Hbs) as Hc.
  destruct (ceil_div (length l) bs) as [|c]; [lia|].
  rewrite chunk_cons. eauto.
Qed.

(** X1. The cell that prints the shapes of the first test batch: it
    prints nothing for an empty data set, otherwise the shapes of one batch
    only, [min 64 n] images of 1 x 28 x 28 and as many labels; it changes
    nothing but the output. *)
Theorem X1_shapes_cell (ds : list (Sample R)) w :
  ∃ w',
    shapes_cell (make_loader ds) w = Some (tt, w')
    ∧ heap w' = heap w ∧ files w' = files w ∧ trace w' = trace w
    ∧ stdout w'
      = stdout w ++
        match ds with
        | [] => []
        | _ => [OutShapes [length ds `min` 64; 1; 28; 28] [length ds `min` 64]]
        end.
Proof.
  unfold shapes_cell, loader_iter, make_loader, batch_size_cell.
  cbn [dataset batch_size].
  destruct ds as [|s ds].
  - rewrite batches_nil. cbn [map]. exists w. unfold ret.
    by rewrite app_nil_r.
  - destruct (batches_cons_head 64 (s :: ds)) as (rest & ->); [lia|done|].
    cbn [map]. unfold collate at 1. eexists. split; [reflexivity|].
    cbn [heap files trace stdout shape].
    rewrite length_map, length_take, Nat.min_comm. done.
Qed.

(** X2. [test] on an empty data set raises: the division by the number
    of batches, which is 0, fails. *)
Theorem X2_test_empty_raises (dl : DataLoader R) m
    (loss_fn : Tensor R → list nat → option R) w :
  dataset dl = [] → test dl m loss_fn w = None.
Proof.
  intros Hds. unfold test, loader_iter, loader_len. rewrite Hds, batches_nil.
  cbn [length map]. rewrite ceil_div_0. mred.
  destruct (set_training m false _) as [[[] w1]|]; [|reflexivity].
  cbn [fold_loop]. mred. unfold py_div. rewrite decide_True by done. reflexivity.
Qed.

(** X3. The prediction cell on an empty test set raises: there is no
    [test_data[0]]. *)
Theorem X3_predict_empty_raises m w : predict_cell [] m w = None.
Proof.
  unfold predict_cell. mred.
  destruct (set_training m false w) as [[[] w1]|]; reflexivity.
Qed.

(** X4. [forward] raises on an input that is not a batch of 784 values
    per row: a tensor with fewer than two dimensions cannot be flattened,
    and rows of another length do not fit the first linear layer. *)
Theorem X4_forward_rejects_other_sizes h m x :
  arch h m →
  (length (shape x) < 2 ∨ numel (drop 1 (shape x)) ≠ 784) →
  forward h m x = None.
Proof.
  intros Ha Hx. unfold forward, Flatten.
  destruct (shape x) as [|n [|d s]] eqn:Hs; [reflexivity|reflexivity|].
  destruct Hx as [Hx|Hx]; [cbn in Hx; lia|].
  cbn [drop] in Hx. cbn [mbind option_bind].
  destruct (arch_concrete _ _ Ha)
    as (a0 & b0 & a2 & b2 & a4 & b4 & a6 & b6 & Hst & Hps & _ & F).
  rewrite Hst. unfold stack_of. cbn [Sequential apply_layer].
  rewrite Hps in F. unfold param_shapes in F.
  apply Forall2_cons in F as [P0 F]. apply Forall2_cons in F as [Q0 _].
  apply is_param_data in P0 as (W & -> & HsW & _).
  apply is_param_data in Q0 as (B & -> & HsB & _).
  cbn [mbind option_bind]. unfold F_linear. rewrite HsW. cbn [shape rev app].
  rewrite decide_False; [reflexivity|]. intros [E _]. by apply Hx.
Qed.

End EdgeCases.

Section MoreProps.
Context {R : Type} `{Torch R}.
Implicit Types (h : gmap loc (Obj R)) (w : World R) (m : NeuralNetwork).

(** X5. The loading cell raises when no file [.\model] exists (or when
    what it holds cannot be deserialized). *)
Theorem X5_load_without_file_raises w :
  files w !! ".\model" ≫= unpickle = None → load_cell w = None.
Proof.
  intros Hfile.
  destruct (NeuralNetwork_init_spec w)
    as (m' & w1 & E1 & _ & _ & _ & _ & _ & Hf1 & _ & _).
  unfold load_cell, torch_load. mred. rewrite E1. clear E1. mred.
  rewrite Hf1. unfold model_path. rewrite Hfile. reflexivity.
Qed.

Lemma load_loop_mismatch (sd : gmap string (Tensor R)) k l (t d : Tensor R) g :
  ∀ (nps : list (string * loc)) i w,
  NoDup nps.*2 → (k, l) ∈ nps →
  sd !! k = Some t → heap w !! l = Some (OParameter d g) → shape t ≠ shape d →
  for_each (λ _, load_param sd) i nps w = None.
Proof.
  induction nps as [|[k0 l0] nps IH]; intros i w Hnd Hin Hk Hl Hsh.
  - by apply elem_of_nil in Hin.
  - cbn [fmap list_fmap snd] in Hnd. apply NoDup_cons in Hnd as [Hl0 Hnd].
    cbn [for_each]. unfold bind at 1.
    apply elem_of_cons in Hin as [Hin|Hin].
    + injection Hin as <- <-. unfold load_param. mred. cbn [fst snd].
      rewrite Hk, Hl. by rewrite decide_False.
    + assert (Hne : l ≠ l0).
      { intros ->. apply Hl0. apply list_elem_of_fmap. by exists (k, l0). }
      unfold load_param at 1. mred. cbn [fst snd].
      destruct (sd !! k0) as [t0|]; [|reflexivity].
      destruct (heap w !! l0) as [[d0 g0| |]|]; try reflexivity.
      destruct (decide (shape t0 = shape d0)); [|reflexivity].
      apply (IH (S i)); try done. cbn [heap]. by rewrite lookup_insert_ne.
Qed.

(** X6. [load_state_dict] is strict: a dictionary whose keys are not
    exactly the eight parameter names is refused, and so is one that
    holds, under a parameter's name, a tensor of another shape. *)
Theorem X6_load_state_dict_strict m (sd : gmap string (Tensor R)) w :
  arch (heap w) m →
  (dom sd ≠ list_to_set names
   ∨ ∃ i k l s t, names !! i = Some k ∧ parameters m !! i = Some l
       ∧ param_shapes !! i = Some s ∧ sd !! k = Some t ∧ shape t ≠ s) →
  load_state_dict m sd w = None.
Proof.
  intros Ha Hbad. unfold load_state_dict.
  destruct (arch_concrete _ _ Ha)
    as (a0 & b0 & a2 & b2 & a4 & b4 & a6 & b6 & Hst & Hps & Hnp & F).
  assert (Hn : (named_parameters m).*1 = names) by (by rewrite Hnp).
  rewrite Hn. destruct Hbad as [Hdom|(i & k & l & s & t & Hk & Hl & Hs & Hsd & Hsh)].
  { by rewrite decide_False. }
  destruct (decide _); [|reflexivity].
  destruct (Forall2_lookup_lr _ _ _ i l s F Hl Hs) as (d & g & Hd & Hds & _).
  apply (load_loop_mismatch sd k l t d g).
  - rewrite Hnp, snd_zip; [|cbn; lia].
    rewrite <- Hps. by destruct Ha as (_ & _ & ? & _).
  - rewrite Hnp, <- Hps. apply list_elem_of_lookup. exists i.
    apply lookup_zip_with_Some. by exists k, l.
  - done.
  - done.
  - by rewrite Hds.
Qed.

(** X7. [test] can be repeated: a second call right after the first
    prints the same line again (the first call changed the mode of the
    module only). *)
Theorem X7_test_repeatable (dl : DataLoader R) m w :
  arch (heap w) m → Forall wf_sample (dataset dl) →
  dataset dl ≠ [] → 0 < batch_size dl →
  ∃ w1 w2 line,
    test dl m nn_CrossEntropyLoss w = Some (tt, w1)
    ∧ test dl m nn_CrossEntropyLoss w1 = Some (tt, w2)
    ∧ stdout w1 = stdout w ++ [line]
    ∧ stdout w2 = stdout w ++ [line; line]
    ∧ heap w2 = heap w1.
Proof.
  intros Ha Hds Hne Hbs. pose proof Ha as (_ & _ & _ & b0 & Hself).
  pose proof (test_spec dl m w Ha Hds Hne Hbs) as E1.
  set (w1 := mkWorld _ _ _ _ _) in E1.
  assert (Ha1 : arch (heap w1) m) by (by apply arch_set_training).
  pose proof (test_spec dl m w1 Ha1 Hds Hne Hbs) as E2.
  eexists w1, _, _. split; [exact E1|]. split; [exact E2|].
  unfold w1. cbn [heap stdout]. split; [reflexivity|]. split.
  - rewrite (correct_count_set_training _ _ b0) by done.
    rewrite (map_ext (batch_loss_value (<[self m := OModule false]> (heap w)) m)
               (batch_loss_value (heap w) m)).
    + by rewrite <- app_assoc.
    + intros b. by apply (batch_loss_value_set_training _ _ b0).
  - by rewrite insert_insert_eq.
Qed.

(** X8. Saving, loading and saving the restored model again writes the
    same content: the file after the second save is the file after the
    first. *)
Theorem X8_save_load_save m w :
  (∀ sd, unpickle (pickle sd) = Some sd) →
  arch (heap w) m →
  ∃ w1 m' w2 w3,
    save_cell m w = Some (tt, w1)
    ∧ load_cell w1 = Some (m', w2)
    ∧ save_cell m' w2 = Some (tt, w3)
    ∧ files w3 = files w1
    ∧ heap w3 = heap w2.
Proof.
  intros Hrt Ha.
  destruct (arch_data _ _ Ha) as (ds & Hds & Hsh).
  pose proof (save_cell_spec m w ds Ha Hds) as E1.
  set (w1 := mkWorld _ _ _ _ _) in E1.
  assert (Hfile : files w1 !! model_path ≫= unpickle
                  = Some (list_to_map (zip names ds))).
  { unfold w1. cbn [files]. rewrite lookup_insert_eq. cbn. apply Hrt. }
  destruct (load_cell_spec w1 ds Hfile Hsh)
    as (m' & w2 & E2 & Ha' & Hds' & _ & _ & Hf2 & _).
  pose proof (save_cell_spec m' w2 ds Ha' Hds') as E3.
  eexists w1, m', w2, _. split; [exact E1|]. split; [exact E2|]. clear E1 E2.
  split; [exact E3|]. cbn [files heap]. split; [|reflexivity].
  rewrite Hf2. unfold w1. cbn [files]. by rewrite insert_insert_eq.
Qed.

End MoreProps.

Section Printing.
Context {R : Type} `{Torch R}.
Implicit Types (h : gmap loc (Obj R)) (w : World R) (m : NeuralNetwork).

Lemma bind_Some_inv {A B} (c : M R A) (k : A → M R B) w r :
  bind c k w = Some r → ∃ a w1, c w = Some (a, w1) ∧ k a w1 = Some r.
Proof.
  unfold bind. destruct (c w) as [[a w1]|]; [|discriminate]. eauto.
Qed.

(** What one iteration of [train] prints. *)
Lemma train_batch_stdout m (loss_fn : Tensor R → list nat → option R) opt size i
    (X : Tensor R) (y : list nat) w w' :
  train_batch m loss_fn opt size i (X, y) w = Some (tt, w') →
  ∃ loss, batch_loss m loss_fn X y (heap w) = Some loss
    ∧ stdout w'
      = stdout w ++ (if decide (i mod 100 = 0)
                     then [OutLoss loss ((i + 1) * len X) size] else []).
Proof.
  unfold train_batch, backward, optimizer_step, optimizer_zero_grad, batch_loss.
  mred. intros E.
  destruct (forward (heap w) m X) as [pred|]; [|discriminate E].
  cbn [mbind option_bind]. revert E. mred.
  destruct (loss_fn pred y) as [loss|]; [|discriminate]. mred.
  destruct (for_params _ _ _) as [h1|]; [|discriminate]. mred.
  destruct (h1 !! opt) as [[| |lr ps]|]; try discriminate. mred.
  destruct (for_params _ _ _) as [h2|]; [|discriminate]. mred.
  destruct (h2 !! opt) as [[| |lr' ps']|]; try discriminate. mred.
  destruct (for_params _ _ _) as [h3|]; [|discriminate]. mred.
  exists loss. split; [reflexivity|].
  case_decide; revert E; mred; intros [= <-]; cbn [stdout];
    [reflexivity|by rewrite app_nil_r].
Qed.

(** What the loop of [train] prints. *)
Lemma train_loop_stdout m (loss_fn : Tensor R → list nat → option R) opt size
    (Xys : list (Tensor R * list nat)) : ∀ i w w',
  for_each (train_batch m loss_fn opt size) i Xys w = Some (tt, w') →
  ∃ outs, stdout w' = stdout w ++ outs
    ∧ Forall2 (λ o p, ∃ loss, o = OutLoss loss p.1 p.2) outs
        (omap (λ jX : nat * (Tensor R * list nat),
                 progress_at size jX.1 (len jX.2.1))
           (zip (seq i (length Xys)) Xys)).
Proof.
  induction Xys as [|[X y] Xys IH]; intros i w w' E.
  - cbn in E. injection E as <-. exists []. rewrite app_nil_r. split; [done|constructor].
  - cbn [for_each] in E. apply bind_Some_inv in E as ([] & w1 & E1 & E2).
    apply train_batch_stdout in E1 as (loss & _ & Ho1).
    apply IH in E2 as (outs & Ho2 & F).
    cbn [length seq zip zip_with omap list_omap fst snd]. unfold progress_at at 1.
    rewrite Ho2, Ho1, <- app_assoc. eexists. split; [reflexivity|].
    case_decide; cbn [app]; [|exact F].
    constructor; [by exists loss|exact F].
Qed.

Lemma set_training_stdout m b w w' :
  set_training m b w = Some (tt, w') →
  stdout w' = stdout w ∧ files w' = files w ∧ trace w' = trace w.
Proof.
  unfold set_training. mred.
  destruct (heap w !! self m) as [[| |]|]; try discriminate.
  by intros [= <-].
Qed.

(** What a call of [train] prints: one line for each batch whose number
    is a multiple of 100, with the number of samples seen so far counted
    as [(batch + 1) * len(X)]. *)
Lemma train_stdout (dl : DataLoader R) m
    (loss_fn : Tensor R → list nat → option R) opt w w' :
  train dl m loss_fn opt w = Some (tt, w') →
  ∃ outs, stdout w' = stdout w ++ outs
    ∧ Forall2 (λ o p, ∃ loss, o = OutLoss loss p.1 p.2) outs
        (omap (λ jn : nat * nat, progress_at (length (dataset dl)) jn.1 jn.2)
           (zip (seq 0 (loader_len dl))
              (length <$> batches (batch_size dl) (dataset dl)))).
Proof.
  unfold train. intros E. apply bind_Some_inv in E as ([] & w1 & E1 & E2).
  apply set_training_stdout in E1 as (Ho1 & _).
  apply train_loop_stdout in E2 as (outs & Ho2 & F).
  exists outs. split; [by rewrite Ho2, Ho1|].
  unfold loader_iter in F. rewrite length_map, length_batches in F.
  unfold loader_len.
  assert (Hz : ∀ (js : list nat) (bs : list (list (Sample R))),
            omap (λ jX : nat * (Tensor R * list nat),
                    progress_at (length (dataset dl)) jX.1 (len jX.2.1))
              (zip js (map collate bs))
            = omap (λ jn : nat * nat, progress_at (length (dataset dl)) jn.1 jn.2)
                (zip js (length <$> bs))).
  { clear. intros js bs. revert js. induction bs as [|b bs IH]; intros [|j js];
      try reflexivity.
    cbn [map fmap list_fmap zip zip_with omap list_omap fst snd].
    fold (@fmap list _ _ _ (@length (Sample R)) bs).
    change (len (collate b).1) with (length b).
    specialize (IH js). cbn [zip] in IH. rewrite IH. reflexivity. }
  by rewrite Hz in F.
Qed.

End Printing.

Lemma omap_ext {A B} (f g : A → option B) (l : list A) :
  (∀ x, x ∈ l → f x = g x) → omap f l = omap g l.
Proof.
  induction l as [|x l IH]; intros Hfg; [done|]. cbn [omap list_omap].
  rewrite (Hfg x) by left. rewrite IH; [done|]. intros y Hy. apply Hfg. by right.
Qed.

Lemma fmap_omap {A B C} (f : A → option B) (g : B → C) (l : list A) :
  g <$> omap f l = omap (λ x, g <$> f x) l.
Proof.
  induction l as [|x l IH]; [done|]. cbn [omap list_omap].
  destruct (f x); cbn; by rewrite IH.
Qed.

Lemma Forall2_progress {R} (outs : list (Output R)) (ps : list (nat * nat)) :
  Forall2 (λ o p, ∃ loss, o = OutLoss loss p.1 p.2) outs ps →
  omap progress_of outs = ps.
Proof.
  induction 1 as [|o [c s] outs ps (loss & ->) _ IH]; [done|].
  cbn. by rewrite IH.
Qed.

Section Progress.
Context {R : Type} `{Torch R}.
Implicit Types (h : gmap loc (Obj R)) (w : World R) (m : NeuralNetwork).

(** X9. One call of [train] on 60000 training samples prints ten
    progress lines, for the batches 0, 100, ..., 900, showing
    [64/60000], [6464/60000], ..., [57664/60000]: the count
    [(batch + 1) * len(X)] of the samples seen so far, as in the recorded
    output of the notebook. *)
Theorem X9_train_progress_lines (training_data : list (Sample R)) m opt w :
  train_inv (heap w) m opt → Forall wf_sample training_data →
  Z.of_nat (length training_data) = 60000%Z →
  ∃ w' outs,
    train (make_loader training_data) m nn_CrossEntropyLoss opt w = Some (tt, w')
    ∧ stdout w' = stdout w ++ outs
    ∧ Forall (λ o, ∃ loss c s, o = OutLoss loss c s) outs
    ∧ prod_map Z.of_nat Z.of_nat <$> omap progress_of outs
      = [(64, 60000); (6464, 60000); (12864, 60000); (19264, 60000);
         (25664, 60000); (32064, 60000); (38464, 60000); (44864, 60000);
         (51264, 60000); (57664, 60000)]%Z.
Proof.
  intros Hinv Hds Hlen.
  assert (Hlen' : length training_data = 937 * 64 + 32) by lia.
  destruct (train_spec (make_loader training_data) m opt w Hinv Hds)
    as (w' & E & _).
  destruct (train_stdout _ _ _ _ _ _ E) as (outs & Ho & F).
  exists w', outs. split; [exact E|]. clear E. split; [exact Ho|]. split.
  { clear -F. induction F as [|o p outs ps (loss & ->) _ IH]; constructor; eauto. }
  rewrite (Forall2_progress _ _ F). clear F.
  destruct (loader_batch_sizes training_data 937 32 Hlen') as (_ & _ & Hn); [lia..|].
  rewrite Hn. unfold make_loader, batch_size_cell. cbn [dataset batch_size].
  rewrite (batch_sizes_partial training_data 937 64 32 Hlen') by lia.
  rewrite fmap_omap.
  rewrite (omap_ext _ (λ jn : nat * nat,
             if decide (jn.1 mod 100 = 0)
             then Some ((Z.of_nat (jn.1 + 1) * Z.of_nat jn.2)%Z, 60000%Z)
             else None)).
  - vm_compute. reflexivity.
  - intros [j n] _. unfold progress_at. cbn [fst snd]. case_decide; [|done].
    cbn. by rewrite Nat2Z.inj_mul, Hlen.
Qed.

End Progress.

Section EpochOutput.
Context {R : Type} `{Torch R}.
Implicit Types (h : gmap loc (Obj R)) (w : World R) (m : NeuralNetwork).

Lemma test_batch_world m (loss_fn : Tensor R → list nat → option R)
    acc Xy w acc' w' :
  test_batch m loss_fn acc Xy w = Some (acc', w') → w' = w.
Proof.
  unfold test_batch. destruct acc as [tl c], Xy as [X y]. mred.
  destruct (forward (heap w) m X) as [pred|]; [|discriminate]. mred.
  destruct (loss_fn pred y) as [l|]; [|discriminate]. mred.
  destruct (argmax_dim1 pred) as [am|]; [|discriminate]. mred.
  by intros [= _ <-].
Qed.

Lemma test_loop_world m (loss_fn : Tensor R → list nat → option R)
    (Xys : list (Tensor R * list nat)) : ∀ acc w acc' w',
  fold_loop (test_batch m loss_fn) acc Xys w = Some (acc', w') → w' = w.
Proof.
  induction Xys as [|Xy Xys IH]; intros acc w acc' w' E.
  - cbn in E. by injection E as _ <-.
  - cbn [fold_loop] in E. apply bind_Some_inv in E as (acc1 & w1 & E1 & E2).
    apply test_batch_world in E1 as ->. by apply IH in E2.
Qed.

(** What a call of [test] prints: one line. *)
Lemma test_stdout (dl : DataLoader R) m
    (loss_fn : Tensor R → list nat → option R) w w' :
  test dl m loss_fn w = Some (tt, w') →
  ∃ a b, stdout w' = stdout w ++ [OutTestError a b].
Proof.
  unfold test. intros E.
  apply bind_Some_inv in E as ([] & w0 & E0 & E). unfold log in E0.
  injection E0 as <-.
  apply bind_Some_inv in E as ([] & w1 & E1 & E).
  apply set_training_stdout in E1 as (Ho1 & _). cbn [stdout] in Ho1.
  apply bind_Some_inv in E as ([tl c] & w2 & E2 & E).
  apply test_loop_world in E2 as ->.
  apply bind_Some_inv in E as (a & w3 & E3 & E).
  unfold py_div in E3. case_decide; [discriminate E3|]. injection E3 as <- <-.
  apply bind_Some_inv in E as (b & w4 & E4 & E).
  unfold py_div in E4. case_decide; [discriminate E4|]. injection E4 as <- <-.
  unfold print in E. injection E as <-. cbn [stdout]. rewrite Ho1. eauto.
Qed.

Lemma omap_epoch_no_loss (outs : list (Output R)) :
  Forall is_loss_line outs → omap epoch_no outs = [].
Proof. induction 1 as [|o outs (l & c & s & ->) _ IH]; [done|]. exact IH. Qed.

Lemma filter_test_loss (outs : list (Output R)) :
  Forall is_loss_line outs → filter (λ o, is_test_line o = true) outs = [].
Proof.
  induction 1 as [|o outs (l & c & s & ->) _ IH]; [done|].
  rewrite filter_cons. cbn. exact IH.
Qed.

(** What one epoch prints: its header, the progress lines of [train],
    the line of [test]. *)
Lemma epoch_stdout (tr te : DataLoader R) m
    (loss_fn : Tensor R → list nat → option R) opt t w w' :
  epoch tr te m loss_fn opt t w = Some (tt, w') →
  ∃ louts a b,
    stdout w' = stdout w ++ OutEpoch (t + 1) :: louts ++ [OutTestError a b]
    ∧ Forall is_loss_line louts.
Proof.
  unfold epoch. intros E.
  apply bind_Some_inv in E as ([] & w0 & E0 & E). unfold print in E0.
  injection E0 as <-.
  apply bind_Some_inv in E as ([] & w1 & E1 & E).
  apply train_stdout in E1 as (louts & Ho1 & F). cbn [stdout] in Ho1.
  apply test_stdout in E as (a & b & Ho2).
  exists louts, a, b. split.
  - rewrite Ho2, Ho1, <- !app_assoc. reflexivity.
  - clear -F. induction F as [|o p outs ps (loss & ->) _ IH]; constructor;
      [by eexists _, _, _|exact IH].
Qed.

Lemma epochs_loop_stdout (tr te : DataLoader R) m
    (loss_fn : Tensor R → list nat → option R) opt n : ∀ t w w',
  for_each (λ t (_ : nat), epoch tr te m loss_fn opt t) t (seq t n) w
  = Some (tt, w') →
  ∃ outs, stdout w' = stdout w ++ outs
    ∧ omap epoch_no outs = seq (t + 1) n
    ∧ length (filter (λ o, is_test_line o = true) outs) = n.
Proof.
  induction n as [|n IH]; intros t w w' E.
  - cbn in E. injection E as <-. exists []. by rewrite app_nil_r.
  - cbn [seq for_each] in E. apply bind_Some_inv in E as ([] & w1 & E1 & E2).
    apply epoch_stdout in E1 as (louts & a & b & Ho1 & Hl).
    apply IH in E2 as (outs & Ho2 & He & Hc).
    exists (OutEpoch (t + 1) :: louts ++ [OutTestError a b] ++ outs).
    split; [|split].
    + rewrite Ho2, Ho1, <- !app_assoc. cbn [app]. by rewrite <- app_assoc.
    + cbn [omap list_omap epoch_no]. rewrite !omap_app, omap_epoch_no_loss by done.
      cbn [omap list_omap epoch_no app seq]. rewrite He.
      by replace (S t + 1) with (S (t + 1)) by lia.
    + rewrite filter_cons. cbn [is_test_line].
      rewrite decide_False by discriminate.
      rewrite !filter_app, filter_test_loss by done.
      rewrite filter_cons. cbn [is_test_line]. rewrite decide_True by done.
      rewrite filter_nil. cbn [app length]. rewrite Hc. reflexivity.
Qed.

(** X10. The epoch cell prints the headers of the epochs 1 to 20 in
    order, exactly 20 reports of [test], and last the line [Done!]. *)
Theorem X10_epochs_cell_output (tr te : DataLoader R) m opt w :
  train_inv (heap w) m opt →
  Forall wf_sample (dataset tr) → Forall wf_sample (dataset te) →
  dataset te ≠ [] → 0 < batch_size te →
  ∃ w' outs,
    epochs_cell tr te m nn_CrossEntropyLoss opt w = Some (tt, w')
    ∧ stdout w' = stdout w ++ outs
    ∧ omap epoch_no outs = seq 1 20
    ∧ length (filter (λ o, is_test_line o = true) outs) = 20
    ∧ last outs = Some (OutText "Done!").
Proof.
  intros Hinv Htr Hte Hne Hbs.
  destruct (epochs_cell_spec tr te m opt w Hinv Htr Hte Hne Hbs) as (w' & E & _).
  pose proof E as E'. unfold epochs_cell, epochs in E'.
  apply bind_Some_inv in E' as ([] & w1 & E1 & E2).
  apply epochs_loop_stdout in E1 as (outs & Ho & He & Hc).
  unfold print in E2. injection E2 as Hw'.
  exists w', (outs ++ [OutText "Done!"]). split; [exact E|]. clear E.
  split; [by rewrite <- Hw'; cbn [stdout]; rewrite Ho, app_assoc|].
  split; [|split].
  - rewrite omap_app. cbn [omap list_omap epoch_no]. by rewrite app_nil_r.
  - rewrite filter_app, length_app, Hc, filter_cons. cbn [is_test_line].
    rewrite decide_False by discriminate. reflexivity.
  - apply last_snoc.
Qed.

End EpochOutput.

Section TrainFrame.
Context {R : Type} `{Torch R}.
Implicit Types (h : gmap loc (Obj R)) (w : World R) (m : NeuralNetwork).

Lemma sgd_heap_other lr f ps h l :
  l ∉ ps → sgd_heap lr f ps h !! l = h !! l.
Proof.
  intros Hl. rewrite sgd_heap_lookup.
  destruct (h !! l) as [[d g| |]|]; try reflexivity.
  by rewrite decide_False.
Qed.

Lemma sgd_heap_is_Some lr f ps h l :
  is_Some (sgd_heap lr f ps h !! l) ↔ is_Some (h !! l).
Proof.
  rewrite sgd_heap_lookup.
  destruct (h !! l) as [[d g| |]|]; try reflexivity.
  case_decide; split; eauto.
Qed.

Lemma sgd_steps_frame {A} (f : A → gmap loc (Obj R) → option R) lr ps
    (xs : list A) : ∀ h,
  let h' := foldl (λ h x, sgd_heap lr (f x) ps h) h xs in
  (∀ l, l ∉ ps → h' !! l = h !! l)
  ∧ (∀ l, is_Some (h' !! l) ↔ is_Some (h !! l))
  ∧ (∀ l s, is_param h l s → is_param h' l s).
Proof.
  induction xs as [|x xs IH]; intros h; cbn [foldl]; [done|].
  destruct (IH (sgd_heap lr (f x) ps h)) as (I1 & I2 & I3).
  split; [|split].
  - intros l Hl. rewrite I1 by done. by apply sgd_heap_other.
  - intros l. rewrite I2. apply sgd_heap_is_Some.
  - intros l s Hp. apply I3. by apply is_param_sgd_heap.
Qed.

(** X11. What [train] leaves alone: it allocates nothing and frees
    nothing, writes no file, switches the model to training mode, and
    changes no object but the model's parameters and mode flag; every
    parameter keeps its shape, and the optimizer is still bound to the
    model's parameters with the same learning rate. *)
Theorem X11_train_frame (dl : DataLoader R) m opt w :
  train_inv (heap w) m opt → Forall wf_sample (dataset dl) →
  ∃ w', train dl m nn_CrossEntropyLoss opt w = Some (tt, w')
    ∧ dom (heap w') = dom (heap w)
    ∧ (∀ l, l ∉ parameters m → l ≠ self m → heap w' !! l = heap w !! l)
    ∧ heap w' !! self m = Some (OModule true)
    ∧ heap w' !! opt = Some (OOptimizer c1e_3 (parameters m))
    ∧ (∀ l s, is_param (heap w) l s → is_param (heap w') l s)
    ∧ files w' = files w.
Proof.
  intros Hinv Hds.
  destruct (train_spec dl m opt w Hinv Hds) as (w' & E & Hh & _ & Hf & _ & Hinv').
  exists w'. split; [exact E|]. clear E.
  destruct Hinv as ((_ & _ & _ & b & Hself) & _ & _).
  destruct (sgd_steps_frame
              (λ Xy : Tensor R * list nat, batch_loss m nn_CrossEntropyLoss Xy.1 Xy.2)
              c1e_3 (parameters m) (loader_iter dl)
              (<[self m := OModule true]> (heap w))) as (I1 & I2 & I3).
  cbv zeta in I1, I2, I3. rewrite <- Hh in I1, I2, I3.
  destruct Hinv' as ((_ & _ & _ & b' & Hs') & Ho' & Hg').
  assert (Hnp : self m ∉ parameters m).
  { intros Hin. destruct (Hg' _ Hin) as (d & Hd). congruence. }
  split; [|split; [|split; [|split; [|split]]]].
  - apply set_eq. intros l. rewrite !elem_of_dom, I2.
    destruct (decide (l = self m)) as [->|Hne].
    + rewrite lookup_insert_eq, Hself. split; eauto.
    + by rewrite lookup_insert_ne.
  - intros l Hl Hne. rewrite I1 by done. by rewrite lookup_insert_ne.
  - rewrite I1 by done. apply lookup_insert_eq.
  - exact Ho'.
  - intros l s (d & g & Hl & Hs & Hw). apply I3. exists d, g.
    split; [|done]. rewrite lookup_insert_ne; [done|]. intros <-. congruence.
  - exact Hf.
Qed.

End TrainFrame.

Section LoaderCover.
Context {R : Type} `{Scalar R}.

Lemma chunk_piece_length {A} (l : list A) k : ∀ n,
  0 < k → n * k < length l + k →
  Forall (λ b, 0 < length b ≤ k) (chunk k n l).
Proof.
  intros n Hk Hn. unfold chunk. apply Forall_map, Forall_forall.
  intros i Hi%elem_of_seq. cbn. rewrite length_take, length_drop. nia.
Qed.

Lemma collate_labels (B : list (list (Sample R))) :
  concat ((λ Xy : Tensor R * list nat, Xy.2) <$> (collate <$> B))
  = snd <$> concat B.
Proof.
  induction B as [|b B IH]; [done|].
  cbn [fmap list_fmap concat]. rewrite fmap_app. f_equal. exact IH.
Qed.

Lemma collate_pixels (B : list (list (Sample R))) :
  concat ((λ Xy : Tensor R * list nat, data Xy.1) <$> (collate <$> B))
  = concat (fst <$> concat B).
Proof.
  induction B as [|b B IH]; [done|].
  cbn [fmap list_fmap concat]. rewrite fmap_app, concat_app. f_equal. exact IH.
Qed.

(** X12. Iterating a data loader yields every sample exactly once and in
    the order of the data set: the labels and the pixels of the batches,
    put end to end, are those of the data set; there are [len(dataloader)]
    batches, none empty, none larger than the batch size, each an image
    tensor of shape [n; 1; 28; 28] with its [n] labels. *)
Theorem X12_loader_covers_dataset (dl : DataLoader R) :
  0 < batch_size dl →
  concat ((λ Xy : Tensor R * list nat, Xy.2) <$> loader_iter dl)
  = snd <$> dataset dl
  ∧ concat ((λ Xy : Tensor R * list nat, data Xy.1) <$> loader_iter dl)
    = concat (fst <$> dataset dl)
  ∧ length (loader_iter dl) = loader_len dl
  ∧ Forall (λ Xy : Tensor R * list nat,
        ∃ n, 0 < n ≤ batch_size dl
          ∧ shape Xy.1 = [n; 1; 28; 28] ∧ length Xy.2 = n)
      (loader_iter dl).
Proof.
  intros Hbs. unfold loader_iter, loader_len.
  pose proof (concat_batches (batch_size dl) (dataset dl) Hbs) as Hc.
  split; [|split; [|split]].
  - rewrite <- Hc at 2. apply collate_labels.
  - rewrite <- Hc at 2. apply collate_pixels.
  - by rewrite length_map, length_batches.
  - apply Forall_map. unfold batches.
    eapply Forall_impl.
    { apply chunk_piece_length; [done|].
      by apply (ceil_div_bound (length (dataset dl))). }
    intros b Hb. exists (length b). cbn. by rewrite length_map.
Qed.

End LoaderCover.

Section Notebook.
Context {R : Type} `{Torch R}.
Implicit Types (h : gmap loc (Obj R)) (w : World R) (m : NeuralNetwork).

(** The cell that prints the shapes only prints. *)
Lemma shapes_cell_runs (dl : DataLoader R) w :
  ∃ w', shapes_cell dl w = Some (tt, w')
    ∧ heap w' = heap w ∧ files w' = files w ∧ trace w' = trace w.
Proof.
  unfold shapes_cell. destruct (loader_iter dl) as [|[X y] ?]; by eexists.
Qed.

(** Two networks whose parameters hold the same data give the same
    logits. *)
Lemma logits_same_data h h' m m' (ds : list (Tensor R)) (s : Sample R) :
  arch h m → arch h' m' → length s.1 = 784 →
  Forall2 (λ l d, param_data h l = Some d) (parameters m) ds →
  Forall2 (λ l d, param_data h' l = Some d) (parameters m') ds →
  logits h' m' s.1 = logits h m s.1.
Proof.
  intros Ha Ha' Hs F F'.
  destruct (forward_image h m s Ha Hs) as [E _].
  destruct (forward_image h' m' s Ha' Hs) as [E' _].
  rewrite (forward_same_data h h' m m' ds) in E' by assumption.
  rewrite E in E'. by injection E'.
Qed.

(** X14. The restored model predicts what the saved one predicts: after
    the save cell and the load cell, the prediction cell prints for the
    loaded model the line it prints for the original one. *)
Theorem X14_restored_model_predicts_same (test_data : list (Sample R)) m w s :
  (∀ sd, unpickle (pickle sd) = Some sd) →
  arch (heap w) m → test_data !! 0 = Some s → wf_sample s →
  ∃ w1 m' w2 w3 w4 line,
    save_cell m w = Some (tt, w1)
    ∧ load_cell w1 = Some (m', w2)
    ∧ predict_cell test_data m' w2 = Some (tt, w3)
    ∧ predict_cell test_data m w = Some (tt, w4)
    ∧ stdout w3 = stdout w2 ++ [line]
    ∧ stdout w4 = stdout w ++ [line].
Proof.
  intros Hrt Ha Hs Hwf.
  destruct (arch_data _ _ Ha) as (ds & Hds & Hsh).
  pose proof (save_cell_spec m w ds Ha Hds) as E1.
  set (w1 := mkWorld _ _ _ _ _) in E1.
  assert (Hfile : files w1 !! model_path ≫= unpickle
                  = Some (list_to_map (zip names ds))).
  { unfold w1. cbn [files]. rewrite lookup_insert_eq. cbn. apply Hrt. }
  destruct (load_cell_spec w1 ds Hfile Hsh)
    as (m' & w2 & E2 & Ha' & Hds' & _).
  destruct (predict_cell_spec test_data m' w2 s Ha' Hs Hwf)
    as (i' & p' & a' & Hi' & _ & Hp' & Hy' & E3).
  destruct (predict_cell_spec test_data m w s Ha Hs Hwf)
    as (i & p & a & Hi & _ & Hp & Hy & E4).
  rewrite (logits_same_data (heap w) (heap w2) m m' ds s Ha Ha' (proj1 Hwf) Hds Hds')
    in Hi'.
  assert (i' = i) as -> by congruence.
  assert (p' = p) as -> by congruence.
  assert (a' = a) as -> by congruence.
  eexists w1, m', w2, _, _, (OutPredicted p a).
  split; [exact E1|]. split; [exact E2|]. split; [exact E3|]. split; [exact E4|].
  split; reflexivity.
Qed.

(** X13. Once the two data sets are there, the cells that follow, from
    the data loaders to the prediction, run in order without raising on
    all well-formed samples with a non-empty test set (given that the
    serializer reads back what it wrote).  With [m] the model the model
    cell builds and [trained] the heap after the 20 epochs on it: their
    history is the 20 epochs, then one write of [.\model], then one read
    of it; the only file they change is [.\model], which then holds the
    dictionary of the eight parameters of [m] in [trained]; and the line
    printed last names the class that [m] in [trained] gives to the first
    test image, and that image's label. *)
Theorem X13_cells_after_data_run acc (training_data test_data : list (Sample R))
    s w :
  (∀ sd, unpickle (pickle sd) = Some sd) →
  Forall wf_sample training_data → Forall wf_sample test_data →
  test_data !! 0 = Some s →
  ∃ w0 m w1 opt w2 w' ds i p a,
    shapes_cell (make_loader test_data) w = Some (tt, w0)
    ∧ model_cell acc w0 = Some (m, w1)
    ∧ optimizer_cell m w1 = Some (opt, w2)
    ∧ cells_after_data acc training_data test_data w = Some (tt, w')
    ∧ let trained :=
        Nat.iter 20 (epoch_heap m (make_loader training_data)) (heap w2) in
      trace w'
      = trace w
        ++ concat (replicate 20
             (epoch_trace (loader_len (make_loader training_data))))
        ++ [EvSave model_path; EvLoad model_path]
      ∧ param_data trained <$> parameters m = Some <$> ds
      ∧ files w' = <[model_path := pickle (list_to_map (zip names ds))]> (files w)
      ∧ argmax (logits trained m s.1) = Some i
      ∧ classes !! i = Some p ∧ classes !! s.2 = Some a
      ∧ last (stdout w') = Some (OutPredicted p a).
Proof.
  intros Hrt Htr Hte Hs.
  assert (Hwf : wf_sample s).
  { eapply Forall_lookup_1; [exact Hte|exact Hs]. }
  assert (Hne : test_data ≠ []) by (intros ->; discriminate Hs).
  destruct (shapes_cell_runs (make_loader test_data) w) as (wA & EA & HhA & HfA & HtA).
  destruct (model_cell_spec acc wA) as (m & wB & EB & HaB & HgB & _ & HfB & HtB).
  destruct (optimizer_cell_spec m wB HaB HgB) as (opt & wC & EC & HiC & _ & HfC & HtC).
  destruct (epochs_cell_spec (make_loader training_data) (make_loader test_data)
              m opt wC HiC Htr Hte Hne)
    as (wD & ED & HhD & HtD & HfD & _ & HiD).
  { cbn. unfold batch_size_cell. lia. }
  pose proof HiD as (HaD & _).
  destruct (arch_data _ _ HaD) as (ds & Hds & Hsh).
  pose proof (save_cell_spec m wD ds HaD Hds) as EE.
  set (wE := mkWorld _ _ _ _ _) in EE.
  assert (Hfile : files wE !! model_path ≫= unpickle
                  = Some (list_to_map (zip names ds))).
  { unfold wE. cbn [files]. rewrite lookup_insert_eq. cbn. apply Hrt. }
  destruct (load_cell_spec wE ds Hfile Hsh)
    as (m' & wF & EF & HaF & HdsF & _ & _ & HfF & _ & HtF).
  destruct (predict_cell_spec test_data m' wF s HaF Hs Hwf)
    as (i & p & a & Hi & _ & Hp & Hy & EG).
  rewrite (logits_same_data (heap wD) (heap wF) m m' ds s HaD HaF (proj1 Hwf) Hds HdsF)
    in Hi.
  apply Forall2_param_data_fmap in Hds.
  rewrite HhD in Hi, Hds.
  eexists wA, m, wB, opt, wC, _, ds, i, p, a.
  split; [exact EA|]. split; [exact EB|]. split; [exact EC|].
  split.
  { unfold cells_after_data. unfold bind at 1. rewrite EA.
    unfold bind at 1. rewrite EB. unfold bind at 1. rewrite EC.
    unfold bind at 1. rewrite ED. unfold bind at 1. rewrite EE.
    unfold bind at 1. rewrite EF. exact EG. }
  clear EA EB EC ED EE EF EG.
  cbv zeta. cbn [trace files stdout].
  split.
  { rewrite HtF. unfold wE. cbn [trace]. rewrite HtD, HtC, HtB, HtA.
    rewrite <- !app_assoc. reflexivity. }
  split; [exact Hds|].
  split.
  { rewrite HfF. unfold wE. cbn [files]. rewrite HfD, HfC, HfB, HfA. reflexivity. }
  split; [exact Hi|]. split; [exact Hp|]. split; [exact Hy|].
  apply last_snoc.
Qed.

End Notebook.

Section ModelCell.
Context {R : Type} `{Torch R}.
Implicit Types (h : gmap loc (Obj R)) (w : World R) (m : NeuralNetwork).

(** X15. The cell that builds the model never raises.  It prints the
    line [Using <device> device], where the device is the accelerator's
    type or [cpu] when there is none, allocates a network of the
    architecture whose module object and eight parameters are all new (no
    object that existed before is changed or shared), prints the model,
    and writes no file. *)
Theorem X15_model_cell_fresh acc w :
  ∃ m w',
    model_cell acc w = Some (m, w')
    ∧ arch (heap w') m
    ∧ heap w ⊆ heap w'
    ∧ (∀ l, l ∈ parameters m → heap w !! l = None)
    ∧ heap w !! self m = None
    ∧ stdout w'
      = stdout w ++ [OutText ("Using " +:+ default "cpu" acc +:+ " device");
                     OutModel (linear_relu_stack m)]
    ∧ files w' = files w.
Proof.
  set (w0 := mkWorld (heap w) (files w) (rng w)
               (stdout w ++ [OutText ("Using " +:+ device acc +:+ " device")])
               (trace w)).
  destruct (NeuralNetwork_init_spec w0)
    as (m & w1 & E1 & Ha & _ & Hsub & Hfr & Hself & Hf & Ho & _).
  exists m. eexists. split.
  { unfold model_cell. mred. fold w0. rewrite E1. mred. reflexivity. }
  clear E1. cbn [heap files stdout].
  split; [exact Ha|]. split; [exact Hsub|]. split; [exact Hfr|].
  split; [exact Hself|]. split; [|exact Hf].
  rewrite Ho. unfold w0. cbn [stdout]. rewrite <- app_assoc.
  by destruct acc.
Qed.

(** X16. [state_dict] reads and does not write: it leaves the state as
    it is and returns a dictionary whose keys are exactly the eight names
    [linear_relu_stack.<i>.weight] and [.bias] for i = 0, 2, 4, 6 (the
    ReLU layers contribute none), each bound to the data of the
    parameter at the same position, of the shape of that position. *)
Theorem X16_state_dict_keys m w :
  arch (heap w) m →
  ∃ sd,
    state_dict m w = Some (sd, w)
    ∧ dom sd = list_to_set names
    ∧ ∀ i k, names !! i = Some k →
        ∃ l t s, parameters m !! i = Some l ∧ param_shapes !! i = Some s
          ∧ sd !! k = Some t ∧ param_data (heap w) l = Some t ∧ shape t = s.
Proof.
  intros Ha. destruct (arch_data _ _ Ha) as (ds & Hds & Hsh).
  exists (list_to_map (zip names ds)).
  split; [by apply state_dict_arch|].
  pose proof (Forall2_length _ _ _ Hsh) as Hlen. cbn in Hlen.
  split.
  { rewrite dom_list_to_map_L, fst_zip; [done|]. cbn. lia. }
  intros i k Hk.
  pose proof (list_to_map_zip_Forall2 names ds NoDup_names) as F.
  destruct (Forall2_lookup_l _ _ _ i k (F ltac:(cbn; lia)) Hk) as (t & Ht & Hsd).
  destruct (Forall2_lookup_r _ _ _ i t Hds Ht) as (l & Hl & Hd).
  destruct (Forall2_lookup_l _ _ _ i t Hsh Ht) as (s & Hs & Hshape & _).
  by exists l, t, s.
Qed.

End ModelCell.

Lemma length_filter_all {A} (P : A → Prop) `{∀ x, Decision (P x)} (l : list A) :
  length (filter P l) = length l ↔ Forall P l.
Proof.
  induction l as [|x l IH]; [by split; [constructor|]|].
  rewrite filter_cons. pose proof (length_filter P l) as Hle.
  case_decide as Hx; cbn [length].
  - rewrite Forall_cons. split.
    + intros E. split; [done|]. apply IH. lia.
    + intros [_ F]. f_equal. by apply IH.
  - split; [lia|]. intros F. by apply Forall_cons in F as [? _].
Qed.

Lemma correct_count_all {R} `{Scalar R} (h : gmap loc (Obj R)) m
    (ds : list (Sample R)) :
  correct_count h m ds = length ds
  ↔ Forall (λ s : Sample R, argmax (logits h m s.1) = Some s.2) ds.
Proof. unfold correct_count. apply length_filter_all. Qed.

Lemma correct_count_le {R} `{Scalar R} (h : gmap loc (Obj R)) m
    (ds : list (Sample R)) :
  correct_count h m ds ≤ length ds.
Proof. unfold correct_count. apply length_filter. Qed.

(** X17. In exact arithmetic the accuracy [test] prints lies between 0
    and 100, and it is 100 exactly when the model classifies every sample
    of the data set correctly. *)
Theorem X17_accuracy_range (sample_loss : list Q → nat → Q) (dl : DataLoader Q) m
    (w : @World Q _ (Q_torch sample_loss)) :
  arch (heap w) m → Forall wf_sample (dataset dl) →
  dataset dl ≠ [] → 0 < batch_size dl →
  ∃ w' acc loss,
    @test Q _ (Q_torch sample_loss) dl m
      (@nn_CrossEntropyLoss Q _ (Q_torch sample_loss)) w = Some (tt, w')
    ∧ stdout w' = stdout w ++ [OutTestError acc loss]
    ∧ (0 <= acc <= 100)%Q
    ∧ ((acc == 100)%Q
       ↔ Forall (λ s : Sample Q, argmax (logits (heap w) m s.1) = Some s.2)
           (dataset dl)).
Proof.
  intros Ha Hds Hne Hbs.
  pose proof (@test_spec Q _ (Q_torch sample_loss) dl m w Ha Hds Hne Hbs) as E.
  eexists _, _, _. split; [exact E|]. clear E. cbn [stdout].
  split; [reflexivity|].
  unfold mul, div, of_nat. cbn [Q_scalar].
  rewrite <- (correct_count_all (heap w) m (dataset dl)).
  pose proof (correct_count_le (heap w) m (dataset dl)) as Hle.
  assert (Hn : 0 < length (dataset dl)).
  { destruct (dataset dl); [done|cbn; lia]. }
  generalize dependent (correct_count (heap w) m (dataset dl)).
  generalize dependent (length (dataset dl)).
  clear. intros n Hn c Hc.
  change (inject_Z (Z.of_nat 100)) with 100%Q.
  assert (Hn' : (0 < inject_Z (Z.of_nat n))%Q).
  { change 0%Q with (inject_Z (Z.of_nat 0)). rewrite <- Zlt_Qlt.
    by apply Nat2Z.inj_lt. }
  assert (Hc0 : (0 <= inject_Z (Z.of_nat c))%Q).
  { change 0%Q with (inject_Z (Z.of_nat 0)). rewrite <- Zle_Qle.
    apply Nat2Z.inj_le, Nat.le_0_l. }
  assert (Hcn : (inject_Z (Z.of_nat c) <= inject_Z (Z.of_nat n))%Q).
  { rewrite <- Zle_Qle. by apply Nat2Z.inj_le. }
  assert (Hiff : (inject_Z (Z.of_nat c) == inject_Z (Z.of_nat n))%Q ↔ c = n).
  { split; [|by intros ->]. intros E. apply Nat2Z.inj. by apply inject_Z_injective. }
  rewrite <- Hiff. clear Hiff Hn Hc.
  generalize dependent (inject_Z (Z.of_nat c)).
  generalize dependent (inject_Z (Z.of_nat n)).
  intros b Hb a Ha0 Hab.
  assert (Hq0 : (0 <= a / b)%Q).
  { apply Qle_shift_div_l; [done|]. lra. }
  assert (Hq1 : (a / b <= 1)%Q).
  { apply Qle_shift_div_r; [done|]. lra. }
  split; [lra|]. split.
  - intros E. assert (Eq : (a / b == 1)%Q) by lra.
    rewrite <- (Qmult_div_r a b) by lra. rewrite Eq. lra.
  - intros E. rewrite E. field. lra.
Qed.

(** * The properties at the concrete state *)

Lemma demo_train_inv :
  @train_inv Q _ (heap demo_world) demo_model demo_optimizer.
Proof.
  unfold demo_world, demo_model, demo_optimizer, demo_setup.
  destruct (@model_cell_spec Q _ demo_torch None demo_world0)
    as (m & w1 & E1 & Ha & Hg & _).
  rewrite E1. clear E1.
  destruct (@optimizer_cell_spec Q _ demo_torch m w1 Ha Hg)
    as (opt & w2 & E2 & Hinv & _).
  rewrite E2. exact Hinv.
Qed.

Lemma demo_arch : arch (heap demo_world) demo_model.
Proof. exact (proj1 demo_train_inv). Qed.

Lemma demo_sample_wf : wf_sample demo_sample.
Proof. split; [apply length_replicate|cbn; lia]. Qed.

#[local] Existing Instance demo_torch.


Lemma demo_loader_wf : Forall wf_sample (dataset demo_loader).
Proof. apply Forall_cons_2; [exact demo_sample_wf|apply Forall_nil_2]. Qed.

Lemma C1_witness :
  (∀ sd : gmap string (Tensor Q), unpickle (pickle sd) = Some sd)
  ∧ arch (heap demo_world) demo_model
  ∧ ∃ w1 m' w2 ds,
      save_cell demo_model demo_world = Some (tt, w1)
      ∧ load_cell w1 = Some (m', w2)
      ∧ length ds = 8
      ∧ param_data (heap demo_world) <$> parameters demo_model = Some <$> ds
      ∧ param_data (heap w2) <$> parameters m' = Some <$> ds
      ∧ (∀ l, l ∈ parameters m' → l ∉ parameters demo_model)
      ∧ ∀ x, forward (heap w2) m' x = forward (heap demo_world) demo_model x.
Proof.
  split; [reflexivity|]. split; [exact demo_arch|].
  apply (C1_save_load_round_trip demo_model demo_world);
    [reflexivity|exact demo_arch].
Defined.

Lemma C3_witness :
  train_inv (heap demo_world) demo_model demo_optimizer
  ∧ Forall wf_sample (dataset demo_loader)
  ∧ ∃ w', train demo_loader demo_model nn_CrossEntropyLoss demo_optimizer demo_world
          = Some (tt, w')
      ∧ grads_cleared (heap w') (parameters demo_model).
Proof.
  split; [exact demo_train_inv|]. split; [exact demo_loader_wf|].
  destruct (C3_train_is_sgd demo_loader demo_model demo_optimizer demo_world
              demo_train_inv demo_loader_wf) as (w' & E & _ & _ & _ & Hg).
  exists w'. split; [exact E|exact Hg].
Defined.

Lemma demo_image_wf : wf_tensor (image demo_sample).
Proof. exact (length_replicate 784 0%Q). Qed.

Lemma C2_witness :
  arch (heap demo_world) demo_model
  ∧ shape (image demo_sample) = [1; 28; 28] ∧ numel [28; 28] = 784
  ∧ wf_tensor (image demo_sample)
  ∧ ∃ out, forward (heap demo_world) demo_model (image demo_sample) = Some out
      ∧ shape out = [1; 10].
Proof.
  split; [exact demo_arch|]. split; [reflexivity|]. split; [reflexivity|].
  split; [exact demo_image_wf|].
  destruct (C2_forward_four_layers (heap demo_world) demo_model demo_arch)
    as (_ & W1 & b1 & W2 & b2 & W3 & b3 & W4 & b4 & _ & _ & Hfw).
  destruct (Hfw (image demo_sample) 1 28 [28] eq_refl eq_refl demo_image_wf)
    as (_ & E & _).
  eexists. split; [exact E|reflexivity].
Defined.

Lemma demo_loader_nonempty : dataset demo_loader ≠ [].
Proof. discriminate. Qed.

Lemma demo_loader_batch_size : 0 < batch_size demo_loader.
Proof. unfold demo_loader, make_loader, batch_size_cell. cbn. lia. Qed.

Lemma C4_witness :
  train_inv (heap demo_world) demo_model demo_optimizer
  ∧ Forall wf_sample (dataset demo_loader)
  ∧ dataset demo_loader ≠ [] ∧ 0 < batch_size demo_loader
  ∧ ∃ w' t,
      epochs_cell demo_loader demo_loader demo_model nn_CrossEntropyLoss
        demo_optimizer demo_world = Some (tt, w')
      ∧ trace w' = trace demo_world ++ t
      ∧ count_steps t = 20 * loader_len demo_loader.
Proof.
  split; [exact demo_train_inv|]. split; [exact demo_loader_wf|].
  split; [exact demo_loader_nonempty|]. split; [exact demo_loader_batch_size|].
  destruct (C4_epochs_control_flow demo_loader demo_loader demo_model demo_optimizer
              demo_world demo_train_inv demo_loader_wf demo_loader_wf
              demo_loader_nonempty demo_loader_batch_size)
    as (w' & t & E & Ht & _ & Hc).
  exists w', t. split; [exact E|]. split; [exact Ht|exact Hc].
Defined.

Lemma C5_witness :
  arch (heap demo_world) demo_model
  ∧ Forall wf_sample (dataset demo_loader)
  ∧ dataset demo_loader ≠ [] ∧ 0 < batch_size demo_loader
  ∧ ∃ w' acc avg,
      test demo_loader demo_model nn_CrossEntropyLoss demo_world = Some (tt, w')
      ∧ stdout w' = stdout demo_world ++ [OutTestError acc avg].
Proof.
  split; [exact demo_arch|]. split; [exact demo_loader_wf|].
  split; [exact demo_loader_nonempty|]. split; [exact demo_loader_batch_size|].
  destruct (C5_test_metrics demo_loader demo_model demo_world demo_arch
              demo_loader_wf demo_loader_nonempty demo_loader_batch_size)
    as (w' & E & Ho & _).
  exists w'. eexists _, _. split; [exact E|exact Ho].
Defined.

Lemma C6_witness :
  train_inv (heap demo_world) demo_model demo_optimizer
  ∧ Forall wf_sample (dataset demo_loader)
  ∧ dataset demo_loader ≠ [] ∧ 0 < batch_size demo_loader
  ∧ ∃ w' t,
      epochs_cell demo_loader demo_loader demo_model nn_CrossEntropyLoss
        demo_optimizer demo_world = Some (tt, w')
      ∧ trace w' = trace demo_world ++ t
      ∧ (∀ lr, EvStep lr ∈ t → lr = (1 # 1000)%Q)
      ∧ heap w' !! demo_optimizer
        = Some (OOptimizer (1 # 1000)%Q (parameters demo_model)).
Proof.
  split; [exact demo_train_inv|]. split; [exact demo_loader_wf|].
  split; [exact demo_loader_nonempty|]. split; [exact demo_loader_batch_size|].
  destruct (C6_learning_rate_constant demo_loader demo_loader demo_model
              demo_optimizer demo_world demo_train_inv demo_loader_wf demo_loader_wf
              demo_loader_nonempty demo_loader_batch_size)
    as (w' & t & E & Ht & Hlr & _ & _ & Hopt & _).
  exists w', t. split; [exact E|]. split; [exact Ht|]. split; [exact Hlr|exact Hopt].
Defined.

Lemma C7_witness :
  arch (heap demo_world) demo_model
  ∧ ∃ w' ds,
      save_cell demo_model demo_world = Some (tt, w')
      ∧ files w' = <[".\model" := pickle (list_to_map (zip names ds))]> (files demo_world)
      ∧ trace w' = trace demo_world ++ [EvSave ".\model"]
      ∧ heap w' = heap demo_world.
Proof.
  split; [exact demo_arch|].
  destruct (C7_save_single_write demo_model demo_world demo_arch)
    as (w' & ds & E & _ & Hf & _ & _ & Ht & Hh).
  exists w', ds. split; [exact E|]. split; [exact Hf|]. split; [exact Ht|exact Hh].
Defined.

Lemma C8_witness :
  arch (heap demo_world) demo_model
  ∧ Forall wf_sample (dataset demo_loader)
  ∧ dataset demo_loader ≠ [] ∧ 0 < batch_size demo_loader
  ∧ [demo_sample] !! 0 = Some demo_sample ∧ wf_sample demo_sample
  ∧ (∃ w', test demo_loader demo_model nn_CrossEntropyLoss demo_world = Some (tt, w')
       ∧ ∀ l, l ≠ self demo_model → heap w' !! l = heap demo_world !! l)
  ∧ (∃ w', predict_cell [demo_sample] demo_model demo_world = Some (tt, w')
       ∧ ∀ l, l ≠ self demo_model → heap w' !! l = heap demo_world !! l).
Proof.
  split; [exact demo_arch|]. split; [exact demo_loader_wf|].
  split; [exact demo_loader_nonempty|]. split; [exact demo_loader_batch_size|].
  split; [reflexivity|]. split; [exact demo_sample_wf|].
  destruct (C8_evaluation_frame demo_loader [demo_sample] demo_model demo_world
              demo_sample demo_arch demo_loader_wf demo_loader_nonempty
              demo_loader_batch_size eq_refl demo_sample_wf)
    as [(w1 & E1 & F1 & _) (w2 & E2 & F2 & _)].
  split; [exists w1; split; [exact E1|exact F1]|exists w2; split; [exact E2|exact F2]].
Defined.

Lemma C10_witness :
  arch (heap demo_world) demo_model
  ∧ [demo_sample] !! 0 = Some demo_sample ∧ wf_sample demo_sample
  ∧ ∃ i predicted actual w',
      argmax (logits (heap demo_world) demo_model demo_sample.1) = Some i ∧ i < 10
      ∧ classes !! i = Some predicted ∧ classes !! demo_sample.2 = Some actual
      ∧ predict_cell [demo_sample] demo_model demo_world = Some (tt, w').
Proof.
  split; [exact demo_arch|]. split; [reflexivity|]. split; [exact demo_sample_wf|].
  destruct (C10_class_lookup_in_bounds [demo_sample] demo_model demo_world
              demo_sample demo_arch eq_refl demo_sample_wf)
    as (_ & _ & i & p & a & w' & _ & Hi & Hb & Hp & Ha & E & _).
  exists i, p, a, w'. split; [exact Hi|]. split; [exact Hb|].
  split; [exact Hp|]. split; [exact Ha|exact E].
Defined.


Lemma demo_training_size : Z.of_nat (length demo_training_data) = 60000%Z.
Proof. unfold demo_training_data. rewrite length_replicate. apply Z2Nat.id. lia. Qed.

Lemma loss_of_label h m (l : list (Sample Q)) :
  map (loss_of label_loss h m) l = map (λ s : Sample Q, label_loss [] s.2) l.
Proof. apply map_ext. intros s. reflexivity. Qed.

Lemma label_arch : arch (heap label_world) label_model.
Proof.
  unfold label_world, label_model, label_setup.
  destruct (@model_cell_spec Q _ label_torch None label_world0)
    as (m & w1 & E1 & Ha & _).
  rewrite E1. exact Ha.
Qed.

Lemma blank_wf y : y < 10 → wf_sample (blank y).
Proof. intros Hy. split; [apply length_replicate|exact Hy]. Qed.

Lemma balanced_wf : Forall wf_sample balanced_test_data.
Proof.
  unfold balanced_test_data. rewrite !Forall_app.
  split; [|split]; apply Forall_replicate, blank_wf; lia.
Qed.

Lemma skewed_wf : Forall wf_sample skewed_test_data.
Proof.
  unfold skewed_test_data. rewrite !Forall_app.
  split; apply Forall_replicate, blank_wf; lia.
Qed.

Lemma balanced_length : length balanced_test_data = 156 * 64 + 16.
Proof. unfold balanced_test_data. rewrite !length_app, !length_replicate. lia. Qed.

Lemma skewed_length : length skewed_test_data = 156 * 64 + 16.
Proof. unfold skewed_test_data. rewrite !length_app, !length_replicate. lia. Qed.

Lemma balanced_size : Z.of_nat (length balanced_test_data) = 10000%Z.
Proof. rewrite balanced_length. lia. Qed.

Lemma skewed_size : Z.of_nat (length skewed_test_data) = 10000%Z.
Proof. rewrite skewed_length. lia. Qed.

Lemma Forall_bool_decide {A} (f : A → bool) (l : list A) :
  forallb f l = true → Forall (λ x, f x = true) l.
Proof.
  induction l as [|x l IH]; [constructor|]. cbn [forallb].
  intros [Hx Hl]%andb_prop. constructor; [exact Hx|by apply IH].
Qed.

(** The claim C9 as it is worded fails on [balanced_test_data]: the mean
    loss of the last batch is 2 and differs from the mean loss of every
    other batch, which is 1 or 3, and yet the average [test] prints is
    the mean loss per sample; both are 2. *)
Lemma C9_counterexample :
  Z.of_nat (length balanced_test_data) = 10000%Z
  ∧ ∃ others lastb w' acc avg,
      batches 64 balanced_test_data = others ++ [lastb]
      ∧ length lastb = 16
      ∧ (Qmean (map (loss_of label_loss (heap label_world) label_model) lastb)
         == 2)%Q
      ∧ Forall (λ b,
            length b = 64
            ∧ ((Qmean (map (loss_of label_loss (heap label_world) label_model) b)
                == 1)%Q
               ∨ (Qmean (map (loss_of label_loss (heap label_world) label_model) b)
                  == 3)%Q)
            ∧ ¬ (Qmean (map (loss_of label_loss (heap label_world) label_model) b)
                 == Qmean (map (loss_of label_loss (heap label_world) label_model)
                             lastb))%Q) others
      ∧ @test Q _ label_torch (make_loader balanced_test_data) label_model
          (@nn_CrossEntropyLoss Q _ label_torch) label_world = Some (tt, w')
      ∧ stdout w' = stdout label_world ++ [OutTestError acc avg]
      ∧ (avg == Qmean (map (loss_of label_loss (heap label_world) label_model)
                         balanced_test_data))%Q
      ∧ (avg == 2)%Q.
Proof.
  split; [exact balanced_size|].
  destruct (batches_partial balanced_test_data 156 64 16 balanced_length)
    as (Eb & Hfull & Hlast & _); [lia..|].
  eexists _, _, _, _, _. split; [exact Eb|]. split; [exact Hlast|].
  split.
  { rewrite loss_of_label. vm_compute. reflexivity. }
  split.
  { apply Forall_and. split; [exact Hfull|].
    rewrite loss_of_label.
    set (mean := λ b : list (Sample Q),
           Qmean (map (λ s : Sample Q, label_loss [] s.2) b)).
    eapply (Forall_impl (λ b,
              (Qeq_bool (mean b) 1 || Qeq_bool (mean b) 3)
              && negb (Qeq_bool (mean b)
                         (mean (drop (156 * 64) balanced_test_data))) = true)).
    - apply Forall_bool_decide. vm_compute. reflexivity.
    - intros b [Hv Hn]%andb_prop. rewrite loss_of_label. fold (mean b).
      split.
      + apply orb_prop in Hv as [Hv|Hv]; [left|right]; by apply Qeq_bool_eq.
      + apply Qeq_bool_neq. by apply negb_true_iff. }
  split.
  { apply (@test_spec Q _ label_torch); [exact label_arch|exact balanced_wf| |].
    - cbn [make_loader dataset]. intros E. pose proof balanced_length as Hl.
      rewrite E in Hl. cbn in Hl. lia.
    - unfold make_loader, batch_size_cell. cbn. lia. }
  cbn [stdout]. split; [reflexivity|].
  pose proof (test_avg_10000 label_loss (heap label_world) label_model
                balanced_test_data label_arch balanced_wf balanced_length) as Havg.
  cbv zeta in Havg. unfold loader_len, make_loader, batch_size_cell.
  cbn [dataset batch_size].
  assert (Heq : (Qmean (map (loss_of label_loss (heap label_world) label_model)
                          (drop (156 * 64) balanced_test_data))
                 == Qmean (map (loss_of label_loss (heap label_world) label_model)
                             (take (156 * 64) balanced_test_data)))%Q).
  { rewrite !loss_of_label. vm_compute. reflexivity. }
  apply Havg in Heq. split; [exact Heq|].
  rewrite Heq, loss_of_label. vm_compute. reflexivity.
Qed.

Lemma C9_witness :
  Z.of_nat (length demo_training_data) = 60000%Z
  ∧ Z.of_nat (length skewed_test_data) = 10000%Z
  ∧ Forall wf_sample skewed_test_data
  ∧ arch (heap label_world) label_model
  ∧ loader_len (make_loader demo_training_data) = 938
  ∧ loader_len (make_loader skewed_test_data) = 157
  ∧ ∃ w' acc avg,
      @test Q _ label_torch (make_loader skewed_test_data) label_model
        (@nn_CrossEntropyLoss Q _ label_torch) label_world = Some (tt, w')
      ∧ stdout w' = stdout label_world ++ [OutTestError acc avg]
      ∧ ¬ (avg == Qmean (map (loss_of label_loss (heap label_world) label_model)
                           skewed_test_data))%Q.
Proof.
  split; [exact demo_training_size|]. split; [exact skewed_size|].
  split; [exact skewed_wf|]. split; [exact label_arch|].
  destruct (C9_partial_last_batch label_loss demo_training_data skewed_test_data
              label_model label_world demo_training_size skewed_size
              skewed_wf label_arch)
    as ((_ & L1) & (_ & L2) & _ & w' & acc & avg & E & Ho & _ & Hiff).
  split; [exact L1|]. split; [exact L2|].
  exists w', acc, avg. split; [exact E|]. split; [exact Ho|].
  apply Hiff. rewrite !loss_of_label. apply Qeq_bool_neq. vm_compute. reflexivity.
Defined.

Lemma demo_training_wf : Forall wf_sample demo_training_data.
Proof. apply Forall_replicate. exact demo_sample_wf. Qed.

Lemma demo_empty_dict_keys :
  dom (∅ : gmap string (Tensor Q)) ≠ list_to_set names.
Proof.
  rewrite dom_empty_L. intros E.
  assert (Hin : "linear_relu_stack.0.weight" ∈ (list_to_set names : gset string))
    by (unfold names; set_solver).
  rewrite <- E in Hin. set_solver.
Qed.

Lemma X2_witness :
  dataset (make_loader ([] : list (Sample Q))) = []
  ∧ test (make_loader []) demo_model nn_CrossEntropyLoss demo_world = None.
Proof.
  split; [reflexivity|].
  apply (X2_test_empty_raises (make_loader []) demo_model nn_CrossEntropyLoss
           demo_world).
  reflexivity.
Defined.

Lemma X4_witness :
  arch (heap demo_world) demo_model
  ∧ numel (drop 1 (shape (mkTensor [1; 28; 27] (replicate 756 0%Q)))) ≠ 784
  ∧ forward (heap demo_world) demo_model (mkTensor [1; 28; 27] (replicate 756 0%Q))
    = None.
Proof.
  assert (Hx : numel (drop 1 (shape (mkTensor [1; 28; 27] (replicate 756 0%Q))))
               ≠ 784) by (cbn; lia).
  split; [exact demo_arch|]. split; [exact Hx|].
  apply (X4_forward_rejects_other_sizes (heap demo_world) demo_model
           (mkTensor [1; 28; 27] (replicate 756 0%Q)) demo_arch).
  right. exact Hx.
Defined.

Lemma X5_witness :
  files demo_world0 !! ".\model" ≫= unpickle = None
  ∧ load_cell demo_world0 = None.
Proof.
  split; [reflexivity|].
  apply (X5_load_without_file_raises demo_world0). reflexivity.
Defined.

Lemma X6_witness :
  arch (heap demo_world) demo_model
  ∧ dom (∅ : gmap string (Tensor Q)) ≠ list_to_set names
  ∧ load_state_dict demo_model ∅ demo_world = None.
Proof.
  split; [exact demo_arch|]. split; [exact demo_empty_dict_keys|].
  apply (X6_load_state_dict_strict demo_model ∅ demo_world demo_arch).
  left. exact demo_empty_dict_keys.
Defined.

Lemma X7_witness :
  arch (heap demo_world) demo_model
  ∧ Forall wf_sample (dataset demo_loader)
  ∧ dataset demo_loader ≠ [] ∧ 0 < batch_size demo_loader
  ∧ ∃ w1 w2 line,
      test demo_loader demo_model nn_CrossEntropyLoss demo_world = Some (tt, w1)
      ∧ test demo_loader demo_model nn_CrossEntropyLoss w1 = Some (tt, w2)
      ∧ stdout w2 = stdout demo_world ++ [line; line].
Proof.
  split; [exact demo_arch|]. split; [exact demo_loader_wf|].
  split; [exact demo_loader_nonempty|]. split; [exact demo_loader_batch_size|].
  destruct (X7_test_repeatable demo_loader demo_model demo_world demo_arch
              demo_loader_wf demo_loader_nonempty demo_loader_batch_size)
    as (w1 & w2 & line & E1 & E2 & _ & Ho & _).
  exists w1, w2, line. split; [exact E1|]. split; [exact E2|exact Ho].
Defined.

Lemma X8_witness :
  (∀ sd : gmap string (Tensor Q), unpickle (pickle sd) = Some sd)
  ∧ arch (heap demo_world) demo_model
  ∧ ∃ w1 m' w2 w3,
      save_cell demo_model demo_world = Some (tt, w1)
      ∧ load_cell w1 = Some (m', w2)
      ∧ save_cell m' w2 = Some (tt, w3)
      ∧ files w3 = files w1.
Proof.
  split; [reflexivity|]. split; [exact demo_arch|].
  destruct (X8_save_load_save demo_model demo_world (λ sd, eq_refl) demo_arch)
    as (w1 & m' & w2 & w3 & E1 & E2 & E3 & Hf & _).
  exists w1, m', w2, w3. split; [exact E1|]. split; [exact E2|].
  split; [exact E3|exact Hf].
Defined.

Lemma X9_witness :
  train_inv (heap demo_world) demo_model demo_optimizer
  ∧ Forall wf_sample demo_training_data
  ∧ Z.of_nat (length demo_training_data) = 60000%Z
  ∧ ∃ w' outs,
      train (make_loader demo_training_data) demo_model nn_CrossEntropyLoss
        demo_optimizer demo_world = Some (tt, w')
      ∧ stdout w' = stdout demo_world ++ outs
      ∧ prod_map Z.of_nat Z.of_nat <$> omap progress_of outs
        = [(64, 60000); (6464, 60000); (12864, 60000); (19264, 60000);
           (25664, 60000); (32064, 60000); (38464, 60000); (44864, 60000);
           (51264, 60000); (57664, 60000)]%Z.
Proof.
  split; [exact demo_train_inv|]. split; [exact demo_training_wf|].
  split; [exact demo_training_size|].
  destruct (X9_train_progress_lines demo_training_data demo_model demo_optimizer
              demo_world demo_train_inv demo_training_wf demo_training_size)
    as (w' & outs & E & Ho & _ & Hp).
  exists w', outs. split; [exact E|]. split; [exact Ho|exact Hp].
Defined.

Lemma X10_witness :
  train_inv (heap demo_world) demo_model demo_optimizer
  ∧ Forall wf_sample (dataset demo_loader)
  ∧ dataset demo_loader ≠ [] ∧ 0 < batch_size demo_loader
  ∧ ∃ w' outs,
      epochs_cell demo_loader demo_loader demo_model nn_CrossEntropyLoss
        demo_optimizer demo_world = Some (tt, w')
      ∧ stdout w' = stdout demo_world ++ outs
      ∧ omap epoch_no outs = seq 1 20
      ∧ last outs = Some (OutText "Done!").
Proof.
  split; [exact demo_train_inv|]. split; [exact demo_loader_wf|].
  split; [exact demo_loader_nonempty|]. split; [exact demo_loader_batch_size|].
  destruct (X10_epochs_cell_output demo_loader demo_loader demo_model demo_optimizer
              demo_world demo_train_inv demo_loader_wf demo_loader_wf
              demo_loader_nonempty demo_loader_batch_size)
    as (w' & outs & E & Ho & He & _ & Hl).
  exists w', outs. split; [exact E|]. split; [exact Ho|]. split; [exact He|exact Hl].
Defined.

Lemma X11_witness :
  train_inv (heap demo_world) demo_model demo_optimizer
  ∧ Forall wf_sample (dataset demo_loader)
  ∧ ∃ w', train demo_loader demo_model nn_CrossEntropyLoss demo_optimizer demo_world
          = Some (tt, w')
      ∧ dom (heap w') = dom (heap demo_world)
      ∧ files w' = files demo_world.
Proof.
  split; [exact demo_train_inv|]. split; [exact demo_loader_wf|].
  destruct (X11_train_frame demo_loader demo_model demo_optimizer demo_world
              demo_train_inv demo_loader_wf)
    as (w' & E & Hd & _ & _ & _ & _ & Hf).
  exists w'. split; [exact E|]. split; [exact Hd|exact Hf].
Defined.

Lemma X12_witness :
  0 < batch_size demo_loader
  ∧ concat ((λ Xy : Tensor Q * list nat, Xy.2) <$> loader_iter demo_loader)
    = snd <$> dataset demo_loader
  ∧ length (loader_iter demo_loader) = loader_len demo_loader.
Proof.
  split; [exact demo_loader_batch_size|].
  destruct (X12_loader_covers_dataset demo_loader demo_loader_batch_size)
    as (Hl & _ & Hn & _).
  split; [exact Hl|exact Hn].
Defined.

Lemma X13_witness :
  (∀ sd : gmap string (Tensor Q), unpickle (pickle sd) = Some sd)
  ∧ Forall wf_sample [demo_sample]
  ∧ [demo_sample] !! 0 = Some demo_sample
  ∧ ∃ w', cells_after_data None [demo_sample] [demo_sample] demo_world0
          = Some (tt, w')
      ∧ ∃ line, last (stdout w') = Some line.
Proof.
  split; [reflexivity|]. split; [exact demo_loader_wf|]. split; [reflexivity|].
  destruct (X13_cells_after_data_run None [demo_sample] [demo_sample] demo_sample
              demo_world0 (λ sd, eq_refl) demo_loader_wf demo_loader_wf eq_refl)
    as (w0 & m & w1 & opt & w2 & w' & ds & i & p & a & _ & _ & _ & E & Hrest).
  cbv zeta in Hrest. destruct Hrest as (_ & _ & _ & _ & _ & _ & Hl).
  exists w'. split; [exact E|]. exists (OutPredicted p a). exact Hl.
Defined.

Lemma X14_witness :
  (∀ sd : gmap string (Tensor Q), unpickle (pickle sd) = Some sd)
  ∧ arch (heap demo_world) demo_model
  ∧ [demo_sample] !! 0 = Some demo_sample ∧ wf_sample demo_sample
  ∧ ∃ w1 m' w2 w3 w4 line,
      save_cell demo_model demo_world = Some (tt, w1)
      ∧ load_cell w1 = Some (m', w2)
      ∧ predict_cell [demo_sample] m' w2 = Some (tt, w3)
      ∧ predict_cell [demo_sample] demo_model demo_world = Some (tt, w4)
      ∧ stdout w3 = stdout w2 ++ [line]
      ∧ stdout w4 = stdout demo_world ++ [line].
Proof.
  split; [reflexivity|]. split; [exact demo_arch|]. split; [reflexivity|].
  split; [exact demo_sample_wf|].
  exact (X14_restored_model_predicts_same [demo_sample] demo_model demo_world
           demo_sample (λ sd, eq_refl) demo_arch eq_refl demo_sample_wf).
Defined.

Lemma X16_witness :
  arch (heap demo_world) demo_model
  ∧ ∃ sd, state_dict demo_model demo_world = Some (sd, demo_world)
      ∧ dom sd = list_to_set names.
Proof.
  split; [exact demo_arch|].
  destruct (X16_state_dict_keys demo_model demo_world demo_arch)
    as (sd & E & Hd & _).
  exists sd. split; [exact E|exact Hd].
Defined.

Lemma X17_witness :
  arch (heap demo_world) demo_model
  ∧ Forall wf_sample (dataset demo_loader)
  ∧ dataset demo_loader ≠ [] ∧ 0 < batch_size demo_loader
  ∧ ∃ w' acc loss,
      test demo_loader demo_model nn_CrossEntropyLoss demo_world = Some (tt, w')
      ∧ stdout w' = stdout demo_world ++ [OutTestError acc loss]
      ∧ (0 <= acc <= 100)%Q.
Proof.
  split; [exact demo_arch|]. split; [exact demo_loader_wf|].
  split; [exact demo_loader_nonempty|]. split; [exact demo_loader_batch_size|].
  destruct (X17_accuracy_range (λ _ _, 0%Q) demo_loader demo_model demo_world
              demo_arch demo_loader_wf demo_loader_nonempty demo_loader_batch_size)
    as (w' & acc & loss & E & Ho & Hr & _).
  exists w', acc, loss. split; [exact E|]. split; [exact Ho|exact Hr].
Defined.
